(** * Lost-person detection: the frame-sampled scanning pipeline

    A shallow embedding of [src/app.py] (class [PersonDetector] and the core
    of the [/api/detect] route) and of [src/person_detector.py] (the command
    line variant), with the properties of the scan stated and proved on it.

    Conventions of the embedding.
    - Python [int] is [Z]; [a % b] is [Z.modulo] (both follow the sign of
      the divisor) and raises [ZeroDivisionError] when [b = 0].
    - Python [float] values that the code only compares, truncates or
      stores (tolerance, face distance, capture properties, timestamps)
      are exact rationals [Q]: [frame_count / fps] is the quotient itself
      and [int(x)] is the integer part of [x].
    - [str] is [string].
    - Every call that touches a file, a capture or a writer appends an
      event to a trace; the trace survives a raised exception, as the
      effects of a Python program do.
    - [cv2.imwrite] raises when OpenCV has no image encoder for the
      extension of the path; the event of an image write is a call that
      did not raise. *)

From Stdlib Require Import ZArith QArith Qabs List String Ascii Bool Lia DecimalString.
From Stdlib Require Import DecimalPos DecimalN.
Import ListNotations.

Local Open Scope string_scope.
Local Open Scope list_scope.
Local Open Scope Z_scope.

(* ================================================================== *)
(** ** Python values and primitives *)

Module Py.

(** Exceptions, with the text [str(e)] gives. *)
Inductive exn : Type :=
| ZeroDivisionError (msg : string)
| Error (msg : string).   (* any other subclass of Exception *)

Definition str (e : exn) : string :=
  match e with
  | ZeroDivisionError msg => msg
  | Error msg => msg
  end.

Inductive result (A : Type) : Type :=
| Ok (a : A)
| Raise (e : exn).
Arguments Ok {A} a.
Arguments Raise {A} e.

(** [a % b] *)
Definition mod_ (a b : Z) : result Z :=
  if b =? 0 then Raise (ZeroDivisionError "integer modulo by zero")
  else Ok (a mod b).

(** [a / b] on two ints (true division) *)
Definition truediv (a b : Z) : result Q :=
  if b =? 0 then Raise (ZeroDivisionError "division by zero")
  else Ok (inject_Z a / inject_Z b)%Q.

(** [int(x)] on a float: the integer part, rounding towards zero. *)
Definition int (x : Q) : Z := Z.quot (Qnum x) (Z.pos (Qden x)).

(** [s.replace(old, new)]: the occurrences of [old] are found from left
    to right and do not overlap. [skip] counts the characters of a
    matched occurrence of [old] that are still to be dropped. *)
Fixpoint replace_from (old new : string) (skip : nat) (s : string) : string :=
  match s with
  | EmptyString => EmptyString
  | String c rest =>
      match skip with
      | S k => replace_from old new k rest
      | O =>
          if prefix old s
          then (new ++ replace_from old new (String.length old - 1) rest)%string
          else String c (replace_from old new 0 rest)
      end
  end.

(** [old = ""] puts [new] before every character and at the end. *)
Fixpoint intersperse (new s : string) : string :=
  match s with
  | EmptyString => new
  | String c rest => (new ++ String c (intersperse new rest))%string
  end.

Definition replace (s old new : string) : string :=
  match old with
  | EmptyString => intersperse new s
  | String _ _ => replace_from old new 0 s
  end.

(** [format(n, "0<width>d")], as in [f"{n:06d}"]: decimal digits, padded
    with zeros after the sign up to [width] characters. *)
Fixpoint zeros (k : nat) : string :=
  match k with
  | O => ""
  | S k' => String "0" (zeros k')
  end.

Definition format_0d (width : nat) (n : Z) : string :=
  let digits := NilZero.string_of_uint (N.to_uint (Z.abs_N n)) in
  if n <? 0
  then (String "-" (zeros (width - 1 - String.length digits) ++ digits))%string
  else (zeros (width - String.length digits) ++ digits)%string.


(** [sub in s] *)
Fixpoint contains (sub s : string) : bool :=
  prefix sub s ||
  match s with
  | EmptyString => false
  | String _ rest => contains sub rest
  end.

End Py.
Import Py.

(* ================================================================== *)
(** ** OpenCV: the encoder [cv2.imwrite] picks *)

Module Cv.

(** [isalnum] and [tolower] of C, on one byte. *)
Definition isalnum (c : ascii) : bool :=
  let n := nat_of_ascii c in
  ((48 <=? n) && (n <=? 57) || (65 <=? n) && (n <=? 90)
   || (97 <=? n) && (n <=? 122))%nat.

Definition tolower (c : ascii) : ascii :=
  let n := nat_of_ascii c in
  if ((65 <=? n) && (n <=? 90))%nat then ascii_of_nat (n + 32) else c.

(** What follows the last ['.'] of [s] ([strrchr]), if it has one. *)
Fixpoint after_last_dot (s : string) : option string :=
  match s with
  | EmptyString => None
  | String c rest =>
      match after_last_dot rest with
      | Some ext => Some ext
      | None => if Ascii.eqb c "." then Some rest else None
      end
  end.

(** The letters and digits [s] starts with, in lower case. *)
Fixpoint alnum_prefix (s : string) : string :=
  match s with
  | EmptyString => EmptyString
  | String c rest =>
      if isalnum c then String (tolower c) (alnum_prefix rest)
      else EmptyString
  end.

(** The file extensions of the image encoders of OpenCV 4 (imgcodecs):
    BMP, JPEG, JPEG 2000, PNG, WebP, the portable formats, Sun raster,
    TIFF, OpenEXR and Radiance HDR. *)
Definition IMAGE_EXTENSIONS : list string :=
  ["bmp"; "dib"; "jpeg"; "jpg"; "jpe"; "jp2"; "png"; "webp"; "pbm"; "pgm";
   "ppm"; "pxm"; "pnm"; "pam"; "pfm"; "sr"; "ras"; "tiff"; "tif"; "exr";
   "hdr"; "pic"].

(** Whether [cv2.imwrite] finds an encoder for [path]: it takes the
    letters and digits after the last ['.'] of the path and compares them,
    without case, with the extensions of its encoders. *)
Definition has_encoder (path : string) : bool :=
  match after_last_dot path with
  | Some ext => existsb (String.eqb (alnum_prefix ext)) IMAGE_EXTENSIONS
  | None => false
  end.

End Cv.

(* ================================================================== *)
(** ** Effects: a trace of events, with exceptions *)

Definition IO (E A : Type) : Type := list E -> result A * list E.

Definition ret {E A} (a : A) : IO E A := fun tr => (Ok a, tr).

Definition bind {E A B} (m : IO E A) (k : A -> IO E B) : IO E B :=
  fun tr =>
    match m tr with
    | (Ok a, tr') => k a tr'
    | (Raise e, tr') => (Raise e, tr')
    end.

Definition raise {E A} (e : exn) : IO E A := fun tr => (Raise e, tr).

Definition lift {E A} (r : result A) : IO E A := fun tr => (r, tr).

Definition emit {E} (e : E) : IO E unit := fun tr => (Ok tt, tr ++ [e]).

(** [try: m  except Exception as e: h e] *)
Definition try_except {E A} (m : IO E A) (h : exn -> IO E A) : IO E A :=
  fun tr =>
    match m tr with
    | (Ok a, tr') => (Ok a, tr')
    | (Raise e, tr') => h e tr'
    end.

Declare Scope io_scope.
Delimit Scope io_scope with io.
Notation "x <- m ;; k" := (bind m (fun x => k))
  (at level 100, m at next level, right associativity) : io_scope.
Notation "' pat <- m ;; k" :=
  (bind m (fun x => match x with pat => k end))
  (at level 100, pat pattern, m at next level, right associativity) : io_scope.
Notation "m ;; k" := (bind m (fun _ => k))
  (at level 100, right associativity) : io_scope.
Local Open Scope io_scope.

(* ================================================================== *)
(** ** Data of the pipeline *)

(** A face location as [face_recognition] gives it: (top, right, bottom, left). *)
Definition box : Type := (Z * Z * Z * Z)%type.

(** What the code draws on a frame. *)
Inductive annotation : Type :=
| Rectangle (b : box)              (* cv2.rectangle *)
| PersonFound (b : box)            (* cv2.putText "PERSON FOUND!" *)
| TimeText (b : box) (timestamp : Q). (* cv2.putText "Time: ..s" *)

(** A decoded frame: its pixels as read, and what was drawn on it since. *)
Record frame (image : Type) : Type := mkFrame {
  pixels : image;
  drawn : list annotation
}.
Arguments mkFrame {image} pixels drawn.
Arguments pixels {image} f.
Arguments drawn {image} f.

Inductive codec : Type := avc1 | mp4v.

(** A [cv2.VideoWriter] object. *)
Record writer : Type := mkWriter {
  w_path : string;
  w_codec : codec;
  isOpened : bool
}.

Inductive event (image : Type) : Type :=
| EvLoadImage (path : string)               (* face_recognition.load_image_file *)
| EvCaptureOpen (path : string)             (* cv2.VideoCapture(path) *)
| EvWriterInit (path : string) (c : codec) (fps : Z) (frameSize : Z * Z)
                                            (* cv2.VideoWriter(..) *)
| EvWrite (out : writer) (f : frame image)  (* out.write(frame) *)
| EvImwrite (path : string) (f : frame image) (* cv2.imwrite(path, frame) *)
| EvCaptureRelease (path : string)          (* video.release() *)
| EvWriterRelease (out : writer)            (* out.release() *)
| EvMakedirs (path : string)                (* os.makedirs *)
| EvSave (path : string)                    (* FileStorage.save *)
| EvRemove (path : string).                 (* os.remove *)
Arguments EvLoadImage {image} path.
Arguments EvCaptureOpen {image} path.
Arguments EvWriterInit {image} path c fps frameSize.
Arguments EvWrite {image} out f.
Arguments EvImwrite {image} path f.
Arguments EvCaptureRelease {image} path.
Arguments EvWriterRelease {image} out.
Arguments EvMakedirs {image} path.
Arguments EvSave {image} path.
Arguments EvRemove {image} path.

(** What [cv2.VideoCapture(path)] gives: whether it opened, the floats
    that [video.get(cv2.CAP_PROP_..)] returns, and the frames that
    successive [video.read()] calls return before [ret] is false. *)
Record capture (image : Type) : Type := mkCapture {
  cap_isOpened : bool;
  cap_fps : Q;
  cap_width : Q;
  cap_height : Q;
  cap_frame_count : Q;
  cap_frames : list image
}.
Arguments mkCapture {image}.
Arguments cap_isOpened {image} c.
Arguments cap_fps {image} c.
Arguments cap_width {image} c.
Arguments cap_height {image} c.
Arguments cap_frame_count {image} c.
Arguments cap_frames {image} c.

(** How the construction of a [cv2.VideoWriter] ends. *)
Inductive init_status : Type :=
| InitOpened      (* the object is returned and isOpened() *)
| InitClosed      (* the object is returned, not isOpened() *)
| InitRaises.     (* the constructor raises *)

(** The files and codecs of the machine the program runs on. *)
Record world (image : Type) : Type := mkWorld {
  image_files : string -> image + string; (* inr msg: load_image_file raises *)
  video_files : string -> capture image;
  codec_init : string -> codec -> init_status;
  dir_exists : string -> bool
}.
Arguments mkWorld {image}.
Arguments image_files {image} w.
Arguments video_files {image} w.
Arguments codec_init {image} w.
Arguments dir_exists {image} w.

(* ================================================================== *)
(** ** [src/app.py] *)

Module App.

Section Detector.

Context {image : Type} {encoding : Type}.

(** The face capability of [face_recognition], taken as it is.
    [detect_faces img] pairs [face_locations(img)] with
    [face_encodings(img, face_locations)], which has one encoding per
    location, in the same order. For a frame read from the video, [img]
    stands for the frame before anything is drawn on it (the code detects
    on [rgb_frame], a converted copy). *)
Variable detect_faces : image -> list (box * encoding).

(** [face_recognition.face_distance]: the distance of two encodings. *)
Variable face_distance : encoding -> encoding -> Q.

Variable W : world image.

#[local] Notation "'io'" := (IO (event image)).

(** [face_recognition.face_encodings(img)] *)
Definition face_encodings (img : image) : list encoding :=
  map snd (detect_faces img).

(** [face_recognition.compare_faces(known, enc, tolerance)], which is
    [list(face_distance(known, enc) <= tolerance)]. *)
Definition compare_faces (known : list encoding) (enc : encoding)
    (tolerance : Q) : list bool :=
  map (fun k => Qle_bool (face_distance k enc) tolerance) known.

Definition load_image_file (path : string) : io image :=
  emit (EvLoadImage path) ;;
  match image_files W path with
  | inl img => ret img
  | inr msg => raise (Error msg)
  end.

Definition VideoCapture (path : string) : io (capture image) :=
  emit (EvCaptureOpen path) ;;
  ret (video_files W path).

Definition VideoWriter (path : string) (fourcc : codec) (fps : Z)
    (frameSize : Z * Z) : io writer :=
  emit (EvWriterInit path fourcc fps frameSize) ;;
  match codec_init W path fourcc with
  | InitOpened => ret (mkWriter path fourcc true)
  | InitClosed => ret (mkWriter path fourcc false)
  | InitRaises => raise (Error "VideoWriter")
  end.

(** [cv2.imwrite(path, frame)] raises [cv2.error] when OpenCV has no
    encoder for the extension of [path]; its text holds this message. *)
Definition imwrite (path : string) (f : frame image) : io unit :=
  if Cv.has_encoder path then emit (EvImwrite path f)
  else raise (Error "could not find a writer for the specified extension").

(** *** class PersonDetector *)

Record PersonDetector : Type := mkPersonDetector {
  person_image_path : string;
  video_path : string;
  person_encoding : option encoding
}.

Definition __init__ (person_image_path video_path : string) : PersonDetector :=
  mkPersonDetector person_image_path video_path None.

(** The method returns [(success, message)]; the object after the call
    comes with it. *)
Definition load_person_encoding (self : PersonDetector)
    : io (PersonDetector * (bool * string)) :=
  try_except
    (person_image <- load_image_file (person_image_path self) ;;
     match face_encodings person_image with
     | [] =>
         ret (self, (false, "No face found in the person's image. Please use an image with a clear face."))
     | first :: _ =>
         ret (mkPersonDetector (person_image_path self) (video_path self) (Some first),
              (true, "Successfully loaded person's face encoding."))
     end)
    (fun e => ret (self, (false, ("Error loading person's image: " ++ str e)%string))).

(** The local variables of [detect_person_in_video] that the loop updates. *)
Record locals : Type := mkLocals {
  frame_count : Z;
  detected_frames : Z;
  detection_timestamps : list Q;
  detection_frame_path : option string
}.

(** The dict returned on success. *)
Record summary : Type := mkSummary {
  sum_total_frames : Z;
  sum_detected_frames : Z;
  sum_detection_timestamps : list Q;
  sum_output_video_path : string;
  sum_detection_frame_path : option string
}.

Definition draw (f : frame image) (a : list annotation) : frame image :=
  mkFrame (pixels f) (drawn f ++ a).

(** Lines 90-101: the writer, with the fallback codec. *)
Definition open_writer (output_video_path : string) (fps width height : Z)
    : io writer :=
  try_except
    (out <- VideoWriter output_video_path avc1 fps (width, height) ;;
     if negb (isOpened out)
     then VideoWriter output_video_path mp4v fps (width, height)
     else ret out)
    (fun _ => VideoWriter output_video_path mp4v fps (width, height)).

Section Loop.

Variable the_person : encoding.       (* self.person_encoding *)
Variable output_video_path : string.
Variable tolerance : Q.
Variable frame_skip : Z.
Variable fps : Z.
Variable total_frames : Z.
Variable out : writer.

(** The state of the [for] loop over the faces of one frame: the frame
    being drawn on, the flag [person_found_in_frame], the locals. *)
Definition face_state : Type := (frame image * bool * locals)%type.

(** Lines 129-154: the body of the [for] loop, for one face. *)
Definition face_body (face : box * encoding) (s : face_state)
    : io face_state :=
  let '(location, face_encoding) := face in
  let '(frame, person_found_in_frame, l) := s in
  let matches := compare_faces [the_person] face_encoding tolerance in
  if hd false matches then
    let frame := draw frame [Rectangle location; PersonFound location] in
    timestamp <- lift (truediv (frame_count l) fps) ;;
    let frame := draw frame [TimeText location timestamp] in
    let detected_frames' := detected_frames l + 1 in
    let detection_timestamps' := detection_timestamps l ++ [timestamp] in
    match detection_frame_path l with
    | None =>
        let path := replace output_video_path ".mp4" "_detection_frame.jpg" in
        imwrite path frame ;;
        ret (frame, true,
             mkLocals (frame_count l) detected_frames' detection_timestamps' (Some path))
    | Some path =>
        ret (frame, true,
             mkLocals (frame_count l) detected_frames' detection_timestamps' (Some path))
    end
  else ret (frame, person_found_in_frame, l).

(** Line 128: [for i, face_encoding in enumerate(face_encodings)]. *)
Fixpoint for_faces (faces : list (box * encoding)) (s : face_state)
    : io face_state :=
  match faces with
  | [] => ret s
  | face :: rest => s' <- face_body face s ;; for_faces rest s'
  end.

(** Lines 117-164: the body of the [while] loop, for one frame read. *)
Definition loop_body (img : image) (l : locals) : io locals :=
  r <- lift (mod_ (frame_count l) frame_skip) ;;
  l <- (if r =? 0 then
          ' (frame, _, l) <- for_faces (detect_faces img) (mkFrame img [], false, l) ;;
          emit (EvWrite out frame) ;;
          r100 <- lift (mod_ (frame_count l) 100) ;;
          if r100 =? 0 then
            _ <- lift (truediv (frame_count l) total_frames) ;;  (* progress *)
            ret l
          else ret l
        else ret l) ;;
  ret (mkLocals (frame_count l + 1) (detected_frames l)
         (detection_timestamps l) (detection_frame_path l)).

(** Lines 111-115: [while True], until [video.read()] has no frame left. *)
Fixpoint while_read (frames : list image) (l : locals) : io locals :=
  match frames with
  | [] => ret l
  | img :: rest => l' <- loop_body img l ;; while_read rest l'
  end.

End Loop.

(** [detect_person_in_video]: [(False, msg)] is [inl msg], [(True, dict)]
    is [inr dict]. *)
Definition detect_person_in_video (self : PersonDetector)
    (output_video_path : string) (tolerance : Q) (frame_skip : Z)
    : io (string + summary) :=
  match person_encoding self with
  | None => ret (inl "Person encoding not loaded.")
  | Some the_person =>
      video <- VideoCapture (video_path self) ;;
      if negb (cap_isOpened video) then ret (inl "Could not open video file.")
      else
        let fps := int (cap_fps video) in
        let width := int (cap_width video) in
        let height := int (cap_height video) in
        let total_frames := int (cap_frame_count video) in
        out <- open_writer output_video_path fps width height ;;
        l <- while_read the_person output_video_path tolerance frame_skip
               fps total_frames out (cap_frames video)
               (mkLocals 0 0 [] None) ;;
        emit (EvCaptureRelease (video_path self)) ;;
        emit (EvWriterRelease out) ;;
        ret (inr (mkSummary (frame_count l) (detected_frames l)
                    (detection_timestamps l) output_video_path
                    (detection_frame_path l)))
  end.

(** *** The route [/api/detect]

    [detect_person] from line 211 on: the request is parsed and both
    files have an allowed extension. [stamp] is the generated
    ["{timestamp}_{unique_id}"], [person_ext] and [video_ext] are the
    lowered extensions of the uploaded file names. *)

Inductive body : Type :=
| ErrorBody (error : string)
| SuccessBody (message output_video detection_frame : string)
    (detection_summary : summary).

Definition UPLOAD_FOLDER : string := "uploads".
Definition OUTPUT_FOLDER : string := "outputs".

(** [os.path.join(folder, name)] for a relative [name] *)
Definition path_join (folder name : string) : string :=
  (folder ++ "/" ++ name)%string.

Definition detect_person (stamp person_ext video_ext : string)
    (tolerance : Q) (frame_skip : Z) : io (body * Z) :=
  try_except
    (if negb (Qle_bool 0 tolerance && Qle_bool tolerance 1) then
       ret (ErrorBody "Tolerance must be between 0.0 and 1.0", 400)
     else if frame_skip <? 1 then
       ret (ErrorBody "Frame skip must be at least 1", 400)
     else
       let person_filename := ("person_" ++ stamp ++ "." ++ person_ext)%string in
       let video_filename := ("crowd_" ++ stamp ++ "." ++ video_ext)%string in
       let output_filename := ("output_" ++ stamp ++ ".mp4")%string in
       let person_path := path_join UPLOAD_FOLDER person_filename in
       let video_path := path_join UPLOAD_FOLDER video_filename in
       let output_path := path_join OUTPUT_FOLDER output_filename in
       emit (EvSave person_path) ;;
       emit (EvSave video_path) ;;
       let detector := __init__ person_path video_path in
       ' (detector, (success, message)) <- load_person_encoding detector ;;
       if negb success then
         emit (EvRemove person_path) ;;
         emit (EvRemove video_path) ;;
         ret (ErrorBody message, 400)
       else
         r <- detect_person_in_video detector output_path tolerance frame_skip ;;
         match r with
         | inl result =>
             emit (EvRemove person_path) ;;
             emit (EvRemove video_path) ;;
             ret (ErrorBody result, 500)
         | inr result =>
             emit (EvRemove person_path) ;;
             emit (EvRemove video_path) ;;
             ret (SuccessBody "Person detection completed successfully"
                    output_filename
                    (replace output_filename ".mp4" "_detection_frame.jpg")
                    result, 200)
         end)
    (fun e => ret (ErrorBody ("Internal server error: " ++ str e)%string, 500)).

End Detector.

End App.

(* ================================================================== *)
(** ** [src/person_detector.py] *)

Module Cli.

Section Detector.

Context {image : Type} {encoding : Type}.
Variable detect_faces : image -> list (box * encoding).
Variable face_distance : encoding -> encoding -> Q.
Variable W : world image.

#[local] Notation "'io'" := (IO (event image)).

Record PersonDetector : Type := mkPersonDetector {
  person_image_path : string;
  video_path : string;
  person_encoding : option encoding;
  output_dir : string
}.

Definition __init__ (person_image_path video_path : string)
    : io PersonDetector :=
  let output_dir := "detected_frames" in
  (if negb (dir_exists W output_dir) then emit (EvMakedirs output_dir)
   else ret tt) ;;
  ret (mkPersonDetector person_image_path video_path None output_dir).

Definition load_person_encoding (self : PersonDetector)
    : io (PersonDetector * bool) :=
  try_except
    (person_image <- App.load_image_file W (person_image_path self) ;;
     match App.face_encodings detect_faces person_image with
     | [] => ret (self, false)
     | first :: _ =>
         ret (mkPersonDetector (person_image_path self) (video_path self)
                (Some first) (output_dir self), true)
     end)
    (fun _ => ret (self, false)).

Section Loop.

Variable the_person : encoding.
Variable the_output_dir : string.
Variable tolerance : Q.
Variable frame_skip : Z.

(** The frame being drawn on, [frame_count], [detected_frames]. *)
Definition face_state : Type := (frame image * Z * Z)%type.

Definition face_body (face : box * encoding) (s : face_state)
    : io face_state :=
  let '(location, face_encoding) := face in
  let '(frame, frame_count, detected_frames) := s in
  let matches :=
    App.compare_faces face_distance [the_person] face_encoding tolerance in
  if hd false matches then
    let frame_filename :=
      ("frame_" ++ format_0d 6 frame_count ++ "_detection_"
         ++ format_0d 3 detected_frames ++ ".jpg")%string in
    let frame_path := App.path_join the_output_dir frame_filename in
    let frame := App.draw frame [Rectangle location; PersonFound location] in
    App.imwrite frame_path frame ;;
    ret (frame, frame_count, detected_frames + 1)
  else ret s.

Fixpoint for_faces (faces : list (box * encoding)) (s : face_state)
    : io face_state :=
  match faces with
  | [] => ret s
  | face :: rest => s' <- face_body face s ;; for_faces rest s'
  end.

Definition loop_body (img : image) (counts : Z * Z) : io (Z * Z) :=
  let '(frame_count, detected_frames) := counts in
  r <- lift (mod_ frame_count frame_skip) ;;
  detected_frames <-
    (if r =? 0 then
       ' (_, _, detected_frames) <-
         for_faces (detect_faces img) (mkFrame img [], frame_count, detected_frames) ;;
       _ <- lift (mod_ frame_count 100) ;;
       ret detected_frames
     else ret detected_frames) ;;
  ret (frame_count + 1, detected_frames).

Fixpoint while_read (frames : list image) (counts : Z * Z) : io (Z * Z) :=
  match frames with
  | [] => ret counts
  | img :: rest => c <- loop_body img counts ;; while_read rest c
  end.

End Loop.

Definition detect_person_in_video (self : PersonDetector)
    (tolerance : Q) (frame_skip : Z) : io unit :=
  match person_encoding self with
  | None => ret tt
  | Some the_person =>
      video <- App.VideoCapture W (video_path self) ;;
      if negb (cap_isOpened video) then ret tt
      else
        _ <- while_read the_person (output_dir self) tolerance frame_skip
               (cap_frames video) (0, 0) ;;
        emit (EvCaptureRelease (video_path self))
  end.

Definition run_detection (self : PersonDetector)
    (tolerance : Q) (frame_skip : Z) : io PersonDetector :=
  ' (self, loaded) <- load_person_encoding self ;;
  if negb loaded then ret self
  else
    detect_person_in_video self tolerance frame_skip ;;
    ret self.

End Detector.

End Cli.

(* ================================================================== *)
(** ** Vocabulary of the properties *)

Section Vocabulary.

Context {image : Type} {encoding : Type}.
Variable detect_faces : image -> list (box * encoding).
Variable face_distance : encoding -> encoding -> Q.

(** [index / fps], the timestamp of the frame of that index. *)
Definition timestamp_of (fps index : Z) : Q :=
  (inject_Z index / inject_Z fps)%Q.

Definition within_tolerance (the_person : encoding) (tolerance : Q)
    (face : box * encoding) : bool :=
  Qle_bool (face_distance the_person (snd face)) tolerance.

(** The faces of a frame that match, in the order of detection. *)
Definition matching (the_person : encoding) (tolerance : Q) (img : image)
    : list (box * encoding) :=
  filter (within_tolerance the_person tolerance) (detect_faces img).

(** What is drawn for a matched face. *)
Definition marks (timestamp : Q) (face : box * encoding) : list annotation :=
  [Rectangle (fst face); PersonFound (fst face); TimeText (fst face) timestamp].

(** The raw frames with their 0-based index, counting from [start]. *)
Fixpoint enumerate_from {A : Type} (start : Z) (l : list A) : list (Z * A) :=
  match l with
  | [] => []
  | x :: rest => (start, x) :: enumerate_from (start + 1) rest
  end.

(** The frames whose index is a multiple of [frame_skip]. *)
Definition sampled {A : Type} (frame_skip start : Z) (l : list A)
    : list (Z * A) :=
  filter (fun p => fst p mod frame_skip =? 0) (enumerate_from start l).

(** The timestamps that the indexed frame [p] adds: one for each face
    of it that matches. *)
Definition frame_stamps (the_person : encoding) (tolerance : Q) (fps : Z)
    (p : Z * image) : list Q :=
  repeat (timestamp_of fps (fst p))
    (List.length (matching the_person tolerance (snd p))).

(** The first indexed frame with a matching face, and that face. *)
Fixpoint first_match (the_person : encoding) (tolerance : Q)
    (l : list (Z * image)) : option (Z * image * (box * encoding)) :=
  match l with
  | [] => None
  | (i, img) :: rest =>
      match matching the_person tolerance img with
      | face :: _ => Some (i, img, face)
      | [] => first_match the_person tolerance rest
      end
  end.

(** The indexed frames that come before the first one with a match. *)
Fixpoint before_first_match (the_person : encoding) (tolerance : Q)
    (l : list (Z * image)) : list (Z * image) :=
  match l with
  | [] => []
  | p :: rest =>
      match matching the_person tolerance (snd p) with
      | [] => p :: before_first_match the_person tolerance rest
      | _ :: _ => []
      end
  end.

(** The frames passed to [out.write], in order. *)
Fixpoint writes (tr : list (event image)) : list (writer * frame image) :=
  match tr with
  | [] => []
  | EvWrite out f :: rest => (out, f) :: writes rest
  | _ :: rest => writes rest
  end.

(** The frames that reach the output video: a writer that is not opened
    drops what it is given. *)
Definition output_video (tr : list (event image)) : list (frame image) :=
  map snd (filter (fun p => isOpened (fst p)) (writes tr)).

(** The calls of [cv2.imwrite], in order. *)
Fixpoint imwrites (tr : list (event image)) : list (string * frame image) :=
  match tr with
  | [] => []
  | EvImwrite path f :: rest => (path, f) :: imwrites rest
  | _ :: rest => imwrites rest
  end.

(** Events of the scan proper: a capture or a writer is opened, a frame
    or an image is written. *)
Definition is_scan_event (e : event image) : bool :=
  match e with
  | EvCaptureOpen _ | EvWriterInit _ _ _ _ | EvWrite _ _ | EvImwrite _ _ => true
  | _ => false
  end.

(** [ceil(n / k)] for [k > 0] *)
Definition ceil_div (n k : Z) : Z := (n + k - 1) / k.

(** A list of floats in non-decreasing order. *)
Inductive nondecreasing : list Q -> Prop :=
| nondecreasing_nil : nondecreasing []
| nondecreasing_one : forall x, nondecreasing [x]
| nondecreasing_cons : forall x y l,
    (x <= y)%Q -> nondecreasing (y :: l) -> nondecreasing (x :: y :: l).

(** A step of the scan, on states of which [path_of] gives the snapshot
    path, keeps the snapshot single: from a state with a path it writes
    no image and keeps the path; from a state without one it writes at
    most one image, and none if it ends without a path. It only adds
    events, also when it raises. *)
Definition keeps_one_snapshot {S : Type} (path_of : S -> option string)
    (step : S -> IO (event image) S) : Prop :=
  forall s tr r tr',
    step s tr = (r, tr') ->
    exists evs,
      tr' = tr ++ evs
      /\ match path_of s with
         | Some p =>
             imwrites evs = []
             /\ (forall s', r = Ok s' -> path_of s' = Some p)
         | None =>
             (List.length (imwrites evs) <= 1)%nat
             /\ (forall s', r = Ok s' -> path_of s' = None -> imwrites evs = [])
         end.

(** The invariant of the two detection fields. *)
Definition counted (l : App.locals) : Prop :=
  App.detected_frames l = Z.of_nat (List.length (App.detection_timestamps l)).

(** *** The loop in closed form *)

Section ClosedForm.

Variable the_person : encoding.
Variable output_video_path : string.
Variable tolerance : Q.
Variable frame_skip : Z.
Variable fps : Z.
Variable out : writer.

Definition snapshot_path : string :=
  replace output_video_path ".mp4" "_detection_frame.jpg".

(** The locals after the faces [m] of the frame of index
    [frame_count l] have all matched. *)
Definition after_matches (m : list (box * encoding)) (l : App.locals)
    : App.locals :=
  let t := timestamp_of fps (App.frame_count l) in
  App.mkLocals (App.frame_count l)
    (App.detected_frames l + Z.of_nat (List.length m))
    (App.detection_timestamps l ++ repeat t (List.length m))
    (match App.detection_frame_path l, m with
     | None, _ :: _ => Some snapshot_path
     | p, _ => p
     end).

(** The snapshot these matches cause. *)
Definition snapshot_of (m : list (box * encoding)) (f : frame image)
    (l : App.locals) : list (event image) :=
  match App.detection_frame_path l, m with
  | None, face :: _ =>
      [EvImwrite snapshot_path
         (App.draw f (marks (timestamp_of fps (App.frame_count l)) face))]
  | _, _ => []
  end.

Definition next_frame (l : App.locals) : App.locals :=
  App.mkLocals (App.frame_count l + 1) (App.detected_frames l)
    (App.detection_timestamps l) (App.detection_frame_path l).

(** The frame as it is written for the raw frame [img] of index [i]. *)
Definition annotated (i : Z) (img : image) : frame image :=
  mkFrame img
    (flat_map (marks (timestamp_of fps i)) (matching the_person tolerance img)).

Definition body_locals (img : image) (l : App.locals) : App.locals :=
  if App.frame_count l mod frame_skip =? 0
  then next_frame (after_matches (matching the_person tolerance img) l)
  else next_frame l.

Definition body_events (img : image) (l : App.locals) : list (event image) :=
  if App.frame_count l mod frame_skip =? 0
  then snapshot_of (matching the_person tolerance img) (mkFrame img []) l
         ++ [EvWrite out (annotated (App.frame_count l) img)]
  else [].

Fixpoint scan_locals (frames : list image) (l : App.locals) : App.locals :=
  match frames with
  | [] => l
  | img :: rest => scan_locals rest (body_locals img l)
  end.

Fixpoint scan_events (frames : list image) (l : App.locals)
    : list (event image) :=
  match frames with
  | [] => []
  | img :: rest => body_events img l ++ scan_events rest (body_locals img l)
  end.

End ClosedForm.

End Vocabulary.

(** The writer that [open_writer] ends with, when it does not raise. *)
Definition fallback_writer {image} (W : world image) (path : string) : writer :=
  match codec_init W path avc1 with
  | InitOpened => mkWriter path avc1 true
  | _ =>
      match codec_init W path mp4v with
      | InitOpened => mkWriter path mp4v true
      | _ => mkWriter path mp4v false
      end
  end.

(** [open_writer] raises only when the fallback constructor does. *)
Definition writer_returned {image} (W : world image) (path : string) : bool :=
  match codec_init W path avc1, codec_init W path mp4v with
  | InitOpened, _ => true
  | _, InitRaises => false
  | _, _ => true
  end.

(** The constructor calls of [open_writer]. *)
Definition writer_events {image} (W : world image) (path : string)
    (fps : Z) (frameSize : Z * Z) : list (event image) :=
  match codec_init W path avc1 with
  | InitOpened => [EvWriterInit path avc1 fps frameSize]
  | _ => [EvWriterInit path avc1 fps frameSize;
          EvWriterInit path mp4v fps frameSize]
  end.

(** The locals before the first frame is read (lines 103-106). *)
Definition start : App.locals := App.mkLocals 0 0 [] None.

(** The dict built from the locals at the [return] (lines 172-178). *)
Definition summary_of (l : App.locals) (output_video_path : string)
    : App.summary :=
  App.mkSummary (App.frame_count l) (App.detected_frames l)
    (App.detection_timestamps l) output_video_path
    (App.detection_frame_path l).

(** What the scan needs of the detector, the video, the stride and the
    writer: the encoding is loaded, the video opens and reports a rate of
    at least 1 and a frame count whose integer part is not 0 (the code
    divides by the integer part of both), the stride is at least 1 and the
    fallback constructor does not raise. *)
Definition scannable {image encoding} (W : world image)
    (self : @App.PersonDetector encoding) (output_video_path : string)
    (frame_skip : Z) : bool :=
  let video := video_files W (App.video_path self) in
  match App.person_encoding self with Some _ => true | None => false end
  && cap_isOpened video
  && (0 <? int (cap_fps video))
  && negb (int (cap_frame_count video) =? 0)
  && (1 <=? frame_skip)
  && writer_returned W output_video_path.

(** The conditions under which [detect_person_in_video] reaches its last
    [return]: those of [scannable], and OpenCV can encode an image at the
    path of the snapshot. *)
Definition ready {image encoding} (W : world image)
    (self : @App.PersonDetector encoding) (output_video_path : string)
    (frame_skip : Z) : bool :=
  scannable W self output_video_path frame_skip
  && Cv.has_encoder (snapshot_path output_video_path).

(* ================================================================== *)
(** ** A concrete machine

    Images are the list of faces seen in them, an encoding is one number,
    the distance of two encodings is the absolute value of their
    difference. *)

Module Demo.

Definition image : Type := list (box * Q).
Definition detect_faces (img : image) : list (box * Q) := img.
Definition face_distance (a b : Q) : Q := Qabs (a - b).

Definition face_at (left : Z) (enc : Q) : box * Q := ((10, left + 20, 30, left), enc).

Definition subject : Q := 1 # 2.
Definition empty_frame : image := [].
Definition subject_frame : image := [face_at 0 (2 # 5); face_at 100 (3 # 1)].
Definition twins_frame : image := [face_at 0 (2 # 5); face_at 100 (3 # 5)].

(** [crowd.mp4]: 12 frames at 4 fps, the subject is in frames 4 to 7. *)
Definition crowd : capture image :=
  mkCapture true 4 640 480 12%Q
    (repeat empty_frame 4 ++ repeat subject_frame 4 ++ repeat empty_frame 4).

(** [twins.mp4]: one frame, with two faces that both match. *)
Definition twins : capture image :=
  mkCapture true 30 640 480 1%Q [twins_frame].

(** [ntsc.mp4]: two frames at 29.97 fps, the subject is in the second. *)
Definition ntsc : capture image :=
  mkCapture true (2997 # 100) 640 480 2%Q [empty_frame; subject_frame].

Definition closed : capture image := mkCapture false 0 0 0 0%Q [].

Definition files (codecs : string -> codec -> init_status) : world image :=
  mkWorld
    (fun path =>
       if String.eqb path "person.png" then inl [face_at 5 subject]
       else if String.eqb path "wall.png" then inl []
       else if String.eqb path "uploads/person_wall.png" then inl []
       else inr "No such file")
    (fun path =>
       if String.eqb path "crowd.mp4" then crowd
       else if String.eqb path "twins.mp4" then twins
       else if String.eqb path "ntsc.mp4" then ntsc
       else closed)
    codecs
    (fun _ => false).

(** A machine with H.264, and one where no codec opens. *)
Definition W : world image := files (fun _ _ => InitOpened).
Definition W_no_codec : world image := files (fun _ _ => InitClosed).

(** The same capability, written another way. *)
Definition detect_faces_again (img : image) : list (box * Q) :=
  match img with
  | [] => []
  | face :: rest => face :: rest
  end.

Definition detector (video : string) : App.PersonDetector :=
  App.mkPersonDetector "person.png" video (Some subject).

Definition detect (W : world image) (video out : string) (frame_skip : Z) :=
  App.detect_person_in_video detect_faces face_distance W
    (detector video) out (6 # 10) frame_skip [].

End Demo.


(* ================================================================== *)
(** ** The rest of [src/app.py]: file names and the whole route *)

Module Text.

(** [c.lower()] for one ASCII character. *)
Definition lower_char (c : ascii) : ascii :=
  let n := nat_of_ascii c in
  if ((65 <=? n) && (n <=? 90))%nat then ascii_of_nat (n + 32) else c.

(** [s.lower()] on a [str] of ASCII characters. Python also lowers
    letters outside ASCII, which this function leaves as they are: what
    is stated of [lower] is stated for file names with [isascii]. *)
Fixpoint lower (s : string) : string :=
  match s with
  | EmptyString => EmptyString
  | String c rest => String (lower_char c) (lower rest)
  end.

(** [s.isascii()] *)
Fixpoint isascii (s : string) : bool :=
  match s with
  | EmptyString => true
  | String c rest => (nat_of_ascii c <? 128)%nat && isascii rest
  end.

(** The split of [s] at its last [sep], if it has one. *)
Fixpoint split_last (sep : ascii) (s : string) : option (string * string) :=
  match s with
  | EmptyString => None
  | String c rest =>
      match split_last sep rest with
      | Some (before, after) => Some (String c before, after)
      | None => if Ascii.eqb c sep then Some (EmptyString, rest) else None
      end
  end.

(** [s.rsplit(sep, 1)] for a separator of one character. *)
Definition rsplit1 (s : string) (sep : ascii) : list string :=
  match split_last sep s with
  | Some (before, after) => [before; after]
  | None => [s]
  end.

(** [x in a_set_of_strings] *)
Definition str_in (x : string) (set : list string) : bool :=
  existsb (String.eqb x) set.

(** [d.get(key)] on the pairs of a dict, [None] when the key is absent. *)
Fixpoint get (d : list (string * string)) (key : string) : option string :=
  match d with
  | [] => None
  | (k, v) :: rest => if String.eqb k key then Some v else get rest key
  end.

(** A Python [float]. *)
Inductive pyfloat : Type :=
| Finite (q : Q)
| PosInf
| NegInf
| NaN.

End Text.
Import Text.

Module Web.

Definition ALLOWED_EXTENSIONS_IMAGE : list string :=
  ["png"; "jpg"; "jpeg"; "gif"; "bmp"].
Definition ALLOWED_EXTENSIONS_VIDEO : list string :=
  ["mp4"; "avi"; "mov"; "mkv"; "wmv"].

(** ['.' in filename and
     filename.rsplit('.', 1)[1].lower() in allowed_extensions] *)
Definition allowed_file (filename : string) (allowed_extensions : list string)
    : bool :=
  contains "." filename
  && str_in (lower (nth 1 (rsplit1 filename ".") "")) allowed_extensions.

(** [filename.rsplit('.', 1)[1].lower()], as lines 226-227 take it. *)
Definition extension (filename : string) : string :=
  lower (nth 1 (rsplit1 filename ".") "").

(** What the route reads of a request: the file name of each uploaded
    file by field name, and the form fields. *)
Record request : Type := mkRequest {
  files : list (string * string);
  form : list (string * string)
}.

Section Route.

Context {image : Type} {encoding : Type}.
Variable detect_faces : image -> list (box * encoding).
Variable face_distance : encoding -> encoding -> Q.
Variable W : world image.

(** [float(s)] and [int(s)] on a form field: the value, or the
    [ValueError] they raise. *)
Variable float_of_str : string -> result pyfloat.
Variable int_of_str : string -> result Z.

#[local] Notation "'io'" := (IO (event image)).

(** [detect_person], lines 186-275. Lines 211-275 are [App.detect_person],
    which starts at the checks of the two parameters; a tolerance that is
    not a finite number fails the check of line 216. [stamp] is the
    generated ["{timestamp}_{unique_id}"]. *)
Definition detect_person (req : request) (stamp : string) : io (App.body * Z) :=
  try_except
    (match get (files req) "person_image", get (files req) "crowd_video" with
     | Some person_filename, Some video_filename =>
         if negb (allowed_file person_filename ALLOWED_EXTENSIONS_IMAGE) then
           ret (App.ErrorBody "Invalid person image format. Allowed: png, jpg, jpeg, gif, bmp", 400)
         else if negb (allowed_file video_filename ALLOWED_EXTENSIONS_VIDEO) then
           ret (App.ErrorBody "Invalid video format. Allowed: mp4, avi, mov, mkv, wmv", 400)
         else
           tolerance <- lift (match get (form req) "tolerance" with
                              | Some text => float_of_str text
                              | None => Ok (Finite (6 # 10))
                              end) ;;
           frame_skip <- lift (match get (form req) "frame_skip" with
                               | Some text => int_of_str text
                               | None => Ok 5
                               end) ;;
           match tolerance with
           | Finite tolerance =>
               App.detect_person detect_faces face_distance W stamp
                 (extension person_filename) (extension video_filename)
                 tolerance frame_skip
           | _ => ret (App.ErrorBody "Tolerance must be between 0.0 and 1.0", 400)
           end
     | _, _ =>
         ret (App.ErrorBody "Both person_image and crowd_video files are required", 400)
     end)
    (fun e => ret (App.ErrorBody ("Internal server error: " ++ str e)%string, 500)).

End Route.

End Web.

(* ================================================================== *)
(** ** The rest of [src/person_detector.py]: [main] *)

Module Tool.

(** The parsed command line, with the defaults of the parser. *)
Record args : Type := mkArgs {
  person : string;
  video : string;
  tolerance : Q;
  frame_skip : Z
}.

Definition defaults : args := mkArgs "person3.png" "crowd1.mp4" (4 # 10) 20.

Section Main.

Context {image : Type} {encoding : Type}.
Variable detect_faces : image -> list (box * encoding).
Variable face_distance : encoding -> encoding -> Q.
Variable W : world image.

(** [os.path.exists] *)
Variable exists_ : string -> bool.

(** [main], lines 143-156, after [parse_args]. *)
Definition main (a : args) : IO (event image) unit :=
  if negb (exists_ (person a)) then ret tt
  else if negb (exists_ (video a)) then ret tt
  else
    detector <- Cli.__init__ W (person a) (video a) ;;
    _ <- Cli.run_detection detect_faces face_distance W detector
           (tolerance a) (frame_skip a) ;;
    ret tt.

End Main.

End Tool.

(* ================================================================== *)
(** ** More vocabulary *)

Section Shapes.

Context {image : Type}.

(** The action [m] only adds events, all of them in the class [P], however
    it ends. *)
Definition emits_only {A : Type} (P : event image -> bool)
    (m : IO (event image) A) : Prop :=
  forall tr r tr',
    m tr = (r, tr') ->
    exists evs, tr' = tr ++ evs /\ forallb P evs = true.

(** Two actions end the same way and add the same events, whatever the
    trace each of them starts from. *)
Definition same_outcome {A : Type} (m1 m2 : IO (event image) A) : Prop :=
  forall tr1 tr2,
    exists r evs, m1 tr1 = (r, tr1 ++ evs) /\ m2 tr2 = (r, tr2 ++ evs).

Definition is_writer_init (e : event image) : bool :=
  match e with EvWriterInit _ _ _ _ => true | _ => false end.

(** [out.write] or [cv2.imwrite] *)
Definition is_frame_output (e : event image) : bool :=
  match e with EvWrite _ _ | EvImwrite _ _ => true | _ => false end.

Definition is_release (e : event image) : bool :=
  match e with EvCaptureRelease _ | EvWriterRelease _ => true | _ => false end.

Definition is_remove (e : event image) : bool :=
  match e with EvRemove _ => true | _ => false end.

Definition is_save (e : event image) : bool :=
  match e with EvSave _ => true | _ => false end.

(** The paths given to [FileStorage.save], in order. *)
Fixpoint saves (tr : list (event image)) : list string :=
  match tr with
  | [] => []
  | EvSave path :: rest => path :: saves rest
  | _ :: rest => saves rest
  end.

(** Whether a capture was opened. *)
Definition opens_capture (tr : list (event image)) : bool :=
  existsb (fun e => match e with EvCaptureOpen _ => true | _ => false end) tr.

End Shapes.

(** What the detection fields of the locals always satisfy, for the
    snapshot path [snapshot]. *)
Definition detection_fields_agree (snapshot : string) (l : App.locals) : Prop :=
  App.detected_frames l = Z.of_nat (List.length (App.detection_timestamps l))
  /\ (App.detection_frame_path l = None <-> App.detected_frames l = 0)
  /\ (App.detection_frame_path l = None
      \/ App.detection_frame_path l = Some snapshot).

(** Decimal digits. *)
Definition is_digit (c : ascii) : bool :=
  ((48 <=? nat_of_ascii c) && (nat_of_ascii c <=? 57))%nat.

Fixpoint all_digits (s : string) : bool :=
  match s with
  | EmptyString => true
  | String c rest => is_digit c && all_digits rest
  end.

(** The number a string of decimal digits writes. *)
Definition number_of (s : string) : option Z :=
  match NilEmpty.uint_of_string s with
  | Some d => Some (Z.of_N (N.of_uint d))
  | None => None
  end.

(** The path of the image the command line tool saves for the detection
    [detected_frames] in the frame [frame_count] (lines 95-96). *)
Definition saved_frame_path (output_dir : string) (frame_count detected_frames : Z)
    : string :=
  App.path_join output_dir
    ("frame_" ++ format_0d 6 frame_count ++ "_detection_"
       ++ format_0d 3 detected_frames ++ ".jpg")%string.

(** The paths of the detections numbered from [first] on, one for each
    frame index of [frame_counts]. *)
Fixpoint numbered_paths (output_dir : string) (first : Z)
    (frame_counts : list Z) : list string :=
  match frame_counts with
  | [] => []
  | frame_count :: rest =>
      saved_frame_path output_dir frame_count first
        :: numbered_paths output_dir (first + 1) rest
  end.

(** More machines. *)
Module Lab.

(** [slow.mp4]: one frame with the subject, at half a frame per second. *)
Definition slow : capture Demo.image :=
  mkCapture true (1 # 2) 640 480 1%Q [Demo.subject_frame].

(** [stream.mp4]: two frames, the container reports no frame count. *)
Definition stream : capture Demo.image :=
  mkCapture true 25 640 480 0%Q [Demo.empty_frame; Demo.subject_frame].

Definition W : world Demo.image :=
  mkWorld
    (fun path =>
       if String.eqb path "uploads/person_s1.png" then inl [Demo.face_at 5 Demo.subject]
       else if String.eqb path "uploads/person_s2.png" then inl [Demo.face_at 5 Demo.subject]
       else if String.eqb path "person3.png" then inl [Demo.face_at 5 Demo.subject]
       else inr "No such file")
    (fun path =>
       if String.eqb path "uploads/crowd_s1.mp4" then Demo.crowd
       else if String.eqb path "uploads/crowd_s2.mp4" then slow
       else if String.eqb path "crowd1.mp4" then Demo.twins
       else if String.eqb path "slow.mp4" then slow
       else if String.eqb path "stream.mp4" then stream
       else Demo.closed)
    (fun _ _ => InitOpened)
    (fun _ => false).

Definition float_of_str (text : string) : result pyfloat :=
  if String.eqb text "0.5" then Ok (Finite (1 # 2))
  else if String.eqb text "nan" then Ok NaN
  else Raise (Error "could not convert string to float").

Definition int_of_str (text : string) : result Z :=
  if String.eqb text "2" then Ok 2
  else if String.eqb text "0" then Ok 0
  else Raise (Error "invalid literal for int() with base 10").

Definition upload : Web.request :=
  Web.mkRequest [("person_image", "Me.PNG"); ("crowd_video", "park.tar.mp4")]
    [("tolerance", "0.5"); ("frame_skip", "2")].

Definition exists_ (path : string) : bool :=
  String.eqb path "person3.png" || String.eqb path "crowd1.mp4".

End Lab.

(* ================================================================== *)
(** ** The code in closed form *)

Section ClosedFormProofs.

Context {image : Type} {encoding : Type}.
Variable detect_faces : image -> list (box * encoding).
Variable face_distance : encoding -> encoding -> Q.
Variable W : world image.

Variable the_person : encoding.
Variable output_video_path : string.
Variable tolerance : Q.
Variable frame_skip : Z.
Variable fps : Z.
Variable total_frames : Z.
Variable out : writer.

#[local] Notation "'face_body'" :=
  (App.face_body face_distance the_person output_video_path tolerance fps).
#[local] Notation "'for_faces'" :=
  (App.for_faces face_distance the_person output_video_path tolerance fps).
#[local] Notation "'loop_body'" :=
  (App.loop_body detect_faces face_distance the_person output_video_path
     tolerance frame_skip fps total_frames out).
#[local] Notation "'while_read'" :=
  (App.while_read detect_faces face_distance the_person output_video_path
     tolerance frame_skip fps total_frames out).
#[local] Notation "'matches'" :=
  (within_tolerance face_distance the_person tolerance).
#[local] Notation "'after'" := (@after_matches encoding output_video_path fps).
#[local] Notation "'snapshot'" := (snapshot_of output_video_path fps).

Lemma truediv_nonzero (a b : Z) :
  b <> 0 -> truediv a b = Ok (timestamp_of b a).
Proof.
  intros Hb. unfold truediv.
  destruct (Z.eqb_spec b 0) as [E | _]; [contradiction | reflexivity].
Qed.

Lemma mod_nonzero (a b : Z) : b <> 0 -> mod_ a b = Ok (a mod b).
Proof.
  intros Hb. unfold mod_.
  destruct (Z.eqb_spec b 0) as [E | _]; [contradiction | reflexivity].
Qed.

Lemma draw_draw (f : frame image) (a b : list annotation) :
  App.draw (App.draw f a) b = App.draw f (a ++ b).
Proof. unfold App.draw. simpl. now rewrite app_assoc. Qed.

Lemma draw_nil (f : frame image) : App.draw f [] = f.
Proof. destruct f. unfold App.draw. simpl. now rewrite app_nil_r. Qed.

Lemma after_nil (l : App.locals) : after [] l = l.
Proof.
  destruct l as [fc df ts p]. unfold after_matches. simpl.
  rewrite Z.add_0_r, app_nil_r. now destruct p.
Qed.

Lemma after_cons (face : box * encoding) (m : list (box * encoding))
    (l : App.locals) :
  after m (after [face] l) = after (face :: m) l.
Proof.
  destruct l as [fc df ts p]. unfold after_matches. simpl.
  f_equal.
  - lia.
  - now rewrite <- app_assoc.
  - destruct p; now destruct m.
Qed.

Lemma snapshot_cons (face : box * encoding) (m : list (box * encoding))
    (f : frame image) (l : App.locals) :
  snapshot [face] f l
    ++ snapshot m (App.draw f (marks (timestamp_of fps (App.frame_count l)) face))
         (after [face] l)
  = snapshot (face :: m) f l.
Proof.
  destruct l as [fc df ts p]. unfold snapshot_of, after_matches. simpl.
  destruct p; simpl; now destruct m.
Qed.

(** The body of the loop over the faces, case by case. *)
Lemma face_body_cases (face : box * encoding) (f : frame image)
    (found : bool) (l : App.locals) (tr : list (event image)) :
  face_body face (f, found, l) tr
  = if matches face then
      if fps =? 0 then (Raise (ZeroDivisionError "division by zero"), tr)
      else
        match App.detection_frame_path l with
        | None =>
            if Cv.has_encoder (snapshot_path output_video_path) then
              (Ok (App.draw f (marks (timestamp_of fps (App.frame_count l)) face),
                   true, after [face] l),
               tr ++ snapshot [face] f l)
            else
              (Raise (Error "could not find a writer for the specified extension"),
               tr)
        | Some _ =>
            (Ok (App.draw f (marks (timestamp_of fps (App.frame_count l)) face),
                 true, after [face] l),
             tr ++ snapshot [face] f l)
        end
    else (Ok (f, found, l), tr).
Proof.
  destruct face as [location enc].
  unfold within_tolerance, App.face_body, App.compare_faces.
  cbn [map hd snd].
  destruct (Qle_bool (face_distance the_person enc) tolerance); [| reflexivity].
  unfold bind at 1. unfold lift, truediv.
  destruct (fps =? 0); [reflexivity |].
  rewrite draw_draw.
  destruct l as [fc df ts p]. unfold snapshot_of, after_matches, snapshot_path.
  cbn [App.detection_frame_path App.frame_count App.detected_frames
       App.detection_timestamps List.length repeat].
  destruct p as [p |].
  - unfold ret. now rewrite app_nil_r.
  - unfold App.imwrite, bind.
    destruct (Cv.has_encoder _); reflexivity.
Qed.

Lemma face_body_match (face : box * encoding) (f : frame image)
    (found : bool) (l : App.locals) (tr : list (event image)) :
  fps <> 0 -> Cv.has_encoder (snapshot_path output_video_path) = true ->
  matches face = true ->
  face_body face (f, found, l) tr
  = (Ok (App.draw f (marks (timestamp_of fps (App.frame_count l)) face),
         true, after [face] l),
     tr ++ snapshot [face] f l).
Proof.
  intros Hfps Henc Hm. rewrite face_body_cases, Hm, Henc.
  destruct (Z.eqb_spec fps 0) as [E | _]; [contradiction |].
  now destruct (App.detection_frame_path l).
Qed.

Lemma face_body_no_match (face : box * encoding) (s : App.face_state)
    (tr : list (event image)) :
  matches face = false -> face_body face s tr = (Ok s, tr).
Proof.
  intros Hm. destruct s as [[f found] l].
  now rewrite face_body_cases, Hm.
Qed.

(** A face step that returns has done what the closed form says. *)
Lemma face_body_returns (face : box * encoding) (f : frame image)
    (found : bool) (l : App.locals) (tr : list (event image))
    (s' : App.face_state) (tr' : list (event image)) :
  face_body face (f, found, l) tr = (Ok s', tr') ->
  matches face = true ->
  s' = (App.draw f (marks (timestamp_of fps (App.frame_count l)) face),
        true, after [face] l)
  /\ tr' = tr ++ snapshot [face] f l.
Proof.
  rewrite face_body_cases. intros E Hm. rewrite Hm in E.
  destruct (fps =? 0); [discriminate |].
  destruct (App.detection_frame_path l);
    [| destruct (Cv.has_encoder _); [| discriminate]];
    injection E as <- <-; auto.
Qed.

Lemma for_faces_step (face : box * encoding) (rest : list (box * encoding))
    (f : frame image) (found : bool) (l : App.locals) :
  matches face = true ->
  (App.draw
     (App.draw f (marks (timestamp_of fps (App.frame_count l)) face))
     (flat_map (marks (timestamp_of fps (App.frame_count (after [face] l))))
        (filter matches rest)),
   true || existsb matches rest,
   after (filter matches rest) (after [face] l))
  = (App.draw f (flat_map (marks (timestamp_of fps (App.frame_count l)))
                   (filter matches (face :: rest))),
     found || existsb matches (face :: rest),
     after (filter matches (face :: rest)) l)
  /\ snapshot [face] f l
       ++ snapshot (filter matches rest)
            (App.draw f (marks (timestamp_of fps (App.frame_count l)) face))
            (after [face] l)
     = snapshot (filter matches (face :: rest)) f l.
Proof.
  intros Hm. cbn [filter existsb]. rewrite Hm.
  rewrite draw_draw, after_cons, snapshot_cons, orb_true_r.
  replace (App.frame_count (after [face] l)) with (App.frame_count l)
    by now destruct l.
  split; reflexivity.
Qed.

(** Faces that do not match leave the state and the trace as they were. *)
Lemma for_faces_unmatched (faces : list (box * encoding)) :
  filter matches faces = [] ->
  forall (s : App.face_state) (tr : list (event image)),
    for_faces faces s tr = (Ok s, tr).
Proof.
  induction faces as [| face rest IH]; intros Hnone s tr; [reflexivity |].
  simpl in Hnone. destruct (matches face) eqn:Hm; [discriminate |].
  cbn [App.for_faces]. unfold bind. rewrite face_body_no_match by exact Hm.
  now apply IH.
Qed.

Lemma for_faces_closed (Hfps : fps <> 0)
    (Henc : Cv.has_encoder (snapshot_path output_video_path) = true)
    (faces : list (box * encoding)) :
  forall (f : frame image) (found : bool) (l : App.locals)
         (tr : list (event image)),
    for_faces faces (f, found, l) tr
    = (Ok (App.draw f (flat_map (marks (timestamp_of fps (App.frame_count l)))
                         (filter matches faces)),
           found || existsb matches faces,
           after (filter matches faces) l),
       tr ++ snapshot (filter matches faces) f l).
Proof.
  induction faces as [| face rest IH]; intros f found l tr.
  - simpl. rewrite draw_nil, after_nil, orb_false_r. unfold ret, snapshot_of.
    destruct (App.detection_frame_path l); simpl; now rewrite app_nil_r.
  - cbn [App.for_faces]. unfold bind. destruct (matches face) eqn:Hm.
    + rewrite (face_body_match _ _ _ _ _ Hfps Henc Hm). rewrite IH.
      destruct (for_faces_step face rest f found l Hm) as [-> <-].
      now rewrite <- app_assoc.
    + rewrite (face_body_no_match _ _ _ Hm). rewrite IH.
      cbn [filter existsb]. rewrite Hm. reflexivity.
Qed.

Lemma for_faces_returns (faces : list (box * encoding)) :
  forall (f : frame image) (found : bool) (l : App.locals)
         (tr : list (event image)) (s' : App.face_state)
         (tr' : list (event image)),
    for_faces faces (f, found, l) tr = (Ok s', tr') ->
    s' = (App.draw f (flat_map (marks (timestamp_of fps (App.frame_count l)))
                        (filter matches faces)),
          found || existsb matches faces,
          after (filter matches faces) l)
    /\ tr' = tr ++ snapshot (filter matches faces) f l.
Proof.
  induction faces as [| face rest IH]; intros f found l tr s' tr'.
  - simpl. unfold ret. intros E. injection E as <- <-.
    rewrite draw_nil, after_nil, orb_false_r. unfold snapshot_of.
    destruct (App.detection_frame_path l); simpl; now rewrite app_nil_r.
  - cbn [App.for_faces]. unfold bind. destruct (matches face) eqn:Hm.
    + destruct (face_body face (f, found, l) tr) as [[s1 | e] tr1] eqn:E1;
        [| discriminate].
      destruct (face_body_returns _ _ _ _ _ _ _ E1 Hm) as [-> ->].
      intros E. destruct (IH _ _ _ _ _ _ E) as [-> ->].
      destruct (for_faces_step face rest f found l Hm) as [-> <-].
      now rewrite <- app_assoc.
    + rewrite (face_body_no_match _ _ _ Hm). intros E.
      destruct (IH _ _ _ _ _ _ E) as [-> ->].
      cbn [filter existsb]. rewrite Hm. auto.
Qed.

Lemma loop_body_closed (img : image) (l : App.locals)
    (tr : list (event image)) :
  frame_skip <> 0 -> fps <> 0 -> total_frames <> 0 ->
  Cv.has_encoder (snapshot_path output_video_path) = true ->
  loop_body img l tr
  = (Ok (body_locals detect_faces face_distance the_person output_video_path
           tolerance frame_skip fps img l),
     tr ++ body_events detect_faces face_distance the_person output_video_path
             tolerance frame_skip fps out img l).
Proof.
  intros Hk Hfps Htot Henc.
  unfold App.loop_body, body_locals, body_events, bind, lift.
  rewrite (mod_nonzero _ _ Hk).
  destruct (App.frame_count l mod frame_skip =? 0).
  - rewrite (for_faces_closed Hfps Henc). unfold emit.
    replace (App.frame_count (after _ l)) with (App.frame_count l)
      by now destruct l.
    rewrite mod_nonzero by discriminate.
    unfold annotated, matching, App.draw. simpl.
    destruct (App.frame_count l mod 100 =? 0).
    + rewrite (truediv_nonzero _ _ Htot). unfold ret.
      now rewrite <- app_assoc.
    + unfold ret. now rewrite <- app_assoc.
  - unfold ret. now rewrite app_nil_r.
Qed.

(** A frame step that returns has done what the closed form says. *)
Lemma loop_body_returns (img : image) (l l' : App.locals)
    (tr tr' : list (event image)) :
  loop_body img l tr = (Ok l', tr') ->
  l' = body_locals detect_faces face_distance the_person output_video_path
         tolerance frame_skip fps img l
  /\ tr' = tr ++ body_events detect_faces face_distance the_person
                   output_video_path tolerance frame_skip fps out img l.
Proof.
  unfold App.loop_body, body_locals, body_events, bind, lift, mod_.
  destruct (frame_skip =? 0); [discriminate |].
  destruct (App.frame_count l mod frame_skip =? 0).
  - destruct (for_faces (detect_faces img) (mkFrame img [], false, l) tr)
      as [[s1 | e] tr1] eqn:E1; [| discriminate].
    destruct (for_faces_returns _ _ _ _ _ _ _ E1) as [-> ->].
    unfold emit.
    replace (App.frame_count (after _ l)) with (App.frame_count l)
      by now destruct l.
    cbn [Z.eqb]. unfold annotated, matching, App.draw. cbn [pixels drawn app].
    destruct (App.frame_count l mod 100 =? 0).
    + destruct (truediv (App.frame_count l) total_frames); [| discriminate].
      unfold ret. intros E. injection E as <- <-.
      now rewrite <- app_assoc.
    + unfold ret. intros E. injection E as <- <-. now rewrite <- app_assoc.
  - unfold ret. intros E. injection E as <- <-. now rewrite app_nil_r.
Qed.

Lemma while_read_closed (Hk : frame_skip <> 0) (Hfps : fps <> 0)
    (Htot : total_frames <> 0)
    (Henc : Cv.has_encoder (snapshot_path output_video_path) = true)
    (frames : list image) :
  forall (l : App.locals) (tr : list (event image)),
    while_read frames l tr
    = (Ok (scan_locals detect_faces face_distance the_person
             output_video_path tolerance frame_skip fps frames l),
       tr ++ scan_events detect_faces face_distance the_person
               output_video_path tolerance frame_skip fps out frames l).
Proof.
  induction frames as [| img rest IH]; intros l tr; simpl.
  - unfold ret. now rewrite app_nil_r.
  - unfold bind. rewrite (loop_body_closed _ _ _ Hk Hfps Htot Henc).
    rewrite IH. now rewrite <- app_assoc.
Qed.

(** A scan that returns has done what the closed form says. *)
Lemma while_read_returns (frames : list image) :
  forall (l l' : App.locals) (tr tr' : list (event image)),
    while_read frames l tr = (Ok l', tr') ->
    l' = scan_locals detect_faces face_distance the_person output_video_path
           tolerance frame_skip fps frames l
    /\ tr' = tr ++ scan_events detect_faces face_distance the_person
                     output_video_path tolerance frame_skip fps out frames l.
Proof.
  induction frames as [| img rest IH]; intros l l' tr tr'; simpl.
  - unfold ret. intros E. injection E as <- <-. now rewrite app_nil_r.
  - unfold bind.
    destruct (loop_body img l tr) as [[l1 | e] tr1] eqn:E1; [| discriminate].
    destruct (loop_body_returns _ _ _ _ _ E1) as [-> ->]. intros E.
    destruct (IH _ _ _ _ E) as [-> ->]. now rewrite <- app_assoc.
Qed.

End ClosedFormProofs.

(* ================================================================== *)
(** ** Facts about sampling, counting and the trace *)

Section TraceFacts.

Context {image : Type}.

Lemma writes_app (a b : list (event image)) :
  writes (a ++ b) = writes a ++ writes b.
Proof.
  induction a as [| e a IH]; simpl; [reflexivity |].
  destruct e; simpl; now rewrite IH.
Qed.

Lemma imwrites_app (a b : list (event image)) :
  imwrites (a ++ b) = imwrites a ++ imwrites b.
Proof.
  induction a as [| e a IH]; simpl; [reflexivity |].
  destruct e; simpl; now rewrite IH.
Qed.

Lemma writer_events_writes (W : world image) (path : string) (fps : Z)
    (size : Z * Z) :
  writes (writer_events W path fps size) = []
  /\ imwrites (writer_events W path fps size) = [].
Proof.
  unfold writer_events. now destruct (codec_init W path avc1).
Qed.

End TraceFacts.

Section SamplingFacts.

Lemma sampled_cons {A : Type} (k s : Z) (x : A) (l : list A) :
  sampled k s (x :: l)
  = if s mod k =? 0 then (s, x) :: sampled k (s + 1) l
    else sampled k (s + 1) l.
Proof. reflexivity. Qed.

Lemma ceil_div_succ (k s : Z) :
  0 < k ->
  ceil_div (s + 1) k = ceil_div s k + (if s mod k =? 0 then 1 else 0).
Proof.
  intros Hk. unfold ceil_div.
  pose proof (Z.div_mod s k ltac:(lia)) as Hs.
  pose proof (Z.mod_pos_bound s k Hk) as Hr.
  replace (s + 1 + k - 1) with (s + 1 * k) by lia.
  rewrite Z.div_add by lia.
  destruct (Z.eqb_spec (s mod k) 0) as [E | E].
  - symmetry. rewrite Z.add_comm with (m := 1). rewrite Z.add_comm.
    f_equal. symmetry. apply Z.div_unique with (r := k - 1); lia.
  - rewrite Z.add_0_r.
    apply Z.div_unique with (r := s mod k - 1); lia.
Qed.

Lemma sampled_length {A : Type} (k : Z) (Hk : 0 < k) (l : list A) :
  forall s,
    Z.of_nat (List.length (sampled k s l))
    = ceil_div (s + Z.of_nat (List.length l)) k - ceil_div s k.
Proof.
  induction l as [| x l IH]; intros s.
  - simpl. rewrite Z.add_0_r. lia.
  - rewrite sampled_cons.
    replace (s + Z.of_nat (List.length (x :: l)))
      with (s + 1 + Z.of_nat (List.length l)) by (simpl List.length; lia).
    pose proof (ceil_div_succ k s Hk) as Hc.
    destruct (s mod k =? 0); simpl List.length; rewrite ?Nat2Z.inj_succ, IH; lia.
Qed.

Lemma ceil_div_0 (k : Z) : 0 < k -> ceil_div 0 k = 0.
Proof. intros Hk. unfold ceil_div. apply Z.div_small. lia. Qed.

Lemma sampled_In {A : Type} (k : Z) (l : list A) :
  forall s i x,
    In (i, x) (sampled k s l)
    <-> s <= i /\ i mod k = 0 /\ nth_error l (Z.to_nat (i - s)) = Some x.
Proof.
  induction l as [| y l IH]; intros s i x.
  - simpl. split; [tauto |]. intros (_ & _ & H).
    now destruct (Z.to_nat (i - s)).
  - rewrite sampled_cons.
    assert (Hstep : In (i, x) (sampled k (s + 1) l)
                    <-> s < i /\ i mod k = 0
                        /\ nth_error (y :: l) (Z.to_nat (i - s)) = Some x).
    { rewrite IH. split.
      - intros (H1 & H2 & H3). repeat split; try lia.
        replace (Z.to_nat (i - s)) with (S (Z.to_nat (i - (s + 1)))) by lia.
        exact H3.
      - intros (H1 & H2 & H3). repeat split; try lia.
        replace (Z.to_nat (i - s)) with (S (Z.to_nat (i - (s + 1)))) in H3 by lia.
        exact H3. }
    assert (Hhead : (s, y) = (i, x)
                    <-> s = i /\ nth_error (y :: l) (Z.to_nat (i - s)) = Some x).
    { split.
      - intros E. injection E as -> ->. split; [reflexivity |].
        now rewrite Z.sub_diag.
      - intros (-> & H). rewrite Z.sub_diag in H. simpl in H. congruence. }
    destruct (Z.eqb_spec (s mod k) 0) as [E | E].
    + simpl. rewrite Hstep, Hhead. split.
      * intros [(-> & H) | (H1 & H2 & H3)]; repeat split; auto; lia.
      * intros (H1 & H2 & H3).
        destruct (Z.eq_dec s i) as [-> | Hne]; [left | right]; auto.
        repeat split; auto; lia.
    + rewrite Hstep. split.
      * intros (H1 & H2 & H3). repeat split; auto; lia.
      * intros (H1 & H2 & H3). repeat split; auto.
        destruct (Z.eq_dec s i) as [-> | Hne]; [contradiction | lia].
Qed.

End SamplingFacts.

Section OrderFacts.

Lemma timestamp_of_mono (fps i j : Z) :
  0 < fps -> i <= j -> (timestamp_of fps i <= timestamp_of fps j)%Q.
Proof.
  intros Hfps Hij. unfold timestamp_of, Qdiv.
  apply Qmult_le_compat_r.
  - unfold Qle. simpl. lia.
  - apply Qinv_le_0_compat. unfold Qle. simpl. lia.
Qed.

Lemma nondecreasing_above (x : Q) (l : list Q) :
  Forall (Qle x) l -> nondecreasing l -> nondecreasing (x :: l).
Proof.
  intros Hall Hl. destruct l as [| y l].
  - constructor.
  - constructor; [now inversion Hall | exact Hl].
Qed.

Lemma nondecreasing_repeat_app (x : Q) (n : nat) (l : list Q) :
  Forall (Qle x) l -> nondecreasing l -> nondecreasing (repeat x n ++ l).
Proof.
  intros Hall Hl. induction n as [| n IH]; simpl; [exact Hl |].
  apply nondecreasing_above; [| exact IH].
  apply Forall_app. split; [| exact Hall].
  clear. induction n; simpl; constructor; [apply Qle_refl | assumption].
Qed.

Lemma Forall_Qle_weaken (x y : Q) (l : list Q) :
  (x <= y)%Q -> Forall (Qle y) l -> Forall (Qle x) l.
Proof.
  intros Hxy. apply Forall_impl. intros z Hz. now apply Qle_trans with y.
Qed.

End OrderFacts.

Section ScanFacts.

Context {image : Type} {encoding : Type}.
Variable detect_faces : image -> list (box * encoding).
Variable face_distance : encoding -> encoding -> Q.

Variable the_person : encoding.
Variable output_video_path : string.
Variable tolerance : Q.
Variable frame_skip : Z.
Variable fps : Z.
Variable out : writer.

#[local] Notation "'matching_in'" :=
  (matching detect_faces face_distance the_person tolerance).
#[local] Notation "'body'" :=
  (body_locals detect_faces face_distance the_person output_video_path
     tolerance frame_skip fps).
#[local] Notation "'events_of'" :=
  (body_events detect_faces face_distance the_person output_video_path
     tolerance frame_skip fps out).
#[local] Notation "'final'" :=
  (scan_locals detect_faces face_distance the_person output_video_path
     tolerance frame_skip fps).
#[local] Notation "'trace_of'" :=
  (scan_events detect_faces face_distance the_person output_video_path
     tolerance frame_skip fps out).
#[local] Notation "'stamps'" :=
  (frame_stamps detect_faces face_distance the_person tolerance fps).
#[local] Notation "'first_in'" :=
  (first_match detect_faces face_distance the_person tolerance).
#[local] Notation "'written'" :=
  (annotated detect_faces face_distance the_person tolerance fps).

Lemma body_frame_count (img : image) (l : App.locals) :
  App.frame_count (body img l) = App.frame_count l + 1.
Proof.
  unfold body_locals. now destruct (App.frame_count l mod frame_skip =? 0).
Qed.

Lemma scan_frame_count (frames : list image) :
  forall l,
    App.frame_count (final frames l)
    = App.frame_count l + Z.of_nat (List.length frames).
Proof.
  induction frames as [| img rest IH]; intros l.
  - simpl. lia.
  - simpl scan_locals. rewrite IH, body_frame_count.
    simpl List.length. lia.
Qed.

Lemma scan_timestamps (frames : list image) :
  forall l,
    App.detection_timestamps (final frames l)
    = App.detection_timestamps l
        ++ flat_map stamps (sampled frame_skip (App.frame_count l) frames).
Proof.
  induction frames as [| img rest IH]; intros l.
  - simpl. now rewrite app_nil_r.
  - simpl scan_locals. rewrite IH, body_frame_count, sampled_cons.
    unfold body_locals.
    destruct (App.frame_count l mod frame_skip =? 0); simpl.
    + now rewrite <- app_assoc.
    + reflexivity.
Qed.

(** The counter grows by the number of matching faces, frame by frame. *)
Lemma scan_detected (frames : list image) :
  forall l,
    App.detected_frames (final frames l)
    = App.detected_frames l
      + Z.of_nat
          (List.length
             (flat_map (fun p => matching_in (snd p))
                (sampled frame_skip (App.frame_count l) frames))).
Proof.
  induction frames as [| img rest IH]; intros l.
  - simpl. lia.
  - simpl scan_locals. rewrite IH, body_frame_count, sampled_cons.
    unfold body_locals.
    destruct (App.frame_count l mod frame_skip =? 0); simpl.
    + rewrite length_app. lia.
    + reflexivity.
Qed.

Lemma after_counted (m : list (box * encoding)) (l : App.locals) :
  counted l -> counted (after_matches output_video_path fps m l).
Proof.
  unfold counted, after_matches. simpl. intros ->.
  rewrite length_app, repeat_length. lia.
Qed.

Lemma body_counted (img : image) (l : App.locals) :
  counted l -> counted (body img l).
Proof.
  intros Hl. unfold body_locals.
  destruct (App.frame_count l mod frame_skip =? 0).
  - now apply (after_counted (matching_in img)) in Hl.
  - exact Hl.
Qed.

Lemma scan_counted (frames : list image) :
  forall l, counted l -> counted (final frames l).
Proof.
  induction frames as [| img rest IH]; intros l Hl; simpl.
  - exact Hl.
  - apply IH. now apply body_counted.
Qed.

Lemma scan_writes (frames : list image) :
  forall l,
    writes (trace_of frames l)
    = map (fun p => (out, written (fst p) (snd p)))
        (sampled frame_skip (App.frame_count l) frames).
Proof.
  induction frames as [| img rest IH]; intros l.
  - reflexivity.
  - simpl scan_events. rewrite writes_app, IH, body_frame_count, sampled_cons.
    unfold body_events.
    destruct (App.frame_count l mod frame_skip =? 0).
    + rewrite writes_app. unfold snapshot_of.
      destruct (App.detection_frame_path l); [reflexivity |].
      now destruct (matching_in img).
    + reflexivity.
Qed.



Lemma stamps_bounded (Hfps : 0 < fps) (frames : list image) :
  forall s,
    Forall (Qle (timestamp_of fps s))
      (flat_map stamps (sampled frame_skip s frames))
    /\ nondecreasing (flat_map stamps (sampled frame_skip s frames)).
Proof.
  induction frames as [| img rest IH]; intros s.
  - simpl. split; constructor.
  - rewrite sampled_cons. destruct (IH (s + 1)) as [Hall Hsorted].
    assert (Hall' : Forall (Qle (timestamp_of fps s))
                      (flat_map stamps (sampled frame_skip (s + 1) rest))).
    { apply Forall_Qle_weaken with (timestamp_of fps (s + 1)); [| exact Hall].
      apply timestamp_of_mono; lia. }
    destruct (s mod frame_skip =? 0).
    + simpl flat_map. unfold frame_stamps at 1 3. simpl fst. split.
      * apply Forall_app. split; [| exact Hall'].
        generalize (List.length (matching_in (snd (s, img)))).
        intros n. induction n; simpl; constructor;
          [apply Qle_refl | assumption].
      * now apply nondecreasing_repeat_app.
    + split; assumption.
Qed.

End ScanFacts.

(* ================================================================== *)
(** ** A whole run in closed form *)

Section RunFacts.

Context {image : Type} {encoding : Type}.
Variable detect_faces : image -> list (box * encoding).
Variable face_distance : encoding -> encoding -> Q.
Variable W : world image.

Lemma open_writer_cases (path : string) (fps width height : Z)
    (tr : list (event image)) :
  let size := (width, height) in
  App.open_writer W path fps width height tr
  = match codec_init W path avc1, codec_init W path mp4v with
    | InitOpened, _ =>
        (Ok (mkWriter path avc1 true), tr ++ [EvWriterInit path avc1 fps size])
    | _, InitOpened =>
        (Ok (mkWriter path mp4v true),
         tr ++ [EvWriterInit path avc1 fps size; EvWriterInit path mp4v fps size])
    | _, InitClosed =>
        (Ok (mkWriter path mp4v false),
         tr ++ [EvWriterInit path avc1 fps size; EvWriterInit path mp4v fps size])
    | InitClosed, InitRaises =>
        (Raise (Error "VideoWriter"),
         tr ++ [EvWriterInit path avc1 fps size; EvWriterInit path mp4v fps size;
                EvWriterInit path mp4v fps size])
    | InitRaises, InitRaises =>
        (Raise (Error "VideoWriter"),
         tr ++ [EvWriterInit path avc1 fps size; EvWriterInit path mp4v fps size])
    end.
Proof.
  cbv zeta.
  unfold App.open_writer, App.VideoWriter, try_except, bind, emit, ret, raise.
  destruct (codec_init W path avc1); simpl;
    destruct (codec_init W path mp4v); simpl;
    rewrite <- ?app_assoc; reflexivity.
Qed.

Lemma open_writer_closed (path : string) (fps width height : Z)
    (tr : list (event image)) :
  writer_returned W path = true ->
  App.open_writer W path fps width height tr
  = (Ok (fallback_writer W path),
     tr ++ writer_events W path fps (width, height)).
Proof.
  rewrite open_writer_cases. cbv zeta.
  unfold writer_returned, fallback_writer, writer_events.
  destruct (codec_init W path avc1); destruct (codec_init W path mp4v);
    intros H; try discriminate H; reflexivity.
Qed.

Lemma scannable_inv (self : @App.PersonDetector encoding) (path : string)
    (k : Z) :
  scannable W self path k = true ->
  (exists p, App.person_encoding self = Some p)
  /\ cap_isOpened (video_files W (App.video_path self)) = true
  /\ 0 < int (cap_fps (video_files W (App.video_path self)))
  /\ int (cap_frame_count (video_files W (App.video_path self))) <> 0
  /\ 1 <= k
  /\ writer_returned W path = true.
Proof.
  unfold scannable. intros H.
  repeat (apply andb_prop in H; destruct H as [H ?]).
  repeat split; try lia; auto.
  destruct (App.person_encoding self) as [p |]; [now exists p | discriminate].
Qed.

Lemma ready_inv (self : @App.PersonDetector encoding) (path : string) (k : Z) :
  ready W self path k = true ->
  (exists p, App.person_encoding self = Some p)
  /\ cap_isOpened (video_files W (App.video_path self)) = true
  /\ 0 < int (cap_fps (video_files W (App.video_path self)))
  /\ int (cap_frame_count (video_files W (App.video_path self))) <> 0
  /\ 1 <= k
  /\ writer_returned W path = true.
Proof.
  unfold ready. intros H. apply andb_prop in H.
  now apply scannable_inv.
Qed.

Lemma ready_encoder (self : @App.PersonDetector encoding) (path : string)
    (k : Z) :
  ready W self path k = true ->
  Cv.has_encoder (snapshot_path path) = true.
Proof. unfold ready. intros H. now apply andb_prop in H. Qed.

(** The events of a run that reaches the last [return]. *)
Lemma detect_closed (self : @App.PersonDetector encoding) (p : encoding)
    (path : string) (tolerance : Q) (k : Z) (tr : list (event image)) :
  ready W self path k = true ->
  App.person_encoding self = Some p ->
  let video := video_files W (App.video_path self) in
  let out := fallback_writer W path in
  let l := scan_locals detect_faces face_distance p path tolerance k
             (int (cap_fps video)) (cap_frames video) start in
  App.detect_person_in_video detect_faces face_distance W self path tolerance k tr
  = (Ok (inr (summary_of l path)),
     tr ++ EvCaptureOpen (App.video_path self)
        :: writer_events W path (int (cap_fps video))
             (int (cap_width video), int (cap_height video))
        ++ scan_events detect_faces face_distance p path tolerance k
             (int (cap_fps video)) out (cap_frames video) start
        ++ [EvCaptureRelease (App.video_path self); EvWriterRelease out]).
Proof.
  intros Hready Hp video out l. subst video out l.
  destruct (ready_inv _ _ _ Hready) as (_ & Hopen & Hfps & Htot & Hk & Hw).
  pose proof (ready_encoder _ _ _ Hready) as Henc.
  unfold App.detect_person_in_video. rewrite Hp.
  unfold App.VideoCapture, bind, emit, ret.
  rewrite Hopen. cbv beta iota delta [negb].
  rewrite (open_writer_closed _ _ _ _ _ Hw).
  rewrite (while_read_closed detect_faces face_distance p path tolerance k
             _ (int (cap_frame_count (video_files W (App.video_path self)))))
    by (try assumption; lia).
  unfold summary_of. rewrite <- !app_assoc. reflexivity.
Qed.

(** A run that returns a summary has done what the closed form says:
    the encoding was loaded, the video and the writer were opened. *)
Lemma detect_returns (self : @App.PersonDetector encoding)
    (path : string) (tolerance : Q) (k : Z) (tr tr' : list (event image))
    (s : App.summary) :
  App.detect_person_in_video detect_faces face_distance W self path tolerance k tr
  = (Ok (inr s), tr') ->
  let video := video_files W (App.video_path self) in
  let out := fallback_writer W path in
  exists p,
    App.person_encoding self = Some p
    /\ cap_isOpened video = true
    /\ writer_returned W path = true
    /\ s = summary_of
             (scan_locals detect_faces face_distance p path tolerance k
                (int (cap_fps video)) (cap_frames video) start) path
    /\ tr' = tr ++ EvCaptureOpen (App.video_path self)
                :: writer_events W path (int (cap_fps video))
                     (int (cap_width video), int (cap_height video))
                ++ scan_events detect_faces face_distance p path tolerance k
                     (int (cap_fps video)) out (cap_frames video) start
                ++ [EvCaptureRelease (App.video_path self); EvWriterRelease out].
Proof.
  cbv zeta. unfold App.detect_person_in_video.
  destruct (App.person_encoding self) as [p |]; [| discriminate].
  unfold App.VideoCapture, bind, emit, ret.
  destruct (cap_isOpened (video_files W (App.video_path self))) eqn:Hopen;
    cbv beta iota delta [negb]; [| discriminate].
  destruct (writer_returned W path) eqn:Hw.
  2:{ rewrite open_writer_cases. cbv zeta. unfold writer_returned in Hw.
      destruct (codec_init W path avc1); destruct (codec_init W path mp4v);
        discriminate. }
  rewrite (open_writer_closed _ _ _ _ _ Hw).
  destruct (App.while_read _ _ _ _ _ _ _ _ _ _ _ _) as [[l | e] tr2] eqn:E;
    [| discriminate].
  destruct (while_read_returns _ _ _ _ _ _ _ _ _ _ _ _ _ _ E) as [-> ->].
  intros H. injection H as <- <-.
  exists p. repeat split. unfold summary_of. now rewrite <- !app_assoc.
Qed.

End RunFacts.

(* ================================================================== *)
(** ** [str.replace] on the suffix of the output path *)

Section ReplaceFacts.

Variable new : string.

#[local] Notation "'old'" := ".mp4"%string.








End ReplaceFacts.

(* ================================================================== *)
(** ** Properties of the scan *)

Section MoreFacts.

Context {image : Type} {encoding : Type}.
Variable detect_faces : image -> list (box * encoding).
Variable face_distance : encoding -> encoding -> Q.




(** [first_match] finds the earliest frame that has a match. *)
Lemma first_match_spec (p : encoding) (tolerance : Q) (l : list (Z * image))
    (i : Z) (img : image) (face : box * encoding) :
  first_match detect_faces face_distance p tolerance l = Some (i, img, face)
  <-> exists before after m,
        l = before ++ (i, img) :: after
        /\ Forall (fun q => matching detect_faces face_distance p tolerance
                              (snd q) = []) before
        /\ matching detect_faces face_distance p tolerance img = face :: m.
Proof.
  induction l as [| [j x] l IH]; simpl.
  - split; [discriminate |].
    intros (before & after & m & E & _). now destruct before.
  - destruct (matching detect_faces face_distance p tolerance x)
      as [| f m] eqn:Hm.
    + rewrite IH. split.
      * intros (before & after & m' & -> & Hb & Hi).
        exists ((j, x) :: before), after, m'. repeat split; auto.
      * intros (before & after & m' & E & Hb & Hi).
        destruct before as [| b before]; simpl in E.
        -- injection E as E1 E2 E3. subst. congruence.
        -- injection E as E1 E2. subst. inversion Hb; subst.
           exists before, after, m'. auto.
    + split.
      * intros E. injection E as E1 E2 E3. subst.
        exists [], l, m. auto.
      * intros (before & after & m' & E & Hb & Hi).
        destruct before as [| b before]; simpl in E.
        -- injection E as E1 E2 E3. subst. congruence.
        -- injection E as E1 E2. subst. inversion Hb; subst.
           simpl in *. congruence.
Qed.

Lemma output_video_written (out : writer) (g : Z * image -> frame image)
    (l : list (Z * image)) (evs : list (event image)) :
  writes evs = map (fun p => (out, g p)) l ->
  output_video evs = if isOpened out then map g l else [].
Proof.
  unfold output_video. intros ->.
  induction l as [| x l IH]; simpl.
  - now destruct (isOpened out).
  - destruct (isOpened out); simpl; [now rewrite IH | exact IH].
Qed.

Lemma ceil_div_bounds (n k : Z) :
  0 < k -> k * (ceil_div n k - 1) < n <= k * ceil_div n k.
Proof.
  intros Hk. unfold ceil_div.
  pose proof (Z.div_mod (n + k - 1) k ltac:(lia)) as Hd.
  pose proof (Z.mod_pos_bound (n + k - 1) k Hk) as Hr.
  lia.
Qed.

(** The writes and image writes among the events of a run. *)
Lemma run_writes (W : world image) (v : string) (path : string)
    (fps : Z) (size : Z * Z) (out : writer) (scan : list (event image)) :
  writes (EvCaptureOpen v :: writer_events W path fps size ++ scan
            ++ [EvCaptureRelease v; EvWriterRelease out])
  = writes scan
  /\ imwrites (EvCaptureOpen v :: writer_events W path fps size ++ scan
                 ++ [EvCaptureRelease v; EvWriterRelease out])
     = imwrites scan.
Proof.
  destruct (writer_events_writes W path fps size) as [Hw Hi].
  simpl. rewrite !writes_app, !imwrites_app, Hw, Hi. simpl.
  now rewrite !app_nil_r.
Qed.

End MoreFacts.

Section SnapshotInvariant.

Context {image : Type} {encoding : Type}.
Variable detect_faces : image -> list (box * encoding).
Variable face_distance : encoding -> encoding -> Q.
Variable W : world image.

Lemma keeps_one_snapshot_ret {S : Type} (path_of : S -> option string) :
  keeps_one_snapshot (image := image) path_of (fun s => ret s).
Proof.
  intros s tr r tr' E. unfold ret in E. injection E as <- <-.
  exists []. rewrite app_nil_r. split; [reflexivity |].
  destruct (path_of s) eqn:Hs; split; auto.
  intros s' E. injection E as <-. exact Hs.
Qed.

Lemma keeps_one_snapshot_bind {S : Type} (path_of : S -> option string)
    (f g : S -> IO (event image) S) :
  keeps_one_snapshot path_of f ->
  keeps_one_snapshot path_of g ->
  keeps_one_snapshot path_of (fun s => bind (f s) g).
Proof.
  intros Hf Hg s tr r tr' E. unfold bind in E.
  destruct (f s tr) as [[s1 | e] tr1] eqn:E1.
  - destruct (Hf _ _ _ _ E1) as (evs1 & -> & H1).
    destruct (Hg _ _ _ _ E) as (evs2 & -> & H2).
    exists (evs1 ++ evs2). rewrite app_assoc. split; [reflexivity |].
    rewrite imwrites_app.
    destruct (path_of s) as [p |].
    + destruct H1 as [H1 K1]. rewrite (K1 s1 eq_refl) in H2.
      destruct H2 as [H2 K2]. rewrite H1, H2. auto.
    + destruct H1 as [H1 K1]. destruct (path_of s1) as [p1 |] eqn:Hs1.
      * destruct H2 as [H2 K2]. rewrite H2, app_nil_r. split; [exact H1 |].
        intros s' Hr Hnone. rewrite (K2 s' Hr) in Hnone. discriminate.
      * rewrite (K1 s1 eq_refl Hs1). simpl. exact H2.
  - injection E as <- <-.
    destruct (Hf _ _ _ _ E1) as (evs1 & -> & H1).
    exists evs1. split; [reflexivity |].
    destruct (path_of s); destruct H1 as [H1 _]; split; auto; discriminate.
Qed.

Variable the_person : encoding.
Variable output_video_path : string.
Variable tolerance : Q.
Variable frame_skip : Z.
Variable fps : Z.
Variable total_frames : Z.
Variable out : writer.

Lemma face_body_one_snapshot (face : box * encoding) :
  keeps_one_snapshot
    (fun s : @App.face_state image => App.detection_frame_path (snd s))
    (App.face_body face_distance the_person output_video_path tolerance fps
       face).
Proof.
  intros [[f found] l] tr r tr'. rewrite face_body_cases. cbn [snd].
  destruct (within_tolerance face_distance the_person tolerance face).
  2:{ intros E. injection E as <- <-. exists []. rewrite app_nil_r.
      split; [reflexivity |].
      destruct (App.detection_frame_path l) eqn:Hl; split; auto.
      intros s' E. now injection E as <-. }
  destruct (fps =? 0).
  { intros E. injection E as <- <-. exists []. rewrite app_nil_r.
    split; [reflexivity |].
    destruct (App.detection_frame_path l); split; auto; discriminate. }
  unfold snapshot_of.
  destruct (App.detection_frame_path l) as [p |] eqn:Hl.
  - intros E. injection E as <- <-. exists []. split; [reflexivity |].
    split; [reflexivity |]. intros s' E. injection E as <-.
    unfold after_matches. simpl. now rewrite Hl.
  - destruct (Cv.has_encoder _); intros E; injection E as <- <-.
    + eexists. split; [reflexivity |]. split; [simpl; lia |].
      intros s' E. injection E as <-.
      unfold after_matches. simpl. rewrite Hl. discriminate.
    + exists []. rewrite app_nil_r. split; [reflexivity |].
      split; [simpl; lia | discriminate].
Qed.

Lemma for_faces_one_snapshot (faces : list (box * encoding)) :
  keeps_one_snapshot
    (fun s : @App.face_state image => App.detection_frame_path (snd s))
    (App.for_faces face_distance the_person output_video_path tolerance fps
       faces).
Proof.
  induction faces as [| face rest IH].
  - apply (keeps_one_snapshot_ret
             (fun s : @App.face_state image => App.detection_frame_path (snd s))).
  - apply (keeps_one_snapshot_bind
             (fun s : @App.face_state image => App.detection_frame_path (snd s))
             _ _ (face_body_one_snapshot face) IH).
Qed.

Lemma loop_body_one_snapshot (img : image) :
  keeps_one_snapshot App.detection_frame_path
    (App.loop_body detect_faces face_distance the_person output_video_path
       tolerance frame_skip fps total_frames out img).
Proof.
  intros l tr r tr'. unfold App.loop_body, bind, lift.
  assert (Hnil : exists evs : list (event image),
             tr = tr ++ evs
             /\ match App.detection_frame_path l with
                | Some p => imwrites evs = [] /\ True
                | None => (List.length (imwrites evs) <= 1)%nat /\ True
                end).
  { exists []. rewrite app_nil_r. split; [reflexivity |].
    destruct (App.detection_frame_path l); simpl; auto. }
  destruct (mod_ (App.frame_count l) frame_skip) as [m | e].
  2:{ intros E. injection E as <- <-. destruct Hnil as (evs & Ht & Hm).
      exists evs. split; [exact Ht |].
      destruct (App.detection_frame_path l); destruct Hm; split; auto;
        discriminate. }
  destruct (m =? 0).
  2:{ unfold ret. intros E. injection E as <- <-. exists [].
      rewrite app_nil_r. split; [reflexivity |].
      destruct (App.detection_frame_path l) eqn:Hl; simpl; split; auto.
      intros s' E. now injection E as <-. }
  destruct (App.for_faces _ _ _ _ _ (detect_faces img) _ tr)
    as [[[[f found] l1] | e] tr1] eqn:E1.
  2:{ intros E. injection E as <- <-.
      destruct (for_faces_one_snapshot _ _ _ _ _ E1) as (evs & -> & Hm).
      exists evs. split; [reflexivity |]. simpl in Hm.
      destruct (App.detection_frame_path l); destruct Hm; split; auto;
        discriminate. }
  destruct (for_faces_one_snapshot _ _ _ _ _ E1) as (evs & -> & Hm).
  simpl in Hm. unfold emit.
  assert (Himw : imwrites (evs ++ [EvWrite out f]) = imwrites evs).
  { rewrite imwrites_app. simpl. apply app_nil_r. }
  assert (Hdone : forall (r0 : result App.locals),
             (forall s', r0 = Ok s' ->
                         App.detection_frame_path s'
                         = App.detection_frame_path l1) ->
             match App.detection_frame_path l with
             | Some p =>
                 imwrites (evs ++ [EvWrite out f]) = []
                 /\ (forall s', r0 = Ok s' ->
                                App.detection_frame_path s' = Some p)
             | None =>
                 (List.length (imwrites (evs ++ [EvWrite out f])) <= 1)%nat
                 /\ (forall s', r0 = Ok s' ->
                                App.detection_frame_path s' = None ->
                                imwrites (evs ++ [EvWrite out f]) = [])
             end).
  { intros r0 Hr0. rewrite Himw.
    destruct (App.detection_frame_path l); destruct Hm as [H1 K1]; split; auto.
    - intros s' E. rewrite (Hr0 s' E). now apply (K1 (f, found, l1)).
    - intros s' E Hnone. rewrite (Hr0 s' E) in Hnone.
      now apply (K1 (f, found, l1)). }
  destruct (mod_ (App.frame_count l1) 100) as [m100 | e].
  2:{ intros E. injection E as <- <-. eexists.
      rewrite <- app_assoc. split; [reflexivity |].
      apply Hdone. discriminate. }
  destruct (m100 =? 0).
  - destruct (truediv (App.frame_count l1) total_frames) as [q | e];
      unfold ret; intros E; injection E as <- <-; eexists;
      rewrite <- app_assoc; (split; [reflexivity |]); apply Hdone.
    + intros s' E. now injection E as <-.
    + discriminate.
  - unfold ret. intros E. injection E as <- <-. eexists.
    rewrite <- app_assoc. split; [reflexivity |]. apply Hdone.
    intros s' E. now injection E as <-.
Qed.

Lemma while_read_one_snapshot (frames : list image) :
  keeps_one_snapshot App.detection_frame_path
    (App.while_read detect_faces face_distance the_person output_video_path
       tolerance frame_skip fps total_frames out frames).
Proof.
  induction frames as [| img rest IH].
  - apply (keeps_one_snapshot_ret App.detection_frame_path).
  - apply (keeps_one_snapshot_bind App.detection_frame_path _ _
             (loop_body_one_snapshot img) IH).
Qed.

End SnapshotInvariant.

Section WholeRunSnapshot.

Context {image : Type} {encoding : Type}.
Variable detect_faces : image -> list (box * encoding).
Variable face_distance : encoding -> encoding -> Q.
Variable W : world image.

Lemma open_writer_no_image (path : string) (fps width height : Z)
    (tr : list (event image)) :
  exists evs,
    snd (App.open_writer W path fps width height tr) = tr ++ evs
    /\ imwrites evs = [].
Proof.
  rewrite open_writer_cases. cbv zeta.
  destruct (codec_init W path avc1); destruct (codec_init W path mp4v);
    eexists; split; reflexivity.
Qed.


End WholeRunSnapshot.

Section RunProperties.

Context {image : Type} {encoding : Type}.
Variable detect_faces : image -> list (box * encoding).
Variable face_distance : encoding -> encoding -> Q.
Variable W : world image.

#[local] Notation "'detect_person_in_video'" :=
  (App.detect_person_in_video detect_faces face_distance W).

(** C3, as the code has it. The sampled frames are those whose 0-based
    index is a multiple of [frame_skip]. In every run that returns its
    summary, with a stride of at least 1, the frames passed to the writer
    are exactly the sampled ones, in the order they were read, all to the
    writer [open_writer] ended with, and the summary reports
    [total_frames = n]; there are [ceil(n / frame_skip)] of them. They
    reach the output video when that writer opened, and then the output
    video has [ceil(n / frame_skip)] frames; a writer that did not open
    is used all the same and the output video holds no frame. A run that
    meets [ready] returns its summary. *)
Theorem sampled_frames_are_the_output (self : @App.PersonDetector encoding)
    (output_video_path : string) (tolerance : Q) (frame_skip : Z)
    (tr : list (event image)) :
  let frames := cap_frames (video_files W (App.video_path self)) in
  let n := Z.of_nat (List.length frames) in
  let out := fallback_writer W output_video_path in
  (ready W self output_video_path frame_skip = true ->
   isOpened out = true ->
   exists (s : App.summary) (evs : list (event image)),
     detect_person_in_video self output_video_path tolerance frame_skip tr
     = (Ok (inr s), tr ++ evs)
     /\ (forall i img,
            In (i, img) (sampled frame_skip 0 frames)
            <-> 0 <= i /\ i mod frame_skip = 0
                /\ nth_error frames (Z.to_nat i) = Some img)
     /\ map pixels (output_video evs) = map snd (sampled frame_skip 0 frames)
     /\ App.sum_total_frames s = n
     /\ Z.of_nat (List.length (output_video evs)) = ceil_div n frame_skip
     /\ frame_skip * (ceil_div n frame_skip - 1) < n
        <= frame_skip * ceil_div n frame_skip)
  /\ (1 <= frame_skip ->
      forall (s : App.summary) (tr' : list (event image)),
        detect_person_in_video self output_video_path tolerance frame_skip tr
        = (Ok (inr s), tr') ->
        exists evs : list (event image),
          tr' = tr ++ evs
          /\ map (fun w => pixels (snd w)) (writes evs)
             = map snd (sampled frame_skip 0 frames)
          /\ Forall (fun w => fst w = out) (writes evs)
          /\ App.sum_total_frames s = n
          /\ Z.of_nat (List.length (writes evs)) = ceil_div n frame_skip
          /\ map pixels (output_video evs)
             = if isOpened out then map snd (sampled frame_skip 0 frames)
               else []).
Proof.
  intros frames n out.
  assert (Hscan : forall p fps,
    writes (scan_events detect_faces face_distance p output_video_path
              tolerance frame_skip fps out frames start)
    = map (fun q => (out, annotated detect_faces face_distance p tolerance
                            fps (fst q) (snd q)))
        (sampled frame_skip 0 frames)).
  { intros p fps. now rewrite scan_writes. }
  split.
  - intros Hready Hout.
    destruct (ready_inv W _ _ _ Hready) as ((p & Hp) & _ & _ & _ & Hk & _).
    eexists. eexists. split.
    { apply (detect_closed detect_faces face_distance W self p); assumption. }
    destruct (run_writes W (App.video_path self) output_video_path
                (int (cap_fps (video_files W (App.video_path self))))
                (int (cap_width (video_files W (App.video_path self))),
                 int (cap_height (video_files W (App.video_path self))))
                out
                (scan_events detect_faces face_distance p output_video_path
                   tolerance frame_skip
                   (int (cap_fps (video_files W (App.video_path self))))
                   out frames start))
      as [Hw _].
    rewrite Hscan in Hw.
    apply output_video_written in Hw. rewrite Hout in Hw. fold frames out.
    split; [| split; [| split; [| split]]].
    + intros i img. rewrite sampled_In.
      replace (i - 0) with i by lia. tauto.
    + rewrite Hw, map_map. apply map_ext. reflexivity.
    + unfold summary_of. simpl. rewrite scan_frame_count. reflexivity.
    + rewrite Hw, length_map, sampled_length by lia.
      rewrite ceil_div_0 by lia. simpl. fold n. lia.
    + apply ceil_div_bounds. lia.
  - intros Hk s tr' Hrun.
    destruct (detect_returns detect_faces face_distance W _ _ _ _ _ _ _ Hrun)
      as (p & _ & _ & _ & -> & ->).
    eexists. split; [reflexivity |].
    destruct (run_writes W (App.video_path self) output_video_path
                (int (cap_fps (video_files W (App.video_path self))))
                (int (cap_width (video_files W (App.video_path self))),
                 int (cap_height (video_files W (App.video_path self))))
                out
                (scan_events detect_faces face_distance p output_video_path
                   tolerance frame_skip
                   (int (cap_fps (video_files W (App.video_path self))))
                   out frames start))
      as [Hw _].
    rewrite Hscan in Hw. fold frames out. rewrite Hw.
    split; [| split; [| split; [| split]]].
    + rewrite map_map. apply map_ext. reflexivity.
    + apply Forall_map. apply Forall_forall. intros x _. reflexivity.
    + unfold summary_of. simpl. rewrite scan_frame_count. reflexivity.
    + rewrite length_map, sampled_length by lia.
      rewrite ceil_div_0 by lia. simpl. fold n. lia.
    + apply output_video_written in Hw. rewrite Hw.
      destruct (isOpened out); [| reflexivity].
      rewrite map_map. apply map_ext. reflexivity.
Qed.


(** In a run that reaches its [return], [detected_frames] is the number of
    matching faces over all sampled frames. *)
Lemma detected_frames_counts_faces (self : @App.PersonDetector encoding)
    (the_person : encoding) (output_video_path : string) (tolerance : Q)
    (frame_skip : Z) (tr : list (event image)) :
  ready W self output_video_path frame_skip = true ->
  App.person_encoding self = Some the_person ->
  exists (s : App.summary) (evs : list (event image)),
    detect_person_in_video self output_video_path tolerance frame_skip tr
    = (Ok (inr s), tr ++ evs)
    /\ App.sum_detected_frames s
       = Z.of_nat
           (List.length
              (flat_map
                 (fun p => matching detect_faces face_distance the_person
                             tolerance (snd p))
                 (sampled frame_skip 0
                    (cap_frames (video_files W (App.video_path self)))))).
Proof.
  intros Hready Hp.
  eexists. eexists. split.
  { apply (detect_closed detect_faces face_distance W self the_person);
      assumption. }
  unfold summary_of. simpl App.sum_detected_frames.
  rewrite scan_detected. reflexivity.
Qed.

(** C7, as the code has it. The timestamps of the summary are those of
    the sampled frames with a match, in the order the frames were
    processed, each the index of its frame divided by the integer part of
    the fps of the video (the code holds [fps = int(CAP_PROP_FPS)]); the
    list is non-decreasing. *)
Theorem timestamps_in_processing_order (self : @App.PersonDetector encoding)
    (the_person : encoding) (output_video_path : string) (tolerance : Q)
    (frame_skip : Z) (tr : list (event image)) :
  ready W self output_video_path frame_skip = true ->
  App.person_encoding self = Some the_person ->
  let video := video_files W (App.video_path self) in
  exists (s : App.summary) (evs : list (event image)),
    detect_person_in_video self output_video_path tolerance frame_skip tr
    = (Ok (inr s), tr ++ evs)
    /\ App.sum_detection_timestamps s
       = flat_map
           (fun p =>
              repeat (inject_Z (fst p) / inject_Z (int (cap_fps video)))%Q
                (List.length
                   (matching detect_faces face_distance the_person
                      tolerance (snd p))))
           (sampled frame_skip 0 (cap_frames video))
    /\ nondecreasing (App.sum_detection_timestamps s).
Proof.
  intros Hready Hp video.
  destruct (ready_inv W _ _ _ Hready) as (_ & _ & Hfps & _).
  fold video in Hfps.
  eexists. eexists. split.
  { apply (detect_closed detect_faces face_distance W self the_person);
      assumption. }
  unfold summary_of. simpl App.sum_detection_timestamps.
  rewrite scan_timestamps. simpl. fold video. split.
  - reflexivity.
  - apply stamps_bounded. exact Hfps.
Qed.

End RunProperties.

Section Invariant.

Context {image : Type} {encoding : Type}.
Variable detect_faces : image -> list (box * encoding).
Variable face_distance : encoding -> encoding -> Q.
Variable W : world image.

Variable the_person : encoding.
Variable output_video_path : string.
Variable tolerance : Q.
Variable frame_skip : Z.
Variable fps : Z.
Variable total_frames : Z.
Variable out : writer.

Lemma face_body_counted (face : box * encoding) (s s' : @App.face_state image)
    (tr tr' : list (event image)) :
  counted (snd s) ->
  App.face_body face_distance the_person output_video_path tolerance fps
    face s tr = (Ok s', tr') ->
  counted (snd s').
Proof.
  destruct s as [[f found] l]. cbn [snd]. intros Hl.
  destruct (within_tolerance face_distance the_person tolerance face) eqn:Hm.
  - intros E. destruct (face_body_returns _ _ _ _ _ _ _ _ _ _ _ _ E Hm) as [-> _].
    cbn [snd]. now apply after_counted.
  - rewrite face_body_no_match by exact Hm. intros E. injection E as <- _.
    exact Hl.
Qed.

Lemma for_faces_counted (faces : list (box * encoding)) :
  forall (s s' : @App.face_state image) (tr tr' : list (event image)),
    counted (snd s) ->
    App.for_faces face_distance the_person output_video_path tolerance fps
      faces s tr = (Ok s', tr') ->
    counted (snd s').
Proof.
  induction faces as [| face rest IH]; intros s s' tr tr' Hs; simpl.
  - unfold ret. intros E. injection E as <- _. exact Hs.
  - unfold bind.
    destruct (App.face_body _ _ _ _ _ face s tr) as [[s1 | e] tr1] eqn:E1;
      [| discriminate].
    apply face_body_counted in E1; [| exact Hs].
    apply IH. exact E1.
Qed.

Lemma loop_body_counted (img : image) (l l' : App.locals)
    (tr tr' : list (event image)) :
  counted l ->
  App.loop_body detect_faces face_distance the_person output_video_path
    tolerance frame_skip fps total_frames out img l tr = (Ok l', tr') ->
  counted l'.
Proof.
  intros Hl. unfold App.loop_body, bind, lift.
  destruct (mod_ (App.frame_count l) frame_skip) as [r | e]; [| discriminate].
  destruct (r =? 0).
  - destruct (App.for_faces _ _ _ _ _ (detect_faces img) _ tr)
      as [[[[f found] l1] | e] tr1] eqn:E1; [| discriminate].
    apply for_faces_counted in E1; [| exact Hl]. simpl in E1.
    unfold emit.
    destruct (mod_ (App.frame_count l1) 100) as [r100 | e]; [| discriminate].
    destruct (r100 =? 0).
    + destruct (truediv (App.frame_count l1) total_frames); [| discriminate].
      unfold ret. intros E. injection E as <- _. exact E1.
    + unfold ret. intros E. injection E as <- _. exact E1.
  - unfold ret. intros E. injection E as <- _. exact Hl.
Qed.

Lemma while_read_counted (frames : list image) :
  forall (l l' : App.locals) (tr tr' : list (event image)),
    counted l ->
    App.while_read detect_faces face_distance the_person output_video_path
      tolerance frame_skip fps total_frames out frames l tr = (Ok l', tr') ->
    counted l'.
Proof.
  induction frames as [| img rest IH]; intros l l' tr tr' Hl; simpl.
  - unfold ret. intros E. injection E as <- _. exact Hl.
  - unfold bind.
    destruct (App.loop_body _ _ _ _ _ _ _ _ _ img l tr) as [[l1 | e] tr1] eqn:E1;
      [| discriminate].
    apply loop_body_counted in E1; [| exact Hl].
    apply IH. exact E1.
Qed.

End Invariant.

Section FaceProperties.

Context {image : Type} {encoding : Type}.
Variable detect_faces : image -> list (box * encoding).
Variable face_distance : encoding -> encoding -> Q.
Variable W : world image.


End FaceProperties.

Section ReferenceProperties.

Context {image : Type} {encoding : Type}.
Variable detect_faces : image -> list (box * encoding).
Variable face_distance : encoding -> encoding -> Q.
Variable W : world image.

Lemma load_without_face (self : @App.PersonDetector encoding) (img : image)
    (tr : list (event image)) :
  image_files W (App.person_image_path self) = inl img ->
  detect_faces img = [] ->
  App.load_person_encoding detect_faces W self tr
  = (Ok (self, (false, "No face found in the person's image. Please use an image with a clear face.")),
     tr ++ [EvLoadImage (App.person_image_path self)]).
Proof.
  intros Himg Hnone.
  cbv beta iota delta [App.load_person_encoding try_except bind
                         App.load_image_file emit ret raise App.face_encodings].
  rewrite Himg. cbv beta iota. now rewrite Hnone.
Qed.

(** C6. When the reference image has no detectable face:
    [load_person_encoding] returns [(False, "No face found ..")] after the
    image was read and leaves the detector without an encoding; the route
    answers 400 and the command line run returns, in both cases without a
    capture or a writer being opened and without a frame or an image
    being written. *)
Theorem no_reference_face_no_scan (tolerance : Q) (frame_skip : Z) :
  (forall (self : @App.PersonDetector encoding) img tr,
      image_files W (App.person_image_path self) = inl img ->
      detect_faces img = [] ->
      App.load_person_encoding detect_faces W self tr
      = (Ok (self, (false, "No face found in the person's image. Please use an image with a clear face.")),
         tr ++ [EvLoadImage (App.person_image_path self)]))
  /\ (forall stamp person_ext video_ext img tr,
         image_files W
           (App.path_join App.UPLOAD_FOLDER
              ("person_" ++ stamp ++ "." ++ person_ext)%string) = inl img ->
         detect_faces img = [] ->
         exists msg evs,
           App.detect_person detect_faces face_distance W stamp person_ext
             video_ext tolerance frame_skip tr
           = (Ok (App.ErrorBody msg, 400), tr ++ evs)
           /\ existsb is_scan_event evs = false
           /\ (Qle_bool 0 tolerance && Qle_bool tolerance 1 = true ->
               1 <= frame_skip ->
               msg = "No face found in the person's image. Please use an image with a clear face."))
  /\ (forall (self : @Cli.PersonDetector encoding) img tr,
         image_files W (Cli.person_image_path self) = inl img ->
         detect_faces img = [] ->
         Cli.run_detection detect_faces face_distance W self tolerance
           frame_skip tr
         = (Ok self, tr ++ [EvLoadImage (Cli.person_image_path self)])).
Proof.
  split; [| split].
  - intros self img tr. apply load_without_face.
  - intros stamp person_ext video_ext img tr Himg Hnone.
    unfold App.detect_person, try_except.
    destruct (Qle_bool 0 tolerance && Qle_bool tolerance 1) eqn:Htol.
    + destruct (Z.ltb_spec frame_skip 1) as [Hk | Hk].
      * simpl. exists "Frame skip must be at least 1", [].
        rewrite app_nil_r. repeat split. intros _ Hk'. lia.
      * cbn [negb]. unfold bind at 1. unfold emit at 1.
        unfold bind at 1. unfold emit at 1. unfold bind at 1.
        rewrite (load_without_face _ img) by assumption.
        cbn [negb]. unfold bind, emit, ret. simpl App.person_image_path.
        eexists. eexists. split.
        { rewrite <- !app_assoc. reflexivity. }
        split; [reflexivity | auto].
    + simpl. exists "Tolerance must be between 0.0 and 1.0", [].
      rewrite app_nil_r. repeat split. intros Hv. discriminate.
  - intros self img tr Himg Hnone.
    cbv beta iota delta [Cli.run_detection Cli.load_person_encoding
                           try_except bind App.load_image_file emit ret
                           raise App.face_encodings].
    rewrite Himg. cbv beta iota. now rewrite Hnone.
Qed.

End ReferenceProperties.

(* ================================================================== *)
(** ** Runs that stop at the first match *)

Section FailingRuns.

Context {image : Type} {encoding : Type}.
Variable detect_faces : image -> list (box * encoding).
Variable face_distance : encoding -> encoding -> Q.
Variable W : world image.

Variable the_person : encoding.
Variable output_video_path : string.
Variable tolerance : Q.
Variable frame_skip : Z.
Variable fps : Z.
Variable total_frames : Z.
Variable out : writer.

#[local] Notation "'matches'" :=
  (within_tolerance face_distance the_person tolerance).

(** The exception of a match that cannot be recorded: the division by
    [fps = 0] comes first, the image that cannot be encoded second. *)
#[local] Notation "'stopped'" :=
  (if fps =? 0 then ZeroDivisionError "division by zero"
   else Error "could not find a writer for the specified extension").

Hypothesis Hblocked :
  fps = 0 \/ Cv.has_encoder (snapshot_path output_video_path) = false.

Lemma for_faces_stops (faces : list (box * encoding)) :
  filter matches faces <> [] ->
  forall (f : frame image) (found : bool) (l : App.locals)
         (tr : list (event image)),
    App.detection_frame_path l = None ->
    App.for_faces face_distance the_person output_video_path tolerance fps
      faces (f, found, l) tr
    = (Raise stopped, tr).
Proof.
  induction faces as [| face rest IH]; intros Hsome f found l tr Hnone;
    [contradiction |].
  simpl in Hsome. cbn [App.for_faces]. unfold bind.
  destruct (matches face) eqn:Hm.
  - rewrite face_body_cases, Hm, Hnone.
    destruct (Z.eqb_spec fps 0) as [_ | Hfps]; [reflexivity |].
    destruct Hblocked as [E | ->]; [contradiction | reflexivity].
  - rewrite face_body_no_match by exact Hm. now apply IH.
Qed.

Lemma while_read_stops (Hk : frame_skip <> 0) (Htot : total_frames <> 0)
    (frames : list image) :
  forall l tr,
    App.detection_frame_path l = None ->
    first_match detect_faces face_distance the_person tolerance
      (sampled frame_skip (App.frame_count l) frames) <> None ->
    App.while_read detect_faces face_distance the_person output_video_path
      tolerance frame_skip fps total_frames out frames l tr
    = (Raise stopped,
       tr ++ map (fun p => EvWrite out (mkFrame (snd p) []))
               (before_first_match detect_faces face_distance the_person
                  tolerance (sampled frame_skip (App.frame_count l) frames))).
Proof.
  induction frames as [| img rest IH]; intros l tr Hnone Hsome.
  - contradiction.
  - rewrite sampled_cons in Hsome |- *. cbn [App.while_read].
    unfold bind at 1. unfold App.loop_body.
    unfold bind at 1. unfold lift at 1. rewrite (mod_nonzero _ _ Hk).
    destruct (App.frame_count l mod frame_skip =? 0).
    + cbn [first_match] in Hsome. cbn [before_first_match snd].
      unfold bind at 1. unfold bind at 1.
      destruct (matching detect_faces face_distance the_person tolerance img)
        as [| face m] eqn:Hm.
      * unfold matching in Hm. rewrite (for_faces_unmatched _ _ _ _ _ _ Hm).
        unfold bind at 1. unfold emit at 1. unfold bind at 1.
        unfold lift at 1. rewrite mod_nonzero by discriminate.
        assert (Hrest :
          App.while_read detect_faces face_distance the_person
            output_video_path tolerance frame_skip fps total_frames out rest
            (App.mkLocals (App.frame_count l + 1) (App.detected_frames l)
               (App.detection_timestamps l) (App.detection_frame_path l))
            (tr ++ [EvWrite out (mkFrame img [])])
          = (Raise stopped,
             (tr ++ [EvWrite out (mkFrame img [])])
               ++ map (fun p => EvWrite out (mkFrame (snd p) []))
                    (before_first_match detect_faces face_distance the_person
                       tolerance
                       (sampled frame_skip (App.frame_count l + 1) rest)))).
        { apply (IH (App.mkLocals (App.frame_count l + 1)
                       (App.detected_frames l) (App.detection_timestamps l)
                       (App.detection_frame_path l))); assumption. }
        destruct (App.frame_count l mod 100 =? 0).
        -- unfold bind at 1. unfold lift at 1.
           rewrite (truediv_nonzero _ _ Htot).
           unfold ret at 1. unfold ret at 1. rewrite Hrest.
           cbn [map snd]. now rewrite <- app_assoc.
        -- unfold ret at 1. unfold ret at 1. rewrite Hrest.
           cbn [map snd]. now rewrite <- app_assoc.
      * unfold matching in Hm.
        rewrite for_faces_stops by (try rewrite Hm; auto; discriminate).
        cbn [map]. now rewrite app_nil_r.
    + unfold ret at 1. unfold ret at 1.
      apply (IH (App.mkLocals (App.frame_count l + 1)
                   (App.detected_frames l) (App.detection_timestamps l)
                   (App.detection_frame_path l)) tr Hnone Hsome).
Qed.

End FailingRuns.

Section FailingRun.

Context {image : Type} {encoding : Type}.
Variable detect_faces : image -> list (box * encoding).
Variable face_distance : encoding -> encoding -> Q.
Variable W : world image.

(** A run on a video in which the person is found, where the match cannot
    be recorded: it has written the sampled frames that come before the
    first match, unmarked, and nothing else. *)
Lemma detect_stops_at_first_match (self : @App.PersonDetector encoding)
    (p : encoding) (path : string) (tolerance : Q) (k : Z)
    (tr : list (event image)) :
  let video := video_files W (App.video_path self) in
  let out := fallback_writer W path in
  App.person_encoding self = Some p ->
  cap_isOpened video = true ->
  k <> 0 ->
  int (cap_frame_count video) <> 0 ->
  writer_returned W path = true ->
  int (cap_fps video) = 0 \/ Cv.has_encoder (snapshot_path path) = false ->
  first_match detect_faces face_distance p tolerance
    (sampled k 0 (cap_frames video)) <> None ->
  App.detect_person_in_video detect_faces face_distance W self path tolerance k tr
  = (Raise (if int (cap_fps video) =? 0
            then ZeroDivisionError "division by zero"
            else Error "could not find a writer for the specified extension"),
     tr ++ EvCaptureOpen (App.video_path self)
        :: writer_events W path (int (cap_fps video))
             (int (cap_width video), int (cap_height video))
        ++ map (fun q => EvWrite out (mkFrame (snd q) []))
             (before_first_match detect_faces face_distance p tolerance
                (sampled k 0 (cap_frames video)))).
Proof.
  intros video out Hp Hopen Hk Htot Hw Hblocked Hsome. subst video out.
  unfold App.detect_person_in_video. rewrite Hp.
  unfold App.VideoCapture, bind, emit, ret.
  rewrite Hopen. cbv beta iota delta [negb].
  rewrite (open_writer_closed _ _ _ _ _ _ Hw).
  rewrite (while_read_stops detect_faces face_distance p path tolerance k
             (int (cap_fps (video_files W (App.video_path self))))
             (int (cap_frame_count (video_files W (App.video_path self))))
             (fallback_writer W path) Hblocked Hk Htot
             (cap_frames (video_files W (App.video_path self))) start)
    by (try reflexivity; exact Hsome).
  cbn [App.frame_count start]. now rewrite <- !app_assoc.
Qed.

Lemma stopped_run_events (v path : string) (fps : Z) (size : Z * Z)
    (out : writer) (before : list (Z * image)) :
  let evs := EvCaptureOpen v :: writer_events W path fps size
               ++ map (fun q => EvWrite out (mkFrame (snd q) [])) before in
  imwrites evs = []
  /\ writes evs = map (fun q => (out, mkFrame (snd q) [])) before
  /\ existsb is_release evs = false.
Proof.
  cbv zeta. cbn [imwrites writes existsb is_release orb].
  rewrite imwrites_app, writes_app, existsb_app.
  destruct (writer_events_writes W path fps size) as [-> ->].
  assert (Hinit : existsb is_release (writer_events W path fps size) = false).
  { unfold writer_events. now destruct (codec_init W path avc1). }
  rewrite Hinit. cbn [app orb].
  induction before as [| q before (IH1 & IH2 & IH3)]; [repeat split |].
  cbn [map imwrites writes existsb is_release orb].
  rewrite IH1, IH2, IH3. repeat split.
Qed.

End FailingRun.

(* ================================================================== *)
(** ** What the outcome of the scan does not depend on *)

Section Independence.

Context {image : Type}.

Lemma same_outcome_ret {A : Type} (a : A) :
  same_outcome (image := image) (ret a) (ret a).
Proof.
  intros tr1 tr2. exists (Ok a), []. unfold ret. now rewrite !app_nil_r.
Qed.

Lemma same_outcome_raise {A : Type} (e : exn) :
  same_outcome (image := image) (A := A) (raise e) (raise e).
Proof.
  intros tr1 tr2. exists (Raise e), []. unfold raise. now rewrite !app_nil_r.
Qed.

Lemma same_outcome_lift {A : Type} (x : result A) :
  same_outcome (image := image) (lift x) (lift x).
Proof.
  intros tr1 tr2. exists x, []. unfold lift. now rewrite !app_nil_r.
Qed.

Lemma same_outcome_emit (e : event image) : same_outcome (emit e) (emit e).
Proof. intros tr1 tr2. exists (Ok tt), [e]. now unfold emit. Qed.

Lemma same_outcome_bind {A B : Type} (m1 m2 : IO (event image) A)
    (k1 k2 : A -> IO (event image) B) :
  same_outcome m1 m2 ->
  (forall a, same_outcome (k1 a) (k2 a)) ->
  same_outcome (bind m1 k1) (bind m2 k2).
Proof.
  intros Hm Hk tr1 tr2. unfold bind.
  destruct (Hm tr1 tr2) as (r & evs & -> & ->).
  destruct r as [a | e].
  - destruct (Hk a (tr1 ++ evs) (tr2 ++ evs)) as (r' & evs' & -> & ->).
    exists r', (evs ++ evs'). now rewrite !app_assoc.
  - exists (Raise e), evs. auto.
Qed.

Lemma same_outcome_after_emit {A B : Type} (e : event image) (a : A)
    (k1 k2 : A -> IO (event image) B) :
  same_outcome (k1 a) (k2 a) ->
  same_outcome (bind (bind (emit e) (fun _ => ret a)) k1)
    (bind (bind (emit e) (fun _ => ret a)) k2).
Proof.
  intros H tr1 tr2. unfold bind, emit, ret.
  destruct (H (tr1 ++ [e]) (tr2 ++ [e])) as (r & evs & -> & ->).
  exists r, (e :: evs). now rewrite <- !app_assoc.
Qed.

Lemma same_outcome_try {A : Type} (m1 m2 : IO (event image) A)
    (h1 h2 : exn -> IO (event image) A) :
  same_outcome m1 m2 ->
  (forall e, same_outcome (h1 e) (h2 e)) ->
  same_outcome (try_except m1 h1) (try_except m2 h2).
Proof.
  intros Hm Hh tr1 tr2. unfold try_except.
  destruct (Hm tr1 tr2) as (r & evs & -> & ->).
  destruct r as [a | e].
  - exists (Ok a), evs. auto.
  - destruct (Hh e (tr1 ++ evs) (tr2 ++ evs)) as (r' & evs' & -> & ->).
    exists r', (evs ++ evs'). now rewrite !app_assoc.
Qed.

Context {encoding : Type}.
Variable detect1 detect2 : image -> list (box * encoding).
Variable face_distance : encoding -> encoding -> Q.
Variable W : world image.

Variable the_person : encoding.
Variable path : string.
Variable tolerance : Q.
Variable k : Z.
Variable fps : Z.
Variable total : Z.
Variable out : writer.

Lemma face_body_same (face : box * encoding) (s : @App.face_state image) :
  same_outcome
    (App.face_body face_distance the_person path tolerance fps face s)
    (App.face_body face_distance the_person path tolerance fps face s).
Proof.
  destruct face as [location enc]. destruct s as [[f found] l].
  unfold App.face_body.
  destruct (hd false _); [| apply same_outcome_ret].
  apply same_outcome_bind; [apply same_outcome_lift |]. intros timestamp.
  destruct (App.detection_frame_path l); [apply same_outcome_ret |].
  apply same_outcome_bind; [| intros; apply same_outcome_ret].
  unfold App.imwrite.
  destruct (Cv.has_encoder _);
    [apply same_outcome_emit | apply same_outcome_raise].
Qed.

Lemma for_faces_same (faces : list (box * encoding)) :
  forall s : @App.face_state image,
    same_outcome
      (App.for_faces face_distance the_person path tolerance fps faces s)
      (App.for_faces face_distance the_person path tolerance fps faces s).
Proof.
  induction faces as [| face rest IH]; intros s; cbn [App.for_faces].
  - apply same_outcome_ret.
  - apply same_outcome_bind; [apply face_body_same | exact IH].
Qed.

Lemma loop_body_same (img : image) (l : App.locals) :
  detect1 img = detect2 img ->
  same_outcome
    (App.loop_body detect1 face_distance the_person path tolerance k fps
       total out img l)
    (App.loop_body detect2 face_distance the_person path tolerance k fps
       total out img l).
Proof.
  intros Himg. unfold App.loop_body. rewrite Himg.
  apply same_outcome_bind; [apply same_outcome_lift |]. intros r.
  apply same_outcome_bind; [| intros; apply same_outcome_ret].
  destruct (r =? 0); [| apply same_outcome_ret].
  apply same_outcome_bind; [apply for_faces_same |].
  intros [[f found] l1].
  apply same_outcome_bind; [apply same_outcome_emit |]. intros _.
  apply same_outcome_bind; [apply same_outcome_lift |]. intros r100.
  destruct (r100 =? 0); [| apply same_outcome_ret].
  apply same_outcome_bind; [apply same_outcome_lift |].
  intros _. apply same_outcome_ret.
Qed.

Lemma while_read_same (frames : list image) :
  (forall img, In img frames -> detect1 img = detect2 img) ->
  forall l,
    same_outcome
      (App.while_read detect1 face_distance the_person path tolerance k fps
         total out frames l)
      (App.while_read detect2 face_distance the_person path tolerance k fps
         total out frames l).
Proof.
  induction frames as [| img rest IH]; intros Hagree l; cbn [App.while_read].
  - apply same_outcome_ret.
  - apply same_outcome_bind.
    + apply loop_body_same. apply Hagree. now left.
    + intros l1. apply IH. intros x Hx. apply Hagree. now right.
Qed.

Lemma VideoWriter_same (c : codec) (size : Z * Z) :
  same_outcome (App.VideoWriter W path c fps size)
    (App.VideoWriter W path c fps size).
Proof.
  unfold App.VideoWriter.
  apply same_outcome_bind; [apply same_outcome_emit |]. intros _.
  destruct (codec_init W path c);
    [apply same_outcome_ret | apply same_outcome_ret | apply same_outcome_raise].
Qed.

Lemma open_writer_same (width height : Z) :
  same_outcome (App.open_writer W path fps width height)
    (App.open_writer W path fps width height).
Proof.
  unfold App.open_writer. apply same_outcome_try.
  - apply same_outcome_bind; [apply VideoWriter_same |]. intros o.
    destruct (negb (isOpened o));
      [apply VideoWriter_same | apply same_outcome_ret].
  - intros _. apply VideoWriter_same.
Qed.

End Independence.

Section IndependentRuns.

Context {image : Type} {encoding : Type}.
Variable detect1 detect2 : image -> list (box * encoding).
Variable face_distance : encoding -> encoding -> Q.
Variable W : world image.

Lemma detect_same (self : @App.PersonDetector encoding) (path : string)
    (tolerance : Q) (k : Z) :
  (forall img,
      In img (cap_frames (video_files W (App.video_path self))) ->
      detect1 img = detect2 img) ->
  same_outcome
    (App.detect_person_in_video detect1 face_distance W self path tolerance k)
    (App.detect_person_in_video detect2 face_distance W self path tolerance k).
Proof.
  intros Hagree. unfold App.detect_person_in_video.
  destruct (App.person_encoding self) as [p |]; [| apply same_outcome_ret].
  unfold App.VideoCapture. apply same_outcome_after_emit.
  destruct (negb (cap_isOpened (video_files W (App.video_path self))));
    [apply same_outcome_ret |].
  apply same_outcome_bind; [apply open_writer_same |]. intros out.
  apply same_outcome_bind; [now apply while_read_same |].
  intros l.
  apply same_outcome_bind; [apply same_outcome_emit |]. intros _.
  apply same_outcome_bind; [apply same_outcome_emit |]. intros _.
  apply same_outcome_ret.
Qed.

Lemma sampled_frames_in {A : Type} (k : Z) (frames : list A) (s i : Z)
    (x : A) :
  In (i, x) (sampled k s frames) -> In x frames.
Proof.
  rewrite sampled_In. intros (_ & _ & H). now apply nth_error_In in H.
Qed.

Lemma flat_map_agree {A B : Type} (f g : A -> list B) (l : list A) :
  (forall x, In x l -> f x = g x) -> flat_map f l = flat_map g l.
Proof.
  induction l as [| x l IH]; intros H; [reflexivity |].
  cbn [flat_map]. rewrite (H x) by now left.
  rewrite IH; [reflexivity |]. intros y Hy. apply H. now right.
Qed.

Lemma matching_agree (p : encoding) (tolerance : Q) (k s : Z)
    (frames : list image) :
  (forall img, In img frames -> detect1 img = detect2 img) ->
  forall q,
    In q (sampled k s frames) ->
    matching detect1 face_distance p tolerance (snd q)
    = matching detect2 face_distance p tolerance (snd q).
Proof.
  intros Hagree [i img] Hq. unfold matching. cbn [snd].
  rewrite (Hagree img); [reflexivity |]. eapply sampled_frames_in; eauto.
Qed.

End IndependentRuns.

Section WholeRunProperties.

Context {image : Type} {encoding : Type}.
Variable face_distance : encoding -> encoding -> Q.
Variable W : world image.

(** C8. Take two runs of the scan on the same video, with the same
    reference encoding, tolerance and stride, and a face capability that
    answers the same on every frame of the video in both runs. Whatever
    happened before each run, the two end the same way, with the same
    summary or the same exception, and add the same events. And when the
    second run is on another machine, with other codecs, another output
    path and another history, and both return a summary, then
    [detection_timestamps] and [detected_frames] are the same in both:
    they are the timestamps and the number of the matching faces of the
    sampled frames, which nothing but the video, the encoding, the
    tolerance, the stride and the face capability determines. *)
Theorem scan_is_deterministic (detect1 detect2 : image -> list (box * encoding))
    (self : @App.PersonDetector encoding) (output_video_path : string)
    (tolerance : Q) (frame_skip : Z) :
  let video := video_files W (App.video_path self) in
  (forall img, In img (cap_frames video) -> detect1 img = detect2 img) ->
  (forall tr1 tr2 : list (event image),
      exists r evs,
        App.detect_person_in_video detect1 face_distance W self
          output_video_path tolerance frame_skip tr1 = (r, tr1 ++ evs)
        /\ App.detect_person_in_video detect2 face_distance W self
             output_video_path tolerance frame_skip tr2 = (r, tr2 ++ evs))
  /\ (forall (W' : world image) (self' : @App.PersonDetector encoding)
             (path' : string) (tr1 tr2 t1 t2 : list (event image))
             (s1 s2 : App.summary),
         App.person_encoding self' = App.person_encoding self ->
         video_files W' (App.video_path self') = video ->
         App.detect_person_in_video detect1 face_distance W self
           output_video_path tolerance frame_skip tr1 = (Ok (inr s1), t1) ->
         App.detect_person_in_video detect2 face_distance W' self' path'
           tolerance frame_skip tr2 = (Ok (inr s2), t2) ->
         App.sum_detection_timestamps s1 = App.sum_detection_timestamps s2
         /\ App.sum_detected_frames s1 = App.sum_detected_frames s2
         /\ exists the_person,
              App.person_encoding self = Some the_person
              /\ App.sum_detection_timestamps s1
                 = flat_map
                     (frame_stamps detect1 face_distance the_person tolerance
                        (int (cap_fps video)))
                     (sampled frame_skip 0 (cap_frames video))
              /\ App.sum_detected_frames s1
                 = Z.of_nat
                     (List.length
                        (flat_map
                           (fun q => matching detect1 face_distance the_person
                                       tolerance (snd q))
                           (sampled frame_skip 0 (cap_frames video))))).
Proof.
  intros video Hagree. split.
  - apply detect_same. exact Hagree.
  - intros W' self' path' tr1 tr2 t1 t2 s1 s2 Hperson Hvideo H1 H2.
    destruct (detect_returns detect1 face_distance W _ _ _ _ _ _ _ H1)
      as (p & Hp & _ & _ & -> & _).
    destruct (detect_returns detect2 face_distance W' _ _ _ _ _ _ _ H2)
      as (p' & Hp' & _ & _ & -> & _).
    rewrite Hperson, Hp in Hp'. injection Hp' as <-.
    rewrite Hvideo. fold video.
    unfold summary_of.
    cbn [App.sum_detection_timestamps App.sum_detected_frames].
    rewrite !scan_timestamps, !scan_detected.
    cbn [start App.detection_timestamps App.detected_frames App.frame_count
         app Z.add].
    assert (Hstamps :
      flat_map (frame_stamps detect1 face_distance p tolerance
                  (int (cap_fps video)))
        (sampled frame_skip 0 (cap_frames video))
      = flat_map (frame_stamps detect2 face_distance p tolerance
                    (int (cap_fps video)))
          (sampled frame_skip 0 (cap_frames video))).
    { apply flat_map_agree. intros q Hq. unfold frame_stamps.
      now rewrite (matching_agree detect1 detect2 face_distance p tolerance
                     frame_skip 0 (cap_frames video) Hagree q Hq). }
    assert (Hfaces :
      flat_map (fun q => matching detect1 face_distance p tolerance (snd q))
        (sampled frame_skip 0 (cap_frames video))
      = flat_map (fun q => matching detect2 face_distance p tolerance (snd q))
          (sampled frame_skip 0 (cap_frames video))).
    { apply flat_map_agree. intros q Hq.
      apply (matching_agree detect1 detect2 face_distance p tolerance
               frame_skip 0 (cap_frames video) Hagree q Hq). }
    split; [exact Hstamps |]. split; [now rewrite Hfaces |].
    exists p. auto.
Qed.

(** C9. [detected_frames] is the length of [detection_timestamps]: each
    step of the loop over the faces keeps the equality, so does the loop
    over the frames from any state where it holds, and it holds in the
    summary of every run that returns one; a run that meets [ready]
    returns one. *)
Theorem detected_frames_is_timestamp_count
    (detect_faces : image -> list (box * encoding)) :
  (forall the_person path tolerance fps face (s s' : @App.face_state image)
          tr tr',
      counted (snd s) ->
      App.face_body face_distance the_person path tolerance fps face s tr
      = (Ok s', tr') ->
      counted (snd s'))
  /\ (forall the_person path tolerance frame_skip fps total out frames
             l l' tr tr',
         counted l ->
         App.while_read detect_faces face_distance the_person path tolerance
           frame_skip fps total out frames l tr = (Ok l', tr') ->
         counted l')
  /\ (forall self path tolerance frame_skip tr s tr',
         App.detect_person_in_video detect_faces face_distance W self path
           tolerance frame_skip tr = (Ok (inr s), tr') ->
         App.sum_detected_frames s
         = Z.of_nat (List.length (App.sum_detection_timestamps s)))
  /\ (forall self path tolerance frame_skip tr,
         ready W self path frame_skip = true ->
         exists s tr',
           App.detect_person_in_video detect_faces face_distance W self path
             tolerance frame_skip tr = (Ok (inr s), tr')
           /\ App.sum_detected_frames s
              = Z.of_nat (List.length (App.sum_detection_timestamps s))).
Proof.
  assert (Hsum : forall self path tolerance frame_skip tr s tr',
    App.detect_person_in_video detect_faces face_distance W self path
      tolerance frame_skip tr = (Ok (inr s), tr') ->
    App.sum_detected_frames s
    = Z.of_nat (List.length (App.sum_detection_timestamps s))).
  { intros self path tolerance frame_skip tr s tr'.
    unfold App.detect_person_in_video.
    destruct (App.person_encoding self) as [p |]; [| discriminate].
    cbv beta iota delta [bind App.VideoCapture emit ret].
    destruct (negb (cap_isOpened (video_files W (App.video_path self))));
      [discriminate |].
    destruct (App.open_writer W path _) as [[out | e] tr1]; [| discriminate].
    destruct (App.while_read _ _ _ _ _ _ _ _ _ _ _ tr1) as [[l | e] tr2] eqn:E;
      [| discriminate].
    apply while_read_counted in E; [| reflexivity].
    intros H. injection H as <- _. exact E. }
  split; [| split; [| split]].
  - intros. eapply face_body_counted; eassumption.
  - intros. eapply while_read_counted; eassumption.
  - exact Hsum.
  - intros self path tolerance frame_skip tr Hready.
    destruct (ready_inv W _ _ _ Hready) as ((p & Hp) & _).
    pose proof (detect_closed detect_faces face_distance W self p path
                  tolerance frame_skip tr Hready Hp) as Hrun.
    cbv zeta in Hrun.
    eexists. eexists. split; [exact Hrun |].
    exact (Hsum _ _ _ _ _ _ _ Hrun).
Qed.




End WholeRunProperties.

(* ================================================================== *)
(** ** The properties on the concrete machine *)

(** C1. The code counts faces, not frames: on a video of one frame in
    which two faces match, [detected_frames] is 2 and the timestamp of the
    frame is appended twice, where one frame with a match should count
    once. The flag [person_found_in_frame] that the loop sets is never
    read. *)
Theorem two_matching_faces_count_twice :
  cap_frames Demo.twins = [Demo.twins_frame]
  /\ List.length
       (matching Demo.detect_faces Demo.face_distance Demo.subject (6 # 10)
          Demo.twins_frame) = 2%nat
  /\ fst (Demo.detect Demo.W "twins.mp4" "out.mp4" 1)
     = Ok (inr (App.mkSummary 1 2 [0 # 30; 0 # 30]%Q "out.mp4"
                  (Some "out_detection_frame.jpg"))).
Proof. repeat split. Qed.



(** C3 fails as stated. On a machine where no codec opens a writer the
    run returns its summary and the output video holds no frame, where
    [ceil(12 / 5) = 3] are claimed. And on a video whose container reports
    a frame count of 0 the run raises in the progress line of frame 0:
    one of the two sampled frames was written and no total is reported. *)
Lemma sampled_frames_not_always_output :
  (exists s,
      fst (Demo.detect Demo.W_no_codec "crowd.mp4" "out.mp4" 5)
      = Ok (inr s)
      /\ App.sum_total_frames s = 12)
  /\ output_video (snd (Demo.detect Demo.W_no_codec "crowd.mp4" "out.mp4" 5))
     = []
  /\ ceil_div 12 5 = 3
  /\ cap_frame_count Lab.stream = 0%Q
  /\ List.length (sampled 1 0 (cap_frames Lab.stream)) = 2%nat
  /\ fst (Demo.detect Lab.W "stream.mp4" "out.mp4" 1)
     = Raise (ZeroDivisionError "division by zero")
  /\ List.length (writes (snd (Demo.detect Lab.W "stream.mp4" "out.mp4" 1)))
     = 1%nat.
Proof.
  split; [eexists; split; vm_compute; reflexivity |].
  repeat split; vm_compute; reflexivity.
Qed.

Lemma sampled_frames_are_the_output_witness :
  ready Demo.W (Demo.detector "crowd.mp4") "out.mp4" 5 = true
  /\ isOpened (fallback_writer Demo.W "out.mp4") = true
  /\ 1 <= 5
  /\ exists s evs,
       Demo.detect Demo.W "crowd.mp4" "out.mp4" 5 = (Ok (inr s), evs)
       /\ App.sum_total_frames s = 12
       /\ Z.of_nat (List.length (output_video evs)) = ceil_div 12 5
       /\ Z.of_nat (List.length (writes evs)) = ceil_div 12 5.
Proof.
  split; [reflexivity |]. split; [reflexivity |]. split; [lia |].
  destruct (sampled_frames_are_the_output Demo.detect_faces Demo.face_distance
              Demo.W (Demo.detector "crowd.mp4") "out.mp4" (6 # 10)%Q 5 [])
    as [Hready Hreturned].
  destruct (Hready eq_refl eq_refl)
    as (s & evs & Hrun & _ & _ & Htotal & Hcount & _).
  destruct (Hreturned ltac:(lia) s _ Hrun)
    as (evs' & Hevs & _ & _ & _ & Hwrites & _).
  cbn [app] in Hevs. subst evs'.
  exists s, evs. split; [exact Hrun |]. split; [exact Htotal |].
  split; [exact Hcount | exact Hwrites].
Defined.




Lemma no_reference_face_no_scan_witness :
  image_files Demo.W "wall.png" = inl Demo.empty_frame
  /\ Demo.detect_faces Demo.empty_frame = []
  /\ App.load_person_encoding Demo.detect_faces Demo.W
       (App.__init__ "wall.png" "crowd.mp4") []
     = (Ok (App.__init__ "wall.png" "crowd.mp4",
            (false, "No face found in the person's image. Please use an image with a clear face.")),
        [EvLoadImage "wall.png"])
  /\ Cli.run_detection Demo.detect_faces Demo.face_distance Demo.W
       (Cli.mkPersonDetector "wall.png" "crowd.mp4" None "detected_frames")
       (4 # 10)%Q 20 []
     = (Ok (Cli.mkPersonDetector "wall.png" "crowd.mp4" None "detected_frames"),
        [EvLoadImage "wall.png"]).
Proof.
  split; [reflexivity |]. split; [reflexivity |].
  destruct (no_reference_face_no_scan Demo.detect_faces Demo.face_distance
              Demo.W (4 # 10)%Q 20) as (Happ & _ & Hcli).
  split.
  - exact (Happ (App.__init__ "wall.png" "crowd.mp4") Demo.empty_frame []
             eq_refl eq_refl).
  - exact (Hcli (Cli.mkPersonDetector "wall.png" "crowd.mp4" None
                   "detected_frames") Demo.empty_frame [] eq_refl eq_refl).
Defined.

(** C7 fails as stated for a video whose fps is not a whole number: at
    29.97 fps the code divides by 29, so the frame of index 1 gets the
    timestamp 1/29, which is not 1/29.97. *)
Lemma timestamp_divides_by_truncated_fps :
  cap_fps Demo.ntsc = (2997 # 100)%Q
  /\ fst (Demo.detect Demo.W "ntsc.mp4" "out.mp4" 1)
     = Ok (inr (App.mkSummary 2 1 [1 # 29]%Q "out.mp4"
                  (Some "out_detection_frame.jpg")))
  /\ ~ (1 # 29 == inject_Z 1 / cap_fps Demo.ntsc)%Q.
Proof.
  split; [reflexivity |]. split; [reflexivity |].
  intros H. vm_compute in H. discriminate H.
Qed.

Lemma timestamps_in_processing_order_witness :
  ready Demo.W (Demo.detector "crowd.mp4") "out.mp4" 2 = true
  /\ exists s evs,
       Demo.detect Demo.W "crowd.mp4" "out.mp4" 2 = (Ok (inr s), evs)
       /\ nondecreasing (App.sum_detection_timestamps s).
Proof.
  split; [reflexivity |].
  destruct (timestamps_in_processing_order Demo.detect_faces Demo.face_distance
              Demo.W (Demo.detector "crowd.mp4") Demo.subject "out.mp4"
              (6 # 10)%Q 2 [] eq_refl eq_refl)
    as (s & evs & Hrun & _ & Hsorted).
  exists s, evs. split; [exact Hrun | exact Hsorted].
Defined.

Lemma scan_is_deterministic_witness :
  (forall img,
      In img (cap_frames (video_files Demo.W "crowd.mp4")) ->
      Demo.detect_faces img = Demo.detect_faces_again img)
  /\ exists s1 s2 t1 t2,
       App.detect_person_in_video Demo.detect_faces Demo.face_distance Demo.W
         (Demo.detector "crowd.mp4") "out.mp4" (6 # 10)%Q 2 []
       = (Ok (inr s1), t1)
       /\ App.detect_person_in_video Demo.detect_faces_again
            Demo.face_distance Demo.W_no_codec (Demo.detector "crowd.mp4")
            "other.mp4" (6 # 10)%Q 2 [EvRemove "old.mp4"]
          = (Ok (inr s2), t2)
       /\ t1 <> t2
       /\ App.sum_detection_timestamps s1 = App.sum_detection_timestamps s2
       /\ App.sum_detected_frames s1 = App.sum_detected_frames s2.
Proof.
  assert (Hagree : forall img,
             In img (cap_frames (video_files Demo.W "crowd.mp4")) ->
             Demo.detect_faces img = Demo.detect_faces_again img).
  { intros img _. destruct img; reflexivity. }
  split; [exact Hagree |].
  assert (H1 : exists s1 t1,
             App.detect_person_in_video Demo.detect_faces Demo.face_distance
               Demo.W (Demo.detector "crowd.mp4") "out.mp4" (6 # 10)%Q 2 []
             = (Ok (inr s1), t1) /\ hd_error t1 = Some (EvCaptureOpen "crowd.mp4"))
    by (eexists; eexists; split; vm_compute; reflexivity).
  assert (H2 : exists s2 t2,
             App.detect_person_in_video Demo.detect_faces_again
               Demo.face_distance Demo.W_no_codec (Demo.detector "crowd.mp4")
               "other.mp4" (6 # 10)%Q 2 [EvRemove "old.mp4"]
             = (Ok (inr s2), t2) /\ hd_error t2 = Some (EvRemove "old.mp4"))
    by (eexists; eexists; split; vm_compute; reflexivity).
  destruct H1 as (s1 & t1 & H1 & Hd1). destruct H2 as (s2 & t2 & H2 & Hd2).
  exists s1, s2, t1, t2. split; [exact H1 |]. split; [exact H2 |].
  split; [intros E; rewrite E, Hd2 in Hd1; discriminate Hd1 |].
  destruct (proj2 (scan_is_deterministic Demo.face_distance Demo.W
                     Demo.detect_faces Demo.detect_faces_again
                     (Demo.detector "crowd.mp4") "out.mp4" (6 # 10)%Q 2
                     Hagree)
              Demo.W_no_codec (Demo.detector "crowd.mp4") "other.mp4"
              [] [EvRemove "old.mp4"] t1 t2 s1 s2 eq_refl eq_refl H1 H2)
    as (Hts & Hcount & _).
  split; [exact Hts | exact Hcount].
Defined.

Lemma detected_frames_is_timestamp_count_witness :
  ready Demo.W (Demo.detector "twins.mp4") "out.mp4" 1 = true
  /\ exists s tr',
       Demo.detect Demo.W "twins.mp4" "out.mp4" 1 = (Ok (inr s), tr')
       /\ App.sum_detected_frames s
          = Z.of_nat (List.length (App.sum_detection_timestamps s)).
Proof.
  split; [reflexivity |].
  exact (proj2 (proj2 (proj2
           (detected_frames_is_timestamp_count Demo.face_distance Demo.W
              Demo.detect_faces)))
           (Demo.detector "twins.mp4") "out.mp4" (6 # 10)%Q 1 [] eq_refl).
Defined.



(* ================================================================== *)
(** ** File names *)

Section FileNames.

Lemma str_in_iff (x : string) (set : list string) :
  str_in x set = true <-> In x set.
Proof.
  unfold str_in. rewrite existsb_exists. split.
  - intros (y & Hy & E). apply String.eqb_eq in E. now subst.
  - intros H. exists x. split; [exact H | apply String.eqb_refl].
Qed.

Lemma contains_dot_cons (c : ascii) (s : string) :
  contains "." (String c s) = Ascii.eqb c "." || contains "." s.
Proof.
  cbn [contains prefix]. f_equal.
  destruct (ascii_dec "." c) as [E | N].
  - subst. now destruct s.
  - symmetry. apply Ascii.eqb_neq. congruence.
Qed.

Lemma split_last_none (s : string) :
  split_last "." s = None <-> contains "." s = false.
Proof.
  induction s as [| c s IH].
  - simpl. tauto.
  - rewrite contains_dot_cons. cbn [split_last].
    destruct (split_last "." s) as [[a b] |].
    + split; [discriminate |]. intros H. apply orb_false_elim in H.
      destruct H as [_ H]. apply IH in H. discriminate.
    + destruct (Ascii.eqb c "."); simpl.
      * split; discriminate.
      * split; intros _; [now apply IH | reflexivity].
Qed.

Lemma split_last_some (s before after : string) :
  split_last "." s = Some (before, after) ->
  s = (before ++ "." ++ after)%string /\ contains "." after = false.
Proof.
  revert before. induction s as [| c s IH]; intros before; [discriminate |].
  cbn [split_last].
  destruct (split_last "." s) as [[a b] |] eqn:E.
  - intros H. injection H as <- <-.
    destruct (IH a eq_refl) as [-> Hb]. auto.
  - destruct (Ascii.eqb_spec c ".") as [-> | _]; [| discriminate].
    intros H. injection H as <- <-. split; [reflexivity |].
    now apply split_last_none.
Qed.

Lemma split_last_app (before after : string) :
  contains "." after = false ->
  split_last "." (before ++ "." ++ after) = Some (before, after).
Proof.
  intros Hafter. apply split_last_none in Hafter.
  induction before as [| c before IH].
  - simpl. now rewrite Hafter.
  - change ((String c before ++ "." ++ after)%string)
      with (String c (before ++ "." ++ after)).
    cbn [split_last]. now rewrite IH.
Qed.

(** A file is accepted exactly when its name has a dot and what follows
    the last dot is, in lower case, one of the allowed extensions. *)
Theorem allowed_file_iff (filename : string) (allowed : list string) :
  isascii filename = true ->
  (Web.allowed_file filename allowed = true
   <-> exists stem ext,
         filename = (stem ++ "." ++ ext)%string
         /\ contains "." ext = false
         /\ In (lower ext) allowed).
Proof.
  intros _. unfold Web.allowed_file, rsplit1. split.
  - intros H. apply andb_prop in H. destruct H as [Hdot Hin].
    destruct (split_last "." filename) as [[stem ext] |] eqn:E.
    + apply split_last_some in E. destruct E as [-> Hext].
      exists stem, ext. split; [reflexivity |]. split; [exact Hext |].
      now apply str_in_iff.
    + apply split_last_none in E. congruence.
  - intros (stem & ext & -> & Hext & Hin).
    rewrite (split_last_app stem ext Hext). apply andb_true_intro. split.
    + destruct (contains "." (stem ++ "." ++ ext)) eqn:E; [reflexivity |].
      apply split_last_none in E.
      rewrite (split_last_app stem ext Hext) in E. discriminate.
    + now apply str_in_iff.
Qed.

Lemma extension_of_allowed (filename : string) (allowed : list string) :
  Web.allowed_file filename allowed = true ->
  In (Web.extension filename) allowed.
Proof.
  unfold Web.allowed_file, Web.extension. intros H.
  apply andb_prop in H. destruct H as [_ H]. now apply str_in_iff.
Qed.

End FileNames.

(* ================================================================== *)
(** ** Numbers in file names *)

Section Digits.

Lemma zeros_digits (k : nat) : all_digits (zeros k) = true.
Proof. induction k; simpl; auto. Qed.

Lemma all_digits_app (a b : string) :
  all_digits (a ++ b) = all_digits a && all_digits b.
Proof.
  induction a as [| c a IH]; simpl; [reflexivity |].
  now rewrite IH, andb_assoc.
Qed.

Lemma string_of_uint_digits (d : Decimal.uint) :
  all_digits (NilEmpty.string_of_uint d) = true.
Proof. induction d; simpl; auto. Qed.

Lemma length_append (a b : string) :
  String.length (a ++ b) = (String.length a + String.length b)%nat.
Proof. induction a; simpl; auto. Qed.

Lemma zeros_length (k : nat) : String.length (zeros k) = k.
Proof. induction k; simpl; auto. Qed.

Lemma number_of_zeros (k : nat) (s : string) :
  number_of (zeros k ++ s) = number_of s.
Proof.
  induction k as [| k IH]; [reflexivity |].
  unfold number_of in *. simpl.
  destruct (NilEmpty.uint_of_string (zeros k ++ s)) as [d |];
    destruct (NilEmpty.uint_of_string s) as [d' |]; simpl in *;
    try congruence.
Qed.

Lemma digits_of_nonneg (n : Z) :
  0 <= n ->
  NilZero.string_of_uint (N.to_uint (Z.abs_N n))
  = NilEmpty.string_of_uint (N.to_uint (Z.abs_N n))
  /\ number_of (NilEmpty.string_of_uint (N.to_uint (Z.abs_N n))) = Some n.
Proof.
  intros Hn. split.
  - destruct (Z.abs_N n) as [| p]; [reflexivity |].
    simpl. pose proof (DecimalPos.Unsigned.to_uint_nonnil p) as Hp.
    unfold NilZero.string_of_uint. now destruct (Pos.to_uint p).
  - unfold number_of. rewrite NilEmpty.usu, DecimalN.Unsigned.of_to.
    f_equal. rewrite N2Z.inj_abs_N. lia.
Qed.

Lemma format_0d_facts (width : nat) (n : Z) :
  0 <= n ->
  number_of (format_0d width n) = Some n
  /\ all_digits (format_0d width n) = true
  /\ (width <= String.length (format_0d width n))%nat.
Proof.
  intros Hn. unfold format_0d.
  destruct (Z.ltb_spec n 0) as [Hneg | _]; [lia |].
  destruct (digits_of_nonneg n Hn) as [-> Hread].
  split; [| split].
  - now rewrite number_of_zeros.
  - now rewrite all_digits_app, zeros_digits, string_of_uint_digits.
  - rewrite length_append, zeros_length. lia.
Qed.

(** Formatting a count that is not negative: the text has only digits, is
    at least [width] long, and reads back as the count. *)
Theorem format_0d_reads_back (width : nat) (n : Z) :
  0 <= n ->
  number_of (format_0d width n) = Some n
  /\ all_digits (format_0d width n) = true
  /\ (width <= String.length (format_0d width n))%nat.
Proof. apply format_0d_facts. Qed.

Lemma format_0d_inj (w w' : nat) (n n' : Z) :
  0 <= n -> 0 <= n' -> format_0d w n = format_0d w' n' -> n = n'.
Proof.
  intros Hn Hn' E.
  destruct (format_0d_facts w n Hn) as [H _].
  destruct (format_0d_facts w' n' Hn') as [H' _].
  rewrite E in H. congruence.
Qed.

Lemma append_inj_l (a x y : string) : (a ++ x = a ++ y)%string -> x = y.
Proof.
  induction a as [| c a IH]; simpl; [auto |].
  intros E. injection E as E. auto.
Qed.

(** Two texts of digits, each followed by a character that is no digit. *)
Lemma digits_split (a b : string) (c : ascii) (x y : string) :
  all_digits a = true -> all_digits b = true -> is_digit c = false ->
  (a ++ String c x = b ++ String c y)%string -> a = b /\ x = y.
Proof.
  revert b. induction a as [| ca a IH]; intros b Ha Hb Hc E.
  - destruct b as [| cb b]; simpl in E.
    + injection E as E. auto.
    + injection E as E1 E2. subst cb. simpl in Hb.
      rewrite Hc in Hb. discriminate.
  - destruct b as [| cb b]; simpl in E.
    + injection E as E1 E2. subst ca. simpl in Ha.
      rewrite Hc in Ha. discriminate.
    + injection E as E1 E2. subst cb. simpl in Ha, Hb.
      apply andb_prop in Ha. apply andb_prop in Hb.
      destruct (IH b (proj2 Ha) (proj2 Hb) Hc E2) as [-> ->]. auto.
Qed.

Lemma saved_frame_path_inj (dir : string) (fc fc' df df' : Z) :
  0 <= fc -> 0 <= fc' -> 0 <= df -> 0 <= df' ->
  saved_frame_path dir fc df = saved_frame_path dir fc' df' ->
  fc = fc' /\ df = df'.
Proof.
  intros Hfc Hfc' Hdf Hdf'. unfold saved_frame_path, App.path_join.
  intros E. apply append_inj_l in E.
  apply (append_inj_l "/frame_") in E.
  destruct (format_0d_facts 6 fc Hfc) as (_ & D1 & _).
  destruct (format_0d_facts 6 fc' Hfc') as (_ & D1' & _).
  destruct (format_0d_facts 3 df Hdf) as (_ & D2 & _).
  destruct (format_0d_facts 3 df' Hdf') as (_ & D2' & _).
  apply (digits_split _ _ "_") in E; [| assumption | assumption | reflexivity].
  destruct E as [E1 E2]. apply (append_inj_l "detection_") in E2.
  apply (digits_split _ _ ".") in E2; [| assumption | assumption | reflexivity].
  destruct E2 as [E2 _].
  split; eapply format_0d_inj; eassumption.
Qed.

End Digits.

(* ================================================================== *)
(** ** The events of an action, however it ends *)

Section EventClasses.

Context {image : Type}.
Variable P : event image -> bool.

Lemma emits_only_ret {A : Type} (a : A) : emits_only P (ret a).
Proof.
  intros tr r tr' E. unfold ret in E. injection E as <- <-.
  exists []. now rewrite app_nil_r.
Qed.

Lemma emits_only_lift {A : Type} (x : result A) : emits_only P (lift x).
Proof.
  intros tr r tr' E. unfold lift in E. injection E as <- <-.
  exists []. now rewrite app_nil_r.
Qed.

Lemma emits_only_raise {A : Type} (e : exn) :
  emits_only P (raise (A := A) e).
Proof.
  intros tr r tr' E. unfold raise in E. injection E as <- <-.
  exists []. now rewrite app_nil_r.
Qed.

Lemma emits_only_emit (e : event image) :
  P e = true -> emits_only P (emit e).
Proof.
  intros He tr r tr' E. unfold emit in E. injection E as <- <-.
  exists [e]. simpl. now rewrite He.
Qed.

Lemma emits_only_bind {A B : Type} (m : IO (event image) A)
    (k : A -> IO (event image) B) :
  emits_only P m -> (forall a, emits_only P (k a)) -> emits_only P (bind m k).
Proof.
  intros Hm Hk tr r tr' E. unfold bind in E.
  destruct (m tr) as [[a | e] tr1] eqn:E1;
    destruct (Hm _ _ _ E1) as (evs1 & -> & H1).
  - destruct (Hk a _ _ _ E) as (evs2 & -> & H2).
    exists (evs1 ++ evs2). rewrite app_assoc, forallb_app, H1, H2. auto.
  - injection E as <- <-. exists evs1. auto.
Qed.

End EventClasses.

Section ScanEvents.

Context {image : Type} {encoding : Type}.
Variable detect_faces : image -> list (box * encoding).
Variable face_distance : encoding -> encoding -> Q.
Variable W : world image.

Variable the_person : encoding.
Variable output_video_path : string.
Variable tolerance : Q.
Variable frame_skip : Z.
Variable fps : Z.
Variable total_frames : Z.
Variable out : writer.

Lemma face_body_events (face : box * encoding) (s : @App.face_state image) :
  emits_only is_frame_output
    (App.face_body face_distance the_person output_video_path tolerance fps
       face s).
Proof.
  destruct face as [location enc]. destruct s as [[f found] l].
  unfold App.face_body.
  destruct (hd false _); [| apply emits_only_ret].
  apply emits_only_bind; [apply emits_only_lift |]. intros timestamp.
  destruct (App.detection_frame_path l); [apply emits_only_ret |].
  apply emits_only_bind; [| intros _; apply emits_only_ret].
  unfold App.imwrite.
  destruct (Cv.has_encoder _);
    [now apply emits_only_emit | apply emits_only_raise].
Qed.

Lemma for_faces_events (faces : list (box * encoding)) :
  forall s : @App.face_state image,
    emits_only is_frame_output
      (App.for_faces face_distance the_person output_video_path tolerance fps
         faces s).
Proof.
  induction faces as [| face rest IH]; intros s; simpl.
  - apply emits_only_ret.
  - apply emits_only_bind; [apply face_body_events | exact IH].
Qed.

Lemma loop_body_events (img : image) (l : App.locals) :
  emits_only is_frame_output
    (App.loop_body detect_faces face_distance the_person output_video_path
       tolerance frame_skip fps total_frames out img l).
Proof.
  unfold App.loop_body.
  apply emits_only_bind; [apply emits_only_lift |]. intros r.
  apply emits_only_bind; [| intros; apply emits_only_ret].
  destruct (r =? 0); [| apply emits_only_ret].
  apply emits_only_bind; [apply for_faces_events |].
  intros [[f found] l1].
  apply emits_only_bind; [now apply emits_only_emit |]. intros _.
  apply emits_only_bind; [apply emits_only_lift |]. intros r100.
  destruct (r100 =? 0); [| apply emits_only_ret].
  apply emits_only_bind; [apply emits_only_lift |].
  intros _. apply emits_only_ret.
Qed.

Lemma while_read_events (frames : list image) :
  forall l,
    emits_only is_frame_output
      (App.while_read detect_faces face_distance the_person output_video_path
         tolerance frame_skip fps total_frames out frames l).
Proof.
  induction frames as [| img rest IH]; intros l; simpl.
  - apply emits_only_ret.
  - apply emits_only_bind; [apply loop_body_events | exact IH].
Qed.

Lemma open_writer_events (path : string) (width height : Z) :
  emits_only (image := image) is_writer_init
    (App.open_writer W path fps width height).
Proof.
  intros tr r tr'. rewrite open_writer_cases. cbv zeta.
  destruct (codec_init W path avc1); destruct (codec_init W path mp4v);
    intros E; injection E as <- <-; eexists; split; reflexivity.
Qed.

(** *** What the loop keeps true of the locals *)

#[local] Notation "'agree'" :=
  (detection_fields_agree
     (replace output_video_path ".mp4" "_detection_frame.jpg")).

Lemma face_body_agree (face : box * encoding) (s s' : @App.face_state image)
    (tr tr' : list (event image)) :
  agree (snd s) ->
  App.face_body face_distance the_person output_video_path tolerance fps
    face s tr = (Ok s', tr') ->
  agree (snd s') /\ App.frame_count (snd s') = App.frame_count (snd s).
Proof.
  destruct s as [[f found] l]. cbn [snd]. intros (Hc & Hn & Hp).
  destruct (within_tolerance face_distance the_person tolerance face) eqn:Hm.
  - intros E.
    destruct (face_body_returns _ _ _ _ _ _ _ _ _ _ _ _ E Hm) as [-> _].
    cbn [snd]. split; [| now destruct l].
    unfold detection_fields_agree, after_matches, snapshot_path.
    cbn [App.detected_frames App.detection_timestamps App.detection_frame_path
         List.length repeat].
    rewrite length_app, Hc. cbn [List.length].
    split; [lia |]. split.
    + split; [now destruct (App.detection_frame_path l) | lia].
    + right. destruct (App.detection_frame_path l) as [q |] eqn:Hl;
        [| reflexivity].
      destruct Hp as [Hp | Hp]; [discriminate | exact Hp].
  - rewrite face_body_no_match by exact Hm. intros E. injection E as <- _.
    split; [exact (conj Hc (conj Hn Hp)) | reflexivity].
Qed.

Lemma for_faces_agree (faces : list (box * encoding)) :
  forall (s s' : @App.face_state image) (tr tr' : list (event image)),
    agree (snd s) ->
    App.for_faces face_distance the_person output_video_path tolerance fps
      faces s tr = (Ok s', tr') ->
    agree (snd s') /\ App.frame_count (snd s') = App.frame_count (snd s).
Proof.
  induction faces as [| face rest IH]; intros s s' tr tr' Hs; simpl.
  - unfold ret. intros E. injection E as <- _. auto.
  - unfold bind.
    destruct (App.face_body _ _ _ _ _ face s tr) as [[s1 | e] tr1] eqn:E1;
      [| discriminate].
    destruct (face_body_agree _ _ _ _ _ Hs E1) as [H1 F1]. intros E.
    destruct (IH _ _ _ _ H1 E) as [H2 F2]. split; [exact H2 | congruence].
Qed.

Lemma loop_body_agree (img : image) (l l' : App.locals)
    (tr tr' : list (event image)) :
  agree l ->
  App.loop_body detect_faces face_distance the_person output_video_path
    tolerance frame_skip fps total_frames out img l tr = (Ok l', tr') ->
  agree l' /\ App.frame_count l' = App.frame_count l + 1.
Proof.
  intros Hl. unfold App.loop_body, bind, lift.
  destruct (mod_ (App.frame_count l) frame_skip) as [r | e]; [| discriminate].
  destruct (r =? 0).
  - destruct (App.for_faces _ _ _ _ _ (detect_faces img) _ tr)
      as [[[[f found] l1] | e] tr1] eqn:E1; [| discriminate].
    destruct (for_faces_agree _ (mkFrame img [], false, l) _ _ _ Hl E1)
      as [H1 F1]. simpl in H1, F1.
    unfold emit.
    destruct (mod_ (App.frame_count l1) 100) as [r100 | e]; [| discriminate].
    destruct (r100 =? 0).
    + destruct (truediv (App.frame_count l1) total_frames); [| discriminate].
      unfold ret. intros E. injection E as <- _. simpl.
      split; [exact H1 | lia].
    + unfold ret. intros E. injection E as <- _. simpl.
      split; [exact H1 | lia].
  - unfold ret. intros E. injection E as <- _. simpl.
    split; [exact Hl | reflexivity].
Qed.

Lemma while_read_agree_fields (frames : list image) :
  forall (l l' : App.locals) (tr tr' : list (event image)),
    agree l ->
    App.while_read detect_faces face_distance the_person output_video_path
      tolerance frame_skip fps total_frames out frames l tr = (Ok l', tr') ->
    agree l'
    /\ App.frame_count l' = App.frame_count l + Z.of_nat (List.length frames).
Proof.
  induction frames as [| img rest IH]; intros l l' tr tr' Hl; simpl.
  - unfold ret. intros E. injection E as <- _. split; [exact Hl | lia].
  - unfold bind.
    destruct (App.loop_body _ _ _ _ _ _ _ _ _ img l tr) as [[l1 | e] tr1] eqn:E1;
      [| discriminate].
    destruct (loop_body_agree _ _ _ _ _ Hl E1) as [H1 F1]. intros E.
    destruct (IH _ _ _ _ H1 E) as [H2 F2]. split; [exact H2 | lia].
Qed.

End ScanEvents.


(* ================================================================== *)
(** ** More properties of [detect_person_in_video] *)

Section MoreRunProperties.

Context {image : Type} {encoding : Type}.
Variable detect_faces : image -> list (box * encoding).
Variable face_distance : encoding -> encoding -> Q.
Variable W : world image.

#[local] Notation "'detect_person_in_video'" :=
  (App.detect_person_in_video detect_faces face_distance W).

Lemma class_excludes (P Q : event image -> bool) (evs : list (event image)) :
  (forall e, P e = true -> Q e = false) ->
  forallb P evs = true -> existsb Q evs = false.
Proof.
  intros Hpq. induction evs as [| x evs IH]; [reflexivity |].
  simpl. intros H. apply andb_prop in H. destruct H as [Hx Hrest].
  now rewrite (Hpq x Hx), (IH Hrest).
Qed.

Lemma run_shape (self : @App.PersonDetector encoding) (path : string)
    (tolerance : Q) (frame_skip : Z) (tr : list (event image)) :
  let run := detect_person_in_video self path tolerance frame_skip tr in
  let v := App.video_path self in
  exists evs,
    snd run = tr ++ evs
    /\ match fst run with
       | Ok (inl msg) =>
           (App.person_encoding self = None /\ evs = []
            /\ msg = "Person encoding not loaded.")
           \/ (cap_isOpened (video_files W v) = false
               /\ evs = [EvCaptureOpen v]
               /\ msg = "Could not open video file.")
       | Ok (inr s) =>
           exists inits scan out,
             evs = EvCaptureOpen v :: inits ++ scan
                     ++ [EvCaptureRelease v; EvWriterRelease out]
             /\ forallb is_writer_init inits = true
             /\ forallb is_frame_output scan = true
       | Raise e =>
           exists inits scan,
             evs = EvCaptureOpen v :: inits ++ scan
             /\ forallb is_writer_init inits = true
             /\ forallb is_frame_output scan = true
             /\ existsb is_release evs = false
       end.
Proof.
  cbv zeta. unfold App.detect_person_in_video.
  destruct (App.person_encoding self) as [p |].
  2:{ exists []. rewrite app_nil_r. simpl. auto. }
  cbv beta iota delta [bind App.VideoCapture emit ret].
  destruct (cap_isOpened (video_files W (App.video_path self))) eqn:Hopen.
  2:{ eexists. simpl. split; [reflexivity |]. right. auto. }
  cbv beta iota delta [negb].
  set (video := video_files W (App.video_path self)).
  destruct (App.open_writer W path _ _ _ _) as [[out | e] tr1] eqn:Ew;
    destruct (open_writer_events W _ _ _ _ _ _ _ Ew) as (inits & -> & Hinits).
  2:{ simpl. exists (EvCaptureOpen (App.video_path self) :: inits).
      rewrite <- app_assoc. split; [reflexivity |].
      exists inits, []. rewrite app_nil_r. repeat split; auto.
      simpl. apply (class_excludes is_writer_init); [| exact Hinits].
      now intros []. }
  destruct (App.while_read _ _ _ _ _ _ _ _ _ _ _ _) as [[l | e] tr2] eqn:Es;
    destruct (while_read_events _ _ _ _ _ _ _ _ _ _ _ _ _ _ Es)
      as (scan & -> & Hscan); simpl.
  - eexists. rewrite <- !app_assoc. split; [reflexivity |].
    exists inits, scan, out. auto.
  - eexists. rewrite <- !app_assoc. split; [reflexivity |].
    exists inits, scan. repeat split; auto.
    simpl. rewrite existsb_app. apply orb_false_intro.
    + apply (class_excludes is_writer_init); [| exact Hinits]. now intros [].
    + apply (class_excludes is_frame_output); [| exact Hscan]. now intros [].
Qed.

(** The events of a run come in a fixed order, however it ends: the
    capture is opened, then the writer is constructed (one to three
    attempts), then frames and at most images are written, and only a run
    that returns its summary releases the capture and the writer. A run
    that raises, or that cannot open the video, releases nothing. *)
Theorem run_protocol (self : @App.PersonDetector encoding) (path : string)
    (tolerance : Q) (frame_skip : Z) (tr : list (event image)) :
  let run := detect_person_in_video self path tolerance frame_skip tr in
  let v := App.video_path self in
  exists evs,
    snd run = tr ++ evs
    /\ match fst run with
       | Ok (inl msg) =>
           (App.person_encoding self = None /\ evs = []
            /\ msg = "Person encoding not loaded.")
           \/ (cap_isOpened (video_files W v) = false
               /\ evs = [EvCaptureOpen v]
               /\ msg = "Could not open video file.")
       | Ok (inr s) =>
           exists inits scan out,
             evs = EvCaptureOpen v :: inits ++ scan
                     ++ [EvCaptureRelease v; EvWriterRelease out]
             /\ forallb is_writer_init inits = true
             /\ forallb is_frame_output scan = true
       | Raise e =>
           exists inits scan,
             evs = EvCaptureOpen v :: inits ++ scan
             /\ forallb is_writer_init inits = true
             /\ forallb is_frame_output scan = true
             /\ existsb is_release evs = false
       end.
Proof. apply run_shape. Qed.

Lemma summary_fields (self : @App.PersonDetector encoding)
    (path : string) (tolerance : Q) (frame_skip : Z)
    (tr tr' : list (event image)) (s : App.summary) :
  detect_person_in_video self path tolerance frame_skip tr = (Ok (inr s), tr') ->
  (App.sum_detection_frame_path s = None <-> App.sum_detected_frames s = 0)
  /\ (App.sum_detected_frames s = 0 <-> App.sum_detection_timestamps s = [])
  /\ (App.sum_detection_frame_path s = None
      \/ App.sum_detection_frame_path s
         = Some (replace path ".mp4" "_detection_frame.jpg"))
  /\ App.sum_output_video_path s = path
  /\ App.sum_total_frames s
     = Z.of_nat (List.length (cap_frames (video_files W (App.video_path self)))).
Proof.
  unfold App.detect_person_in_video.
  destruct (App.person_encoding self) as [p |]; [| discriminate].
  cbv beta iota delta [bind App.VideoCapture emit ret].
  destruct (negb (cap_isOpened (video_files W (App.video_path self))));
    [discriminate |].
  destruct (App.open_writer W path _ _ _ _) as [[out | e] tr1]; [| discriminate].
  destruct (App.while_read _ _ _ _ _ _ _ _ _ _ _ tr1) as [[l | e] tr2] eqn:E;
    [| discriminate].
  apply while_read_agree_fields in E.
  2:{ unfold detection_fields_agree. simpl. repeat split; auto. }
  destruct E as [(Hc & Hn & Hp) Hfc]. simpl in Hfc.
  intros H. injection H as <- _. simpl.
  split; [exact Hn |]. split; [| split; [exact Hp |]; split; [reflexivity |]; exact Hfc].
  rewrite Hc. destruct (App.detection_timestamps l); simpl; split;
    try reflexivity; try discriminate; lia.
Qed.

(** In the summary of any run that returns one: the snapshot path is
    absent exactly when [detected_frames] is 0, which is exactly when
    there is no timestamp; a snapshot path is the output path with
    [".mp4"] replaced; [output_video_path] is the path that was asked for
    and [total_frames] is the number of frames the capture gave. *)
Theorem returned_summary_fields (self : @App.PersonDetector encoding)
    (path : string) (tolerance : Q) (frame_skip : Z)
    (tr tr' : list (event image)) (s : App.summary) :
  detect_person_in_video self path tolerance frame_skip tr = (Ok (inr s), tr') ->
  (App.sum_detection_frame_path s = None <-> App.sum_detected_frames s = 0)
  /\ (App.sum_detected_frames s = 0 <-> App.sum_detection_timestamps s = [])
  /\ (App.sum_detection_frame_path s = None
      \/ App.sum_detection_frame_path s
         = Some (replace path ".mp4" "_detection_frame.jpg"))
  /\ App.sum_output_video_path s = path
  /\ App.sum_total_frames s
     = Z.of_nat (List.length (cap_frames (video_files W (App.video_path self)))).
Proof. apply summary_fields. Qed.

(** A video that reports less than one frame per second (and a frame
    count whose integer part is not 0) cannot be scanned for a person who
    is in it: at the first match the code divides the frame index by
    [int(fps) = 0]. The run raises [ZeroDivisionError] there: the frames
    given to the writer are the sampled frames that come before the first
    one with a match, unmarked; no snapshot is written and nothing is
    released. *)
Theorem slow_video_raises_at_first_match
    (self : @App.PersonDetector encoding) (the_person : encoding)
    (path : string) (tolerance : Q) (frame_skip : Z)
    (tr : list (event image)) :
  let video := video_files W (App.video_path self) in
  App.person_encoding self = Some the_person ->
  cap_isOpened video = true ->
  int (cap_fps video) = 0 ->
  int (cap_frame_count video) <> 0 ->
  1 <= frame_skip ->
  writer_returned W path = true ->
  first_match detect_faces face_distance the_person tolerance
    (sampled frame_skip 0 (cap_frames video)) <> None ->
  exists evs,
    detect_person_in_video self path tolerance frame_skip tr
    = (Raise (ZeroDivisionError "division by zero"), tr ++ evs)
    /\ writes evs
       = map (fun q => (fallback_writer W path, mkFrame (snd q) []))
           (before_first_match detect_faces face_distance the_person tolerance
              (sampled frame_skip 0 (cap_frames video)))
    /\ imwrites evs = []
    /\ existsb is_release evs = false.
Proof.
  intros video Hp Hopen Hfps Htot Hk Hw Hsome.
  pose proof (detect_stops_at_first_match detect_faces face_distance W self
                the_person path tolerance frame_skip tr) as Hrun.
  cbv zeta in Hrun. fold video in Hrun.
  rewrite (Hrun Hp Hopen ltac:(lia) Htot Hw (or_introl Hfps) Hsome).
  rewrite Hfps. cbn [Z.eqb].
  eexists. split; [reflexivity |].
  destruct (stopped_run_events W (App.video_path self) path 0
              (int (cap_width video), int (cap_height video))
              (fallback_writer W path)
              (before_first_match detect_faces face_distance the_person
                 tolerance (sampled frame_skip 0 (cap_frames video))))
    as (Himw & Hwrites & Hrel).
  cbv zeta in Himw, Hwrites, Hrel. auto.
Qed.

(** A video whose container reports no frame count (it reads as 0)
    cannot be scanned either, when its rate is at least 1 and the
    snapshot path can be encoded: after the first frame is written the
    progress line divides by [total_frames = 0]. The run raises
    [ZeroDivisionError] with exactly that one frame given to the writer. *)
Theorem unknown_frame_count_raises_after_first_frame
    (self : @App.PersonDetector encoding) (the_person : encoding)
    (path : string) (tolerance : Q) (frame_skip : Z)
    (img : image) (rest : list image) (tr : list (event image)) :
  App.person_encoding self = Some the_person ->
  cap_isOpened (video_files W (App.video_path self)) = true ->
  int (cap_fps (video_files W (App.video_path self))) <> 0 ->
  Cv.has_encoder (snapshot_path path) = true ->
  int (cap_frame_count (video_files W (App.video_path self))) = 0 ->
  cap_frames (video_files W (App.video_path self)) = img :: rest ->
  frame_skip <> 0 ->
  writer_returned W path = true ->
  exists evs,
    detect_person_in_video self path tolerance frame_skip tr
    = (Raise (ZeroDivisionError "division by zero"), tr ++ evs)
    /\ map (fun w => pixels (snd w)) (writes evs) = [img].
Proof.
  intros Hp Hopen Hfps Henc Htot Hframes Hk Hw.
  unfold App.detect_person_in_video. rewrite Hp.
  cbv beta iota delta [bind App.VideoCapture emit ret].
  rewrite Hopen, Htot, Hframes. cbv beta iota delta [negb].
  rewrite (open_writer_closed _ _ _ _ _ _ Hw).
  simpl App.while_read. unfold bind at 1. unfold App.loop_body.
  unfold bind at 1. unfold lift at 1. rewrite (mod_nonzero _ _ Hk).
  simpl App.frame_count. rewrite Z.mod_0_l by exact Hk. simpl (0 =? 0).
  unfold bind at 1. unfold bind at 1.
  rewrite (for_faces_closed face_distance the_person path tolerance _ Hfps Henc).
  unfold bind at 1. unfold emit at 1. unfold bind at 1. unfold lift at 1.
  simpl. eexists. rewrite <- !app_assoc. split; [reflexivity |].
  rewrite !writes_app.
  destruct (writer_events_writes W path
              (int (cap_fps (video_files W (App.video_path self))))
              (int (cap_width (video_files W (App.video_path self))),
               int (cap_height (video_files W (App.video_path self)))))
    as [-> _].
  unfold snapshot_of. simpl.
  now destruct (filter _ (detect_faces img)).
Qed.

(** What each written frame shows: a sampled frame is written with a
    rectangle, the label and the time text of its own timestamp for each of
    its matching faces, in the order of detection, and with nothing else;
    a sampled frame without a match is written as it was read. *)
Theorem written_frames_carry_their_marks
    (self : @App.PersonDetector encoding) (the_person : encoding)
    (path : string) (tolerance : Q) (frame_skip : Z)
    (tr : list (event image)) :
  ready W self path frame_skip = true ->
  App.person_encoding self = Some the_person ->
  isOpened (fallback_writer W path) = true ->
  let video := video_files W (App.video_path self) in
  exists s evs,
    detect_person_in_video self path tolerance frame_skip tr
    = (Ok (inr s), tr ++ evs)
    /\ output_video evs
       = map (fun p =>
                mkFrame (snd p)
                  (flat_map
                     (fun face =>
                        [Rectangle (fst face); PersonFound (fst face);
                         TimeText (fst face)
                           (inject_Z (fst p) / inject_Z (int (cap_fps video)))%Q])
                     (filter
                        (fun face =>
                           Qle_bool (face_distance the_person (snd face))
                             tolerance)
                        (detect_faces (snd p)))))
           (sampled frame_skip 0 (cap_frames video)).
Proof.
  intros Hready Hp Hout video.
  eexists. eexists. split.
  { apply (detect_closed detect_faces face_distance W self the_person);
      assumption. }
  destruct (run_writes W (App.video_path self) path
              (int (cap_fps video))
              (int (cap_width video), int (cap_height video))
              (fallback_writer W path)
              (scan_events detect_faces face_distance the_person path
                 tolerance frame_skip (int (cap_fps video))
                 (fallback_writer W path) (cap_frames video) start))
    as [Hw _].
  rewrite scan_writes in Hw. simpl App.frame_count in Hw.
  apply output_video_written in Hw. rewrite Hout in Hw.
  fold video. rewrite Hw. reflexivity.
Qed.

End MoreRunProperties.

(* ================================================================== *)
(** ** The command line tool *)

Section ToolFacts.

Context {image : Type} {encoding : Type}.
Variable detect_faces : image -> list (box * encoding).
Variable face_distance : encoding -> encoding -> Q.
Variable W : world image.

Variable the_person : encoding.
Variable dir : string.
Variable tolerance : Q.
Variable frame_skip : Z.

#[local] Notation "'matches'" :=
  (within_tolerance face_distance the_person tolerance).
#[local] Notation "'matching_in'" :=
  (matching detect_faces face_distance the_person tolerance).

Lemma numbered_paths_app (a b : list Z) :
  forall first,
    numbered_paths dir first (a ++ b)
    = numbered_paths dir first a
        ++ numbered_paths dir (first + Z.of_nat (List.length a)) b.
Proof.
  induction a as [| x a IH]; intros first.
  - simpl. now rewrite Z.add_0_r.
  - cbn [app numbered_paths]. rewrite IH.
    replace (first + Z.of_nat (List.length (x :: a)))
      with (first + 1 + Z.of_nat (List.length a))
      by (cbn [List.length]; lia).
    reflexivity.
Qed.

Lemma numbered_paths_repeat_succ (fc first : Z) (n : nat) :
  saved_frame_path dir fc first :: numbered_paths dir (first + 1) (repeat fc n)
  = numbered_paths dir first (repeat fc (S n)).
Proof. reflexivity. Qed.

Lemma numbered_paths_In (p : string) (fcs : list Z) :
  forall first,
    In p (numbered_paths dir first fcs) ->
    exists fc j, In fc fcs /\ first <= j /\ p = saved_frame_path dir fc j.
Proof.
  induction fcs as [| fc fcs IH]; intros first; simpl; [contradiction |].
  intros [<- | H].
  - exists fc, first. repeat split; auto. lia.
  - destruct (IH _ H) as (fc' & j & Hin & Hj & ->).
    exists fc', j. repeat split; auto. lia.
Qed.

Lemma numbered_paths_NoDup (fcs : list Z) :
  Forall (fun fc => 0 <= fc) fcs ->
  forall first, 0 <= first -> NoDup (numbered_paths dir first fcs).
Proof.
  induction 1 as [| fc fcs Hfc Hall IH]; intros first Hfirst; simpl.
  - constructor.
  - constructor; [| apply IH; lia].
    intros Hin. apply numbered_paths_In in Hin.
    destruct Hin as (fc' & j & Hin & Hj & E).
    apply saved_frame_path_inj in E; try lia.
    rewrite Forall_forall in Hall. now apply Hall.
Qed.

Lemma after_last_dot_app (s t e : string) :
  Cv.after_last_dot t = Some e -> Cv.after_last_dot (s ++ t) = Some e.
Proof.
  intros H. induction s as [| c s IH]; [exact H |].
  cbn [append Cv.after_last_dot]. now rewrite IH.
Qed.

(** The images of the tool are saved as [.jpg], which OpenCV encodes. *)
Lemma saved_frame_path_encoder (fc df : Z) :
  Cv.has_encoder (saved_frame_path dir fc df) = true.
Proof.
  unfold Cv.has_encoder, saved_frame_path, App.path_join.
  rewrite (after_last_dot_app _ _ "jpg"); [reflexivity |].
  do 5 apply after_last_dot_app. reflexivity.
Qed.

Lemma tool_for_faces_closed (faces : list (box * encoding)) :
  forall (f : frame image) (fc df : Z) (tr : list (event image)),
    exists f' evs,
      Cli.for_faces face_distance the_person dir tolerance faces (f, fc, df) tr
      = (Ok (f', fc, df + Z.of_nat (List.length (filter matches faces))),
         tr ++ evs)
      /\ map fst (imwrites evs)
         = numbered_paths dir df
             (repeat fc (List.length (filter matches faces)))
      /\ List.length evs = List.length (imwrites evs).
Proof.
  induction faces as [| face rest IH]; intros f fc df tr.
  - exists f, []. simpl. unfold ret. rewrite app_nil_r, Z.add_0_r. auto.
  - simpl Cli.for_faces. unfold bind. simpl filter.
    destruct (matches face) eqn:Hm.
    + destruct face as [location enc].
      unfold within_tolerance in Hm. simpl in Hm.
      unfold Cli.face_body, App.compare_faces. cbn [map hd]. rewrite Hm.
      unfold App.imwrite.
      change (App.path_join dir
                ("frame_" ++ format_0d 6 fc ++ "_detection_"
                   ++ format_0d 3 df ++ ".jpg")%string)
        with (saved_frame_path dir fc df).
      rewrite saved_frame_path_encoder.
      unfold bind, emit, ret.
      destruct (IH (App.draw f [Rectangle location; PersonFound location])
                  fc (df + 1)
                  (tr ++ [EvImwrite (saved_frame_path dir fc df)
                            (App.draw f [Rectangle location; PersonFound location])]))
        as (f' & evs & Hrun & Hpaths & Hlen).
      unfold saved_frame_path in *. rewrite Hrun.
      eexists. eexists. split.
      * rewrite <- app_assoc. f_equal. f_equal. f_equal.
        simpl List.length. lia.
      * simpl. rewrite Hpaths, Hlen. auto.
    + destruct face as [location enc].
      unfold within_tolerance in Hm. simpl in Hm.
      unfold Cli.face_body, App.compare_faces. cbn [map hd]. rewrite Hm.
      unfold ret. apply IH.
Qed.

Lemma tool_while_read_closed (Hk : frame_skip <> 0) (frames : list image) :
  forall (fc df : Z) (tr : list (event image)),
    exists evs,
      let saved :=
        flat_map (fun p => repeat (fst p) (List.length (matching_in (snd p))))
          (sampled frame_skip fc frames) in
      Cli.while_read detect_faces face_distance the_person dir tolerance
        frame_skip frames (fc, df) tr
      = (Ok (fc + Z.of_nat (List.length frames),
             df + Z.of_nat (List.length saved)),
         tr ++ evs)
      /\ map fst (imwrites evs) = numbered_paths dir df saved
      /\ List.length evs = List.length (imwrites evs).
Proof.
  induction frames as [| img rest IH]; intros fc df tr.
  - exists []. simpl. unfold ret. rewrite app_nil_r, !Z.add_0_r. auto.
  - cbv zeta. rewrite sampled_cons. simpl Cli.while_read.
    unfold bind at 1. unfold Cli.loop_body.
    unfold bind at 1. unfold lift at 1. rewrite (mod_nonzero _ _ Hk).
    replace (fc + Z.of_nat (List.length (img :: rest)))
      with (fc + 1 + Z.of_nat (List.length rest))
      by (cbn [List.length]; lia).
    destruct (fc mod frame_skip =? 0).
    + unfold bind at 1. unfold bind at 1.
      destruct (tool_for_faces_closed (detect_faces img) (mkFrame img []) fc df tr)
        as (f' & evs1 & Hfaces & Hpaths1 & Hlen1).
      rewrite Hfaces. unfold bind at 1. unfold lift at 1.
      rewrite mod_nonzero by discriminate. unfold ret at 1. unfold ret at 1.
      destruct (IH (fc + 1)
                  (df + Z.of_nat (List.length (filter matches (detect_faces img))))
                  (tr ++ evs1))
        as (evs2 & Hrest & Hpaths2 & Hlen2).
      cbv zeta in Hrest. rewrite Hrest.
      exists (evs1 ++ evs2). split; [| split].
      * rewrite <- app_assoc. f_equal. f_equal. f_equal.
        simpl flat_map. rewrite length_app, repeat_length.
        unfold matching. lia.
      * rewrite imwrites_app, map_app, Hpaths1, Hpaths2.
        simpl flat_map. rewrite numbered_paths_app, repeat_length.
        reflexivity.
      * rewrite imwrites_app, !length_app. lia.
    + unfold ret at 1. unfold ret at 1. apply IH.
Qed.

End ToolFacts.

Section ToolProperties.

Context {image : Type} {encoding : Type}.
Variable detect_faces : image -> list (box * encoding).
Variable face_distance : encoding -> encoding -> Q.
Variable W : world image.

Lemma sampled_from_zero_nonneg {A : Type} (k : Z) (l : list A)
    (counts : Z * A -> nat) :
  Forall (fun fc => 0 <= fc)
    (flat_map (fun p => repeat (fst p) (counts p)) (sampled k 0 l)).
Proof.
  apply Forall_forall. intros fc Hin. apply in_flat_map in Hin.
  destruct Hin as ([i x] & Hin & Hrep). apply repeat_spec in Hrep.
  apply sampled_In in Hin. simpl in Hrep. lia.
Qed.

(** The command line scan saves one image for each matching face of each
    sampled frame and nothing else: the image of the [j]-th detection
    (counting from 0) in the frame of index [i] goes to
    [<output_dir>/frame_<i>_detection_<j>.jpg], and no two images of a run
    go to the same path. *)
Theorem tool_saves_each_detection_once (self : @Cli.PersonDetector encoding)
    (the_person : encoding) (tolerance : Q) (frame_skip : Z)
    (tr : list (event image)) :
  Cli.person_encoding self = Some the_person ->
  cap_isOpened (video_files W (Cli.video_path self)) = true ->
  frame_skip <> 0 ->
  exists evs,
    Cli.detect_person_in_video detect_faces face_distance W self tolerance
      frame_skip tr
    = (Ok tt,
       tr ++ EvCaptureOpen (Cli.video_path self) :: evs
          ++ [EvCaptureRelease (Cli.video_path self)])
    /\ map fst (imwrites evs)
       = numbered_paths (Cli.output_dir self) 0
           (flat_map
              (fun p =>
                 repeat (fst p)
                   (List.length
                      (matching detect_faces face_distance the_person
                         tolerance (snd p))))
              (sampled frame_skip 0
                 (cap_frames (video_files W (Cli.video_path self)))))
    /\ List.length evs = List.length (imwrites evs)
    /\ NoDup (map fst (imwrites evs)).
Proof.
  intros Hp Hopen Hk. unfold Cli.detect_person_in_video. rewrite Hp.
  cbv beta iota delta [bind App.VideoCapture emit ret].
  rewrite Hopen. cbv beta iota delta [negb].
  destruct (tool_while_read_closed detect_faces face_distance the_person
              (Cli.output_dir self) tolerance frame_skip Hk
              (cap_frames (video_files W (Cli.video_path self))) 0 0
              (tr ++ [EvCaptureOpen (Cli.video_path self)]))
    as (evs & Hrun & Hpaths & Hlen).
  cbv zeta in Hrun. rewrite Hrun.
  exists evs. split; [| split; [exact Hpaths | split; [exact Hlen |]]].
  - now rewrite <- !app_assoc.
  - rewrite Hpaths. apply numbered_paths_NoDup; [| lia].
    apply sampled_from_zero_nonneg.
Qed.

(** The command line tool does not check the stride: with
    [--frame-skip 0], once the person is loaded and the video is open,
    reading the first frame raises [ZeroDivisionError]; no image has been
    saved and the capture is not released. *)
Theorem tool_zero_stride_raises (self : @Cli.PersonDetector encoding)
    (img : image) (first : box * encoding) (others : list (box * encoding))
    (frame : image) (rest : list image) (tolerance : Q)
    (tr : list (event image)) :
  image_files W (Cli.person_image_path self) = inl img ->
  detect_faces img = first :: others ->
  cap_isOpened (video_files W (Cli.video_path self)) = true ->
  cap_frames (video_files W (Cli.video_path self)) = frame :: rest ->
  exists msg,
    Cli.run_detection detect_faces face_distance W self tolerance 0 tr
    = (Raise (ZeroDivisionError msg),
       tr ++ [EvLoadImage (Cli.person_image_path self);
              EvCaptureOpen (Cli.video_path self)]).
Proof.
  intros Himg Hfaces Hopen Hframes. eexists.
  cbv beta iota delta [Cli.run_detection Cli.load_person_encoding
                         try_except bind App.load_image_file emit ret
                         raise App.face_encodings].
  rewrite Himg. cbv beta iota. rewrite Hfaces. cbn [map]. cbv beta iota.
  cbv beta iota delta [negb Cli.detect_person_in_video bind
                         App.VideoCapture emit ret].
  cbn [Cli.person_encoding Cli.video_path Cli.output_dir].
  rewrite Hopen, Hframes. cbv beta iota delta [negb].
  simpl. now rewrite <- app_assoc.
Qed.

(** [main] opens the video only when both paths of the command line
    exist and the person image is readable and shows a face. *)
Theorem main_opens_video_only_with_a_person (exists_ : string -> bool)
    (a : Tool.args) :
  opens_capture
    (snd (Tool.main detect_faces face_distance W exists_ a [])) = true ->
  exists_ (Tool.person a) = true
  /\ exists_ (Tool.video a) = true
  /\ exists img first others,
       image_files W (Tool.person a) = inl img
       /\ detect_faces img = first :: others.
Proof.
  unfold Tool.main.
  destruct (exists_ (Tool.person a)); [| discriminate].
  destruct (exists_ (Tool.video a)); [| discriminate].
  intros Hopens. repeat split.
  revert Hopens.
  cbv beta iota zeta delta [negb bind Cli.__init__ Cli.run_detection
                              Cli.load_person_encoding try_except
                              App.load_image_file emit ret raise
                              App.face_encodings].
  destruct (dir_exists W "detected_frames"); cbv beta iota;
    cbn [Cli.person_image_path];
    (destruct (image_files W (Tool.person a)) as [img | err];
       [| cbv beta iota; simpl; discriminate]);
    cbv beta iota;
    (destruct (detect_faces img) as [| first others] eqn:Hfaces;
       [cbn [map]; cbv beta iota; simpl; discriminate |]);
    intros _; now exists img, first, others.
Qed.

End ToolProperties.

(* ================================================================== *)
(** ** The route *)

Section RouteFacts.

Context {image : Type} {encoding : Type}.
Variable detect_faces : image -> list (box * encoding).
Variable face_distance : encoding -> encoding -> Q.
Variable W : world image.

#[local] Notation "'scan_side'" :=
  (fun e : event image => is_scan_event e || is_release e).

Lemma emits_only_weaken {A : Type} (P Q : event image -> bool)
    (m : IO (event image) A) :
  (forall e, P e = true -> Q e = true) -> emits_only P m -> emits_only Q m.
Proof.
  intros Hpq Hm tr r tr' E. destruct (Hm _ _ _ E) as (evs & -> & H).
  exists evs. split; [reflexivity |].
  rewrite forallb_forall in *. auto.
Qed.

Lemma detect_events (self : @App.PersonDetector encoding) (path : string)
    (tolerance : Q) (frame_skip : Z) :
  emits_only scan_side
    (App.detect_person_in_video detect_faces face_distance W self path
       tolerance frame_skip).
Proof.
  unfold App.detect_person_in_video.
  destruct (App.person_encoding self) as [p |]; [| apply emits_only_ret].
  apply emits_only_bind.
  { unfold App.VideoCapture. apply emits_only_bind;
      [now apply emits_only_emit | intros; apply emits_only_ret]. }
  intros video. destruct (negb (cap_isOpened video)); [apply emits_only_ret |].
  cbv zeta. apply emits_only_bind.
  { apply (emits_only_weaken is_writer_init); [now intros [] |].
    apply open_writer_events. }
  intros out. apply emits_only_bind.
  { apply (emits_only_weaken is_frame_output); [now intros [] |].
    apply while_read_events. }
  intros l. apply emits_only_bind; [now apply emits_only_emit |]. intros _.
  apply emits_only_bind; [now apply emits_only_emit |]. intros _.
  apply emits_only_ret.
Qed.

Lemma saves_app (a b : list (event image)) :
  saves (a ++ b) = saves a ++ saves b.
Proof.
  induction a as [| e a IH]; simpl; [reflexivity |].
  destruct e; simpl; now rewrite IH.
Qed.

Lemma scan_side_saves (evs : list (event image)) :
  forallb scan_side evs = true ->
  saves evs = [] /\ existsb is_remove evs = false.
Proof.
  induction evs as [| e evs IH]; [auto |].
  simpl. intros H. apply andb_prop in H. destruct H as [He Hrest].
  destruct (IH Hrest) as [-> ->]. now destruct e.
Qed.

(** A returned summary without a snapshot path comes from a run that wrote
    no image. *)
Lemma no_path_no_image (self : @App.PersonDetector encoding) (path : string)
    (tolerance : Q) (frame_skip : Z) (tr tr' : list (event image))
    (s : App.summary) :
  App.detect_person_in_video detect_faces face_distance W self path
    tolerance frame_skip tr = (Ok (inr s), tr') ->
  exists evs,
    tr' = tr ++ evs
    /\ (App.sum_detection_frame_path s = None -> imwrites evs = []).
Proof.
  unfold App.detect_person_in_video.
  destruct (App.person_encoding self) as [p |]; [| discriminate].
  cbv beta iota delta [bind App.VideoCapture emit ret].
  destruct (negb (cap_isOpened (video_files W (App.video_path self))));
    [discriminate |].
  set (video := video_files W (App.video_path self)).
  destruct (open_writer_no_image W path (int (cap_fps video))
              (int (cap_width video)) (int (cap_height video))
              (tr ++ [EvCaptureOpen (App.video_path self)]))
    as (wevs & Hw & Hwi).
  destruct (App.open_writer W path _ _ _ _) as [[out | e] tr1];
    simpl in Hw; subst tr1; [| discriminate].
  destruct (App.while_read _ _ _ _ _ _ _ _ _ _ _ _) as [[l | e] tr2] eqn:E;
    [| discriminate].
  destruct (while_read_one_snapshot _ _ _ _ _ _ _ _ _ _ _ _ _ _ E)
    as (sevs & -> & _ & Hnone). simpl in Hnone.
  intros H. injection H as <- <-. simpl.
  eexists. rewrite <- !app_assoc. split; [reflexivity |].
  intros Hpath. simpl. rewrite !imwrites_app, Hwi, (Hnone l eq_refl Hpath).
  reflexivity.
Qed.

Lemma load_cases (self : @App.PersonDetector encoding)
    (tr : list (event image)) :
  App.load_person_encoding detect_faces W self tr
  = (Ok (match image_files W (App.person_image_path self) with
         | inl img =>
             match detect_faces img with
             | [] =>
                 (self, (false, "No face found in the person's image. Please use an image with a clear face."))
             | face :: _ =>
                 (App.mkPersonDetector (App.person_image_path self)
                    (App.video_path self) (Some (snd face)),
                  (true, "Successfully loaded person's face encoding."))
             end
         | inr err =>
             (self, (false, ("Error loading person's image: " ++ err)%string))
         end),
     tr ++ [EvLoadImage (App.person_image_path self)]).
Proof.
  cbv beta iota delta [App.load_person_encoding try_except bind
                         App.load_image_file emit ret raise App.face_encodings].
  destruct (image_files W (App.person_image_path self)) as [img | err];
    cbv beta iota; [| reflexivity].
  now destruct (detect_faces img).
Qed.

(** [load_person_encoding] never raises. It reads the image and nothing
    else; it answers [True] exactly when the image is readable and shows
    a face, and then the detector holds the encoding of the first face;
    on any failure the detector is left as it was, and a detector without
    an encoding makes [detect_person_in_video] return
    [(False, "Person encoding not loaded.")] without touching anything. *)
Theorem load_person_encoding_never_raises
    (self : @App.PersonDetector encoding) (tr : list (event image)) :
  exists self' ok msg,
    App.load_person_encoding detect_faces W self tr
    = (Ok (self', (ok, msg)), tr ++ [EvLoadImage (App.person_image_path self)])
    /\ (ok = true
        <-> exists img face others,
              image_files W (App.person_image_path self) = inl img
              /\ detect_faces img = face :: others
              /\ self' = App.mkPersonDetector (App.person_image_path self)
                           (App.video_path self) (Some (snd face)))
    /\ (ok = false -> self' = self)
    /\ (App.person_encoding self' = None ->
        forall path tolerance frame_skip tr0,
          App.detect_person_in_video detect_faces face_distance W self' path
            tolerance frame_skip tr0
          = (Ok (inl "Person encoding not loaded."), tr0)).
Proof.
  rewrite load_cases.
  destruct (image_files W (App.person_image_path self)) as [img | err].
  - destruct (detect_faces img) as [| face others] eqn:Hfaces.
    + do 3 eexists. split; [reflexivity |]. split; [| split].
      * split; [discriminate |].
        intros (img' & f & o & E & Hf & _). injection E as <-. congruence.
      * reflexivity.
      * intros Hnone path tolerance frame_skip tr0.
        unfold App.detect_person_in_video. now rewrite Hnone.
    + do 3 eexists. split; [reflexivity |]. split; [| split].
      * split; [| reflexivity]. intros _.
        exists img, face, others. auto.
      * discriminate.
      * discriminate.
  - do 3 eexists. split; [reflexivity |]. split; [| split].
    + split; [discriminate |]. intros (img' & f & o & E & _). discriminate.
    + reflexivity.
    + intros Hnone path tolerance frame_skip tr0.
      unfold App.detect_person_in_video. now rewrite Hnone.
Qed.

End RouteFacts.

Section RouteProperties.

Context {image : Type} {encoding : Type}.
Variable detect_faces : image -> list (box * encoding).
Variable face_distance : encoding -> encoding -> Q.
Variable W : world image.

Variable stamp person_ext video_ext : string.
Variable tolerance : Q.
Variable frame_skip : Z.

#[local] Notation "'person_path'" :=
  (App.path_join App.UPLOAD_FOLDER ("person_" ++ stamp ++ "." ++ person_ext)%string).
#[local] Notation "'video_path'" :=
  (App.path_join App.UPLOAD_FOLDER ("crowd_" ++ stamp ++ "." ++ video_ext)%string).
#[local] Notation "'output_filename'" := ("output_" ++ stamp ++ ".mp4")%string.
#[local] Notation "'output_path'" :=
  (App.path_join App.OUTPUT_FOLDER ("output_" ++ stamp ++ ".mp4")%string).
#[local] Notation "'route'" :=
  (App.detect_person detect_faces face_distance W stamp person_ext video_ext
     tolerance frame_skip).
#[local] Notation "'stored'" :=
  (fun tr : list (event image) =>
     tr ++ [EvSave person_path; EvSave video_path; EvLoadImage person_path]).
#[local] Notation "'removed'" :=
  ([EvRemove person_path; EvRemove video_path] : list (event image)).

(** The route, case by case. *)
Lemma route_cases (tr : list (event image)) :
  route tr
  = if negb (Qle_bool 0 tolerance && Qle_bool tolerance 1) then
      (Ok (App.ErrorBody "Tolerance must be between 0.0 and 1.0", 400), tr)
    else if frame_skip <? 1 then
      (Ok (App.ErrorBody "Frame skip must be at least 1", 400), tr)
    else
      match image_files W person_path with
      | inr err =>
          (Ok (App.ErrorBody ("Error loading person's image: " ++ err)%string, 400),
           stored tr ++ removed)
      | inl img =>
          match detect_faces img with
          | [] =>
              (Ok (App.ErrorBody "No face found in the person's image. Please use an image with a clear face.", 400),
               stored tr ++ removed)
          | face :: _ =>
              let run :=
                App.detect_person_in_video detect_faces face_distance W
                  (App.mkPersonDetector person_path video_path (Some (snd face)))
                  output_path tolerance frame_skip (stored tr) in
              match fst run with
              | Ok (inl result) =>
                  (Ok (App.ErrorBody result, 500), snd run ++ removed)
              | Ok (inr result) =>
                  (Ok (App.SuccessBody "Person detection completed successfully"
                         output_filename
                         (replace output_filename ".mp4" "_detection_frame.jpg")
                         result, 200),
                   snd run ++ removed)
              | Raise e =>
                  (Ok (App.ErrorBody ("Internal server error: " ++ str e)%string, 500),
                   snd run)
              end
          end
      end.
Proof.
  unfold App.detect_person, try_except.
  destruct (negb (Qle_bool 0 tolerance && Qle_bool tolerance 1)); [reflexivity |].
  destruct (frame_skip <? 1); [reflexivity |].
  unfold bind at 1. unfold emit at 1. unfold bind at 1. unfold emit at 1.
  unfold bind at 1. rewrite load_cases. unfold App.__init__.
  cbn [App.person_image_path App.video_path].
  rewrite <- !app_assoc. cbn [app].
  destruct (image_files W person_path) as [img | err].
  - destruct (detect_faces img) as [| face others].
    + cbn [negb]. unfold bind, emit, ret. rewrite <- !app_assoc. reflexivity.
    + cbn [negb]. cbv zeta. unfold bind at 1.
      destruct (App.detect_person_in_video _ _ _ _ _ _ _ _)
        as [[[result | result] | e] tr2]; cbn [fst snd].
      * unfold bind, emit, ret. rewrite <- !app_assoc. reflexivity.
      * unfold bind, emit, ret. rewrite <- !app_assoc. reflexivity.
      * reflexivity.
  - cbn [negb]. unfold bind, emit, ret. rewrite <- !app_assoc. reflexivity.
Qed.

(** Every call is answered, with 200, 400 or 500; what it adds to the
    trace is nothing, or the two stored uploads followed by events that
    store nothing more. *)
Lemma route_answers (tr : list (event image)) :
  exists body status evs,
    route tr = (Ok (body, status), tr ++ evs)
    /\ (status = 200 \/ status = 400 \/ status = 500)
    /\ (evs = []
        \/ (Qle_bool 0 tolerance && Qle_bool tolerance 1 = true
            /\ 1 <= frame_skip
            /\ exists rest,
                 evs = EvSave person_path :: EvSave video_path :: rest
                 /\ saves rest = [])).
Proof.
  rewrite route_cases.
  destruct (Qle_bool 0 tolerance && Qle_bool tolerance 1) eqn:Hv; cbn [negb].
  2:{ do 3 eexists. rewrite app_nil_r. split; [reflexivity |]. auto. }
  destruct (Z.ltb_spec frame_skip 1) as [Hk | Hk].
  { do 3 eexists. rewrite app_nil_r. split; [reflexivity |]. auto. }
  destruct (image_files W person_path) as [img | err].
  - destruct (detect_faces img) as [| face others].
    + do 3 eexists. rewrite <- !app_assoc. split; [reflexivity |].
      split; [auto |]. right. repeat split; auto.
      eexists. split; reflexivity.
    + cbv zeta.
      destruct (App.detect_person_in_video _ _ _ _ _ _ _ _)
        as [r tr2] eqn:E.
      destruct (detect_events detect_faces face_distance W _ _ _ _ _ _ _ E)
        as (evs & -> & Hclass).
      destruct (scan_side_saves evs Hclass) as [Hsaves _].
      cbn [fst snd].
      destruct r as [[result | result] | e];
        do 3 eexists; rewrite <- !app_assoc;
        (split; [reflexivity |]); (split; [auto |]); right;
        repeat split; auto; eexists; (split; [reflexivity |]);
        cbn [app saves]; rewrite ?saves_app, Hsaves; reflexivity.
  - do 3 eexists. rewrite <- !app_assoc. split; [reflexivity |].
    split; [auto |]. right. repeat split; auto.
    eexists. split; reflexivity.
Qed.

(** The uploads are removed when detection returns, with a summary or
    with a message, and are left behind when it raises: then the answer
    is 500 with the text of the exception, and nothing removes the two
    stored files. *)
Theorem uploads_removed_unless_detection_raises (img : image)
    (face : box * encoding) (others : list (box * encoding))
    (tr : list (event image)) :
  Qle_bool 0 tolerance && Qle_bool tolerance 1 = true ->
  1 <= frame_skip ->
  image_files W person_path = inl img ->
  detect_faces img = face :: others ->
  let run :=
    App.detect_person_in_video detect_faces face_distance W
      (App.mkPersonDetector person_path video_path (Some (snd face)))
      output_path tolerance frame_skip (stored tr) in
  (exists evs, snd run = stored tr ++ evs /\ existsb is_remove evs = false)
  /\ match fst run with
     | Raise e =>
         route tr
         = (Ok (App.ErrorBody ("Internal server error: " ++ str e)%string, 500),
            snd run)
     | Ok _ =>
         exists body status,
           route tr = (Ok (body, status), snd run ++ removed)
     end.
Proof.
  intros Hv Hk Himg Hfaces run. split.
  - destruct run as [r tr2] eqn:E. subst run.
    destruct (detect_events detect_faces face_distance W _ _ _ _ _ _ _ E)
      as (evs & -> & Hclass).
    exists evs. split; [reflexivity |]. now apply scan_side_saves.
  - rewrite route_cases, Hv. cbn [negb].
    destruct (Z.ltb_spec frame_skip 1) as [Hlt | _]; [lia |].
    rewrite Himg, Hfaces. cbv zeta. fold run.
    destruct (fst run) as [[result | result] | e]; eauto.
Qed.

Lemma replace_from_other (new : string) (c : ascii) (s : string) :
  c <> "."%char ->
  replace_from ".mp4" new 0 (String c s)
  = String c (replace_from ".mp4" new 0 s).
Proof.
  intros Hc. cbn [replace_from prefix].
  destruct (ascii_dec "." c) as [E | _]; [congruence | reflexivity].
Qed.

Lemma replace_in_output_folder (new name : string) :
  replace (App.path_join App.OUTPUT_FOLDER name) ".mp4" new
  = App.path_join App.OUTPUT_FOLDER (replace name ".mp4" new).
Proof.
  unfold replace, App.path_join, App.OUTPUT_FOLDER. cbn [append].
  now rewrite !replace_from_other by discriminate.
Qed.

(** What a success answer says is what the run did: [output_video] is
    the name of the file the writer was opened on in the output folder;
    [detection_frame] is the name under which the snapshot was written
    there, if one was written; but the answer names a [detection_frame]
    also when nobody was detected, and then no image was written at all.
    Both uploads have been removed. *)
Theorem success_answer_names_the_outputs (tr tr' : list (event image))
    (message output_video detection_frame : string) (s : App.summary)
    (status : Z) :
  route tr
  = (Ok (App.SuccessBody message output_video detection_frame s, status), tr') ->
  status = 200
  /\ output_video = output_filename
  /\ App.sum_output_video_path s
     = App.path_join App.OUTPUT_FOLDER output_video
  /\ (App.sum_detection_frame_path s = None
      \/ App.sum_detection_frame_path s
         = Some (App.path_join App.OUTPUT_FOLDER detection_frame))
  /\ (App.sum_detection_frame_path s = None <-> App.sum_detected_frames s = 0)
  /\ exists evs,
       tr' = stored tr ++ evs ++ removed
       /\ (App.sum_detected_frames s = 0 -> imwrites evs = []).
Proof.
  rewrite route_cases.
  destruct (negb (Qle_bool 0 tolerance && Qle_bool tolerance 1)); [discriminate |].
  destruct (frame_skip <? 1); [discriminate |].
  destruct (image_files W person_path) as [img | err]; [| discriminate].
  destruct (detect_faces img) as [| face others]; [discriminate |].
  cbv zeta.
  destruct (App.detect_person_in_video _ _ _ _ _ _ _ _)
    as [[[result | result] | e] tr2] eqn:E; cbn [fst snd]; try discriminate.
  intros H. injection H as <- <- <- <- <- <-.
  destruct (summary_fields detect_faces face_distance W _ _ _ _ _ _ _ E)
    as (Hnone & _ & Hpath & Hout & _).
  destruct (no_path_no_image detect_faces face_distance W _ _ _ _ _ _ _ E)
    as (evs & -> & Himw).
  split; [reflexivity |]. split; [reflexivity |]. split; [exact Hout |].
  split; [| split; [exact Hnone |]].
  - rewrite replace_in_output_folder in Hpath. exact Hpath.
  - exists evs. rewrite <- app_assoc. split; [reflexivity |].
    intros Hzero. apply Himw. now apply Hnone.
Qed.

End RouteProperties.

Section RequestProperties.

Context {image : Type} {encoding : Type}.
Variable detect_faces : image -> list (box * encoding).
Variable face_distance : encoding -> encoding -> Q.
Variable W : world image.
Variable float_of_str : string -> result pyfloat.
Variable int_of_str : string -> result Z.

(** The whole route answers every request, with 200, 400 or 500, and
    touches nothing before the request has passed every check: when
    anything is added to the trace, both files were sent with an allowed
    extension, the tolerance is a number in [0, 1] and the stride is at
    least 1. The two uploads are then stored under names made of the
    generated stamp and the lowered, allowed, extension only, and nothing
    else is stored. *)
Theorem request_effects_follow_validation (req : Web.request) (stamp : string)
    (tr : list (event image)) :
  forallb (fun field => isascii (snd field)) (Web.files req) = true ->
  exists body status evs,
    Web.detect_person detect_faces face_distance W float_of_str int_of_str
      req stamp tr
    = (Ok (body, status), tr ++ evs)
    /\ (status = 200 \/ status = 400 \/ status = 500)
    /\ (evs = []
        \/ exists person_filename video_filename tolerance frame_skip rest,
             get (Web.files req) "person_image" = Some person_filename
             /\ get (Web.files req) "crowd_video" = Some video_filename
             /\ In (Web.extension person_filename) Web.ALLOWED_EXTENSIONS_IMAGE
             /\ In (Web.extension video_filename) Web.ALLOWED_EXTENSIONS_VIDEO
             /\ (0 <= tolerance)%Q /\ (tolerance <= 1)%Q
             /\ 1 <= frame_skip
             /\ evs
                = EvSave
                    (App.path_join App.UPLOAD_FOLDER
                       ("person_" ++ stamp ++ "."
                          ++ Web.extension person_filename)%string)
                    :: EvSave
                         (App.path_join App.UPLOAD_FOLDER
                            ("crowd_" ++ stamp ++ "."
                               ++ Web.extension video_filename)%string)
                    :: rest
             /\ saves rest = []).
Proof.
  intros _. unfold Web.detect_person, try_except.
  assert (Hnothing : forall (body : App.body) (status : Z),
             status = 400 \/ status = 500 ->
             exists body' status' evs,
               (Ok (body, status), tr)
               = (Ok (body', status'), tr ++ evs)
               /\ (status' = 200 \/ status' = 400 \/ status' = 500)
               /\ (evs = []
                   \/ exists person_filename video_filename tolerance
                             frame_skip rest,
                        get (Web.files req) "person_image" = Some person_filename
                        /\ get (Web.files req) "crowd_video" = Some video_filename
                        /\ In (Web.extension person_filename)
                             Web.ALLOWED_EXTENSIONS_IMAGE
                        /\ In (Web.extension video_filename)
                             Web.ALLOWED_EXTENSIONS_VIDEO
                        /\ (0 <= tolerance)%Q /\ (tolerance <= 1)%Q
                        /\ 1 <= frame_skip
                        /\ evs
                           = EvSave
                               (App.path_join App.UPLOAD_FOLDER
                                  ("person_" ++ stamp ++ "."
                                     ++ Web.extension person_filename)%string)
                               :: EvSave
                                    (App.path_join App.UPLOAD_FOLDER
                                       ("crowd_" ++ stamp ++ "."
                                          ++ Web.extension video_filename)%string)
                               :: rest
                        /\ saves rest = [])).
  { intros body status Hs. exists body, status, [].
    rewrite app_nil_r. split; [reflexivity |]. split; [tauto | auto]. }
  destruct (get (Web.files req) "person_image") as [pf |];
    [| destruct (get (Web.files req) "crowd_video"); apply Hnothing; auto].
  destruct (get (Web.files req) "crowd_video") as [vf |];
    [| apply Hnothing; auto].
  destruct (Web.allowed_file pf Web.ALLOWED_EXTENSIONS_IMAGE) eqn:Hpf;
    cbn [negb]; [| apply Hnothing; auto].
  destruct (Web.allowed_file vf Web.ALLOWED_EXTENSIONS_VIDEO) eqn:Hvf;
    cbn [negb]; [| apply Hnothing; auto].
  unfold bind at 1. unfold lift at 1.
  destruct (match get (Web.form req) "tolerance" with
            | Some text => float_of_str text
            | None => Ok (Finite (6 # 10))
            end) as [t | e]; [| apply Hnothing; auto].
  unfold bind at 1. unfold lift at 1.
  destruct (match get (Web.form req) "frame_skip" with
            | Some text => int_of_str text
            | None => Ok 5
            end) as [k | e]; [| apply Hnothing; auto].
  destruct t as [q | | |]; try (apply Hnothing; auto).
  destruct (route_answers detect_faces face_distance W stamp
              (Web.extension pf) (Web.extension vf) q k tr)
    as (body & status & evs & Hrun & Hstatus & Hevs).
  rewrite Hrun. exists body, status, evs.
  split; [reflexivity |]. split; [exact Hstatus |].
  destruct Hevs as [-> | (Hv & Hk & rest & -> & Hsaves)]; [now left | right].
  apply andb_prop in Hv. destruct Hv as [H0 H1].
  apply Qle_bool_iff in H0. apply Qle_bool_iff in H1.
  exists pf, vf, q, k, rest. repeat split; auto.
  - now apply extension_of_allowed.
  - now apply extension_of_allowed.
Qed.

End RequestProperties.

(* ================================================================== *)
(** ** These properties on concrete machines *)

Lemma allowed_file_iff_witness :
  isascii "Me.PNG" = true
  /\ (Web.allowed_file "Me.PNG" Web.ALLOWED_EXTENSIONS_IMAGE = true
      <-> exists stem ext,
            "Me.PNG" = (stem ++ "." ++ ext)%string
            /\ contains "." ext = false
            /\ In (lower ext) Web.ALLOWED_EXTENSIONS_IMAGE).
Proof.
  split; [reflexivity |].
  exact (allowed_file_iff "Me.PNG" Web.ALLOWED_EXTENSIONS_IMAGE eq_refl).
Defined.

Lemma format_0d_reads_back_witness :
  0 <= 42
  /\ number_of (format_0d 6 42) = Some 42
  /\ all_digits (format_0d 6 42) = true
  /\ (6 <= String.length (format_0d 6 42))%nat.
Proof.
  split; [lia |]. apply (format_0d_reads_back 6 42). lia.
Defined.

Lemma returned_summary_fields_witness :
  exists s tr',
    App.detect_person_in_video Demo.detect_faces Demo.face_distance Demo.W
      (Demo.detector "crowd.mp4") "out.mp4" (6 # 10)%Q 2 []
    = (Ok (inr s), tr')
    /\ (App.sum_detection_frame_path s = None <-> App.sum_detected_frames s = 0)
    /\ App.sum_output_video_path s = "out.mp4".
Proof.
  assert (Hrun : exists s tr',
             App.detect_person_in_video Demo.detect_faces Demo.face_distance
               Demo.W (Demo.detector "crowd.mp4") "out.mp4" (6 # 10)%Q 2 []
             = (Ok (inr s), tr'))
    by (eexists; eexists; vm_compute; reflexivity).
  destruct Hrun as (s & tr' & Hrun). exists s, tr'. split; [exact Hrun |].
  destruct (returned_summary_fields Demo.detect_faces Demo.face_distance
              Demo.W (Demo.detector "crowd.mp4") "out.mp4" (6 # 10)%Q 2 []
              tr' s Hrun) as (Hnone & _ & _ & Hout & _).
  split; [exact Hnone | exact Hout].
Defined.

Lemma slow_video_raises_at_first_match_witness :
  int (cap_fps Lab.slow) = 0
  /\ int (cap_frame_count Lab.slow) <> 0
  /\ exists evs,
       App.detect_person_in_video Demo.detect_faces Demo.face_distance Lab.W
         (Demo.detector "slow.mp4") "out.mp4" (6 # 10)%Q 1 []
       = (Raise (ZeroDivisionError "division by zero"), evs)
       /\ writes evs = []
       /\ imwrites evs = [].
Proof.
  split; [reflexivity |]. split; [discriminate |].
  destruct (slow_video_raises_at_first_match Demo.detect_faces
              Demo.face_distance Lab.W (Demo.detector "slow.mp4") Demo.subject
              "out.mp4" (6 # 10)%Q 1 [] eq_refl eq_refl eq_refl
              ltac:(discriminate) ltac:(lia) eq_refl ltac:(discriminate))
    as (evs & Hrun & Hwrites & Himw & _).
  exists evs. split; [exact Hrun |]. split; [exact Hwrites | exact Himw].
Defined.

Lemma unknown_frame_count_raises_after_first_frame_witness :
  int (cap_frame_count Lab.stream) = 0
  /\ int (cap_fps Lab.stream) <> 0
  /\ Cv.has_encoder (snapshot_path "out.mp4") = true
  /\ exists evs,
       App.detect_person_in_video Demo.detect_faces Demo.face_distance Lab.W
         (Demo.detector "stream.mp4") "out.mp4" (6 # 10)%Q 1 []
       = (Raise (ZeroDivisionError "division by zero"), evs)
       /\ map (fun w => pixels (snd w)) (writes evs) = [Demo.empty_frame].
Proof.
  split; [reflexivity |]. split; [discriminate |]. split; [reflexivity |].
  exact (unknown_frame_count_raises_after_first_frame Demo.detect_faces
           Demo.face_distance Lab.W (Demo.detector "stream.mp4") Demo.subject
           "out.mp4" (6 # 10)%Q 1 Demo.empty_frame [Demo.subject_frame] []
           eq_refl eq_refl ltac:(discriminate) eq_refl eq_refl eq_refl
           ltac:(discriminate) eq_refl).
Defined.

Lemma written_frames_carry_their_marks_witness :
  ready Demo.W (Demo.detector "crowd.mp4") "out.mp4" 4 = true
  /\ exists s evs,
       Demo.detect Demo.W "crowd.mp4" "out.mp4" 4 = (Ok (inr s), evs)
       /\ List.length (output_video evs) = 3%nat.
Proof.
  split; [reflexivity |].
  destruct (written_frames_carry_their_marks Demo.detect_faces
              Demo.face_distance Demo.W (Demo.detector "crowd.mp4")
              Demo.subject "out.mp4" (6 # 10)%Q 4 [] eq_refl eq_refl eq_refl)
    as (s & evs & Hrun & Hout).
  exists s, evs. split; [exact Hrun |]. now rewrite Hout.
Defined.

Lemma tool_saves_each_detection_once_witness :
  exists evs,
    Cli.detect_person_in_video Demo.detect_faces Demo.face_distance Lab.W
      (Cli.mkPersonDetector "person3.png" "crowd1.mp4" (Some Demo.subject)
         "detected_frames") (4 # 10)%Q 20 []
    = (Ok tt, EvCaptureOpen "crowd1.mp4" :: evs ++ [EvCaptureRelease "crowd1.mp4"])
    /\ map fst (imwrites evs)
       = ["detected_frames/frame_000000_detection_000.jpg";
          "detected_frames/frame_000000_detection_001.jpg"]
    /\ NoDup (map fst (imwrites evs)).
Proof.
  destruct (tool_saves_each_detection_once Demo.detect_faces
              Demo.face_distance Lab.W
              (Cli.mkPersonDetector "person3.png" "crowd1.mp4"
                 (Some Demo.subject) "detected_frames")
              Demo.subject (4 # 10)%Q 20 [] eq_refl eq_refl
              ltac:(discriminate))
    as (evs & Hrun & Hpaths & _ & Hdistinct).
  exists evs. split; [exact Hrun |]. split; [exact Hpaths | exact Hdistinct].
Defined.

Lemma tool_zero_stride_raises_witness :
  exists msg,
    Cli.run_detection Demo.detect_faces Demo.face_distance Lab.W
      (Cli.mkPersonDetector "person3.png" "crowd1.mp4" None "detected_frames")
      (4 # 10)%Q 0 []
    = (Raise (ZeroDivisionError msg),
       [EvLoadImage "person3.png"; EvCaptureOpen "crowd1.mp4"]).
Proof.
  exact (tool_zero_stride_raises Demo.detect_faces Demo.face_distance Lab.W
           (Cli.mkPersonDetector "person3.png" "crowd1.mp4" None
              "detected_frames")
           [Demo.face_at 5 Demo.subject] (Demo.face_at 5 Demo.subject) []
           Demo.twins_frame [] (4 # 10)%Q [] eq_refl eq_refl eq_refl eq_refl).
Defined.

Lemma main_opens_video_only_with_a_person_witness :
  opens_capture
    (snd (Tool.main Demo.detect_faces Demo.face_distance Lab.W Lab.exists_
            Tool.defaults [])) = true
  /\ Lab.exists_ "person3.png" = true
  /\ Lab.exists_ "crowd1.mp4" = true.
Proof.
  split; [reflexivity |].
  destruct (main_opens_video_only_with_a_person Demo.detect_faces
              Demo.face_distance Lab.W Lab.exists_ Tool.defaults eq_refl)
    as (Hperson & Hvideo & _).
  split; [exact Hperson | exact Hvideo].
Defined.

Lemma uploads_removed_unless_detection_raises_witness :
  exists tr',
    App.detect_person Demo.detect_faces Demo.face_distance Lab.W "s2" "png"
      "mp4" (6 # 10)%Q 1 []
    = (Ok (App.ErrorBody "Internal server error: division by zero", 500), tr')
    /\ existsb is_remove tr' = false.
Proof.
  destruct (uploads_removed_unless_detection_raises Demo.detect_faces
              Demo.face_distance Lab.W "s2" "png" "mp4" (6 # 10)%Q 1
              [Demo.face_at 5 Demo.subject] (Demo.face_at 5 Demo.subject) []
              [] eq_refl ltac:(lia) eq_refl eq_refl)
    as [_ Hroute].
  eexists. split; [exact Hroute | reflexivity].
Defined.

Lemma success_answer_names_the_outputs_witness :
  exists s tr',
    App.detect_person Demo.detect_faces Demo.face_distance Lab.W "s1" "png"
      "mp4" (6 # 10)%Q 2 []
    = (Ok (App.SuccessBody "Person detection completed successfully"
             "output_s1.mp4" "output_s1_detection_frame.jpg" s, 200), tr')
    /\ App.sum_output_video_path s = "outputs/output_s1.mp4".
Proof.
  assert (Hrun : exists s tr',
             App.detect_person Demo.detect_faces Demo.face_distance Lab.W
               "s1" "png" "mp4" (6 # 10)%Q 2 []
             = (Ok (App.SuccessBody "Person detection completed successfully"
                      "output_s1.mp4" "output_s1_detection_frame.jpg" s, 200),
                tr'))
    by (eexists; eexists; vm_compute; reflexivity).
  destruct Hrun as (s & tr' & Hrun). exists s, tr'. split; [exact Hrun |].
  destruct (success_answer_names_the_outputs Demo.detect_faces
              Demo.face_distance Lab.W "s1" "png" "mp4" (6 # 10)%Q 2 [] tr'
              _ _ _ s _ Hrun) as (_ & _ & Hout & _).
  exact Hout.
Defined.

Lemma request_effects_follow_validation_witness :
  forallb (fun field => isascii (snd field)) (Web.files Lab.upload) = true
  /\ exists body status evs,
       Web.detect_person Demo.detect_faces Demo.face_distance Lab.W
         Lab.float_of_str Lab.int_of_str Lab.upload "s1" []
       = (Ok (body, status), evs)
       /\ (status = 200 \/ status = 400 \/ status = 500).
Proof.
  split; [reflexivity |].
  destruct (request_effects_follow_validation Demo.detect_faces
              Demo.face_distance Lab.W Lab.float_of_str Lab.int_of_str
              Lab.upload "s1" [] eq_refl)
    as (body & status & evs & Hrun & Hstatus & _).
  exists body, status, evs. split; [exact Hrun | exact Hstatus].
Defined.

(* ================================================================== *)
(** ** The sign of the stride *)

Section StrideSign.

Context {image : Type} {encoding : Type}.
Variable detect_faces : image -> list (box * encoding).
Variable face_distance : encoding -> encoding -> Q.
Variable W : world image.

Lemma mod_opp_is_zero (a b : Z) :
  b <> 0 -> (a mod (- b) =? 0) = (a mod b =? 0).
Proof.
  intros Hb. apply Bool.eq_iff_eq_true. rewrite !Z.eqb_eq.
  rewrite !Z.mod_divide by lia. apply Z.divide_opp_l.
Qed.

Lemma tool_loop_body_opp (the_person : encoding) (dir : string)
    (tolerance : Q) (frame_skip : Z) (img : image) (counts : Z * Z)
    (tr : list (event image)) :
  Cli.loop_body detect_faces face_distance the_person dir tolerance
    (- frame_skip) img counts tr
  = Cli.loop_body detect_faces face_distance the_person dir tolerance
      frame_skip img counts tr.
Proof.
  destruct counts as [frame_count detected_frames].
  cbv beta iota delta [Cli.loop_body bind lift mod_].
  destruct (Z.eqb_spec frame_skip 0) as [-> | Hk]; [reflexivity |].
  destruct (Z.eqb_spec (- frame_skip) 0) as [H0 | _]; [lia |].
  now rewrite (mod_opp_is_zero frame_count frame_skip Hk).
Qed.

Lemma tool_while_read_opp (the_person : encoding) (dir : string)
    (tolerance : Q) (frame_skip : Z) (frames : list image) :
  forall (counts : Z * Z) (tr : list (event image)),
    Cli.while_read detect_faces face_distance the_person dir tolerance
      (- frame_skip) frames counts tr
    = Cli.while_read detect_faces face_distance the_person dir tolerance
        frame_skip frames counts tr.
Proof.
  induction frames as [| img rest IH]; intros counts tr; [reflexivity |].
  cbn [Cli.while_read]. unfold bind. rewrite tool_loop_body_opp.
  destruct (Cli.loop_body _ _ _ _ _ _ _ _ _) as [[c | e] tr1];
    [apply IH | reflexivity].
Qed.

(** The command line tool never looks at the sign of the stride: apart
    from the number echoed in its messages, [--frame-skip -k] does what
    [--frame-skip k] does; it samples the same frames, saves the same
    images and ends the same way. *)
Theorem tool_stride_sign_is_ignored (self : @Cli.PersonDetector encoding)
    (tolerance : Q) (frame_skip : Z) (tr : list (event image)) :
  Cli.run_detection detect_faces face_distance W self tolerance
    (- frame_skip) tr
  = Cli.run_detection detect_faces face_distance W self tolerance
      frame_skip tr.
Proof.
  unfold Cli.run_detection, bind.
  destruct (Cli.load_person_encoding detect_faces W self tr)
    as [[[self' loaded] | e] tr1]; [| reflexivity].
  destruct (negb loaded); [reflexivity |].
  unfold Cli.detect_person_in_video.
  destruct (Cli.person_encoding self') as [the_person |]; [| reflexivity].
  unfold bind.
  destruct (App.VideoCapture W (Cli.video_path self') tr1) as [[video | e] tr2];
    [| reflexivity].
  destruct (negb (cap_isOpened video)); [reflexivity |].
  now rewrite tool_while_read_opp.
Qed.

End StrideSign.
